(** * BTC-Lens: a shallow embedding of the block and transaction analyzer

    The Go packages [utils], [analyzer] and [parser] are rendered as Rocq
    functions.  Bytes and fixed-width integers are values of [Z]; every
    place where the Go code computes in [uint64] or [int64] has its
    wrap-around written out.  An [io.Reader] is the list of bytes that are
    still unread; a [bytes.Reader] used as an [io.ReadSeeker] is a buffer
    together with an offset.  What the analyzer calls in btcd, in btcutil
    and in the floating-point unit is reached through three interfaces
    ([Btcd], [Btcutil], [Float64]), and the memory that the machine
    grants to the Go runtime is a parameter ([Runtime]); the theorems
    hold for every implementation of them, and reference implementations
    run the model on recorded chain data. *)

From Stdlib Require Import ZArith List Lia Bool String Ascii.
From Stdlib Require Import Floats.
From Equations Require Import Equations.
Import ListNotations.
Open Scope string_scope.
Open Scope list_scope.
Open Scope Z_scope.

Set Implicit Arguments.

(** ** Machine integers *)

Definition byte := Z.

Definition two64 : Z := 2 ^ 64.
Definition two63 : Z := 2 ^ 63.

(** Arithmetic on [uint64] keeps the low 64 bits. *)
Definition wrap64 (x : Z) : Z := x mod two64.

(** Arithmetic on [uint32] keeps the low 32 bits. *)
Definition wrap32 (x : Z) : Z := x mod 2 ^ 32.

(** The conversion [int64(n)] of a [uint64], and arithmetic on [int64]:
    the low 64 bits read in two's complement. *)
Definition to_int64 (x : Z) : Z :=
  let y := x mod two64 in
  if y <? two63 then y else y - two64.

(** ** Errors and readers *)

(** Go errors.  [Wrapf msg e] is [fmt.Errorf(msg + ": %w", e)], [Errorf]
    an error with no cause; [Panic] is what ends the program: a run-time
    panic (an index out of range, a slice too long to be made) or a fatal
    error of the runtime (no memory for a slice). *)
Inductive error : Type :=
| io_EOF
| io_ErrUnexpectedEOF
| Errorf (msg : string)
| Wrapf (msg : string) (cause : error)
| Panic (msg : string).

(** [fmt.Sprintf("%d", n)] *)
Fixpoint decimal_digits (fuel : nat) (n : Z) (acc : string) : string :=
  match fuel with
  | O => acc
  | S fuel' =>
      let acc := String (ascii_of_nat (48 + Z.to_nat (n mod 10))) acc in
      if n / 10 =? 0 then acc else decimal_digits fuel' (n / 10) acc
  end.

Definition Sprintf_d (n : Z) : string :=
  if n <? 0 then "-" ++ decimal_digits 20 (- n) "" else decimal_digits 20 n "".

Inductive result (A : Type) : Type :=
| Ok (a : A)
| Err (e : error).
Arguments Ok {A} a.
Arguments Err {A} e.

Definition is_Err {A} (r : result A) : bool :=
  match r with Ok _ => false | Err _ => true end.

(** A computation that consumes bytes from an [io.Reader]. *)
Definition Rd (A : Type) : Type := list byte -> result (A * list byte).

Definition ret {A} (a : A) : Rd A := fun s => Ok (a, s).

Definition bind {A B} (m : Rd A) (k : A -> Rd B) : Rd B :=
  fun s => match m s with
           | Ok (a, s') => k a s'
           | Err e => Err e
           end.

Definition fail {A} (e : error) : Rd A := fun _ => Err e.

(** What a caller that answers an error with [fmt.Errorf(msg + ": %w", err)]
    passes on: the error wrapped; a panic in the callee unwinds through
    the caller and stays what it is. *)
Definition wrap (msg : string) (e : error) : error :=
  match e with
  | Panic _ => e
  | _ => Wrapf msg e
  end.

(** [wrap_err msg m] is [m] with its error wrapped by [fmt.Errorf]. *)
Definition wrap_err {A} (msg : string) (m : Rd A) : Rd A :=
  fun s => match m s with
           | Ok r => Ok r
           | Err e => Err (wrap msg e)
           end.

Declare Scope rd_scope.
Delimit Scope rd_scope with rd.
Notation "x <- m ;; k" := (bind m (fun x => k))
  (at level 61, m at next level, right associativity) : rd_scope.
Notation "m ;;; k" := (bind m (fun _ => k))
  (at level 61, right associativity) : rd_scope.

Module Utils.

(** [io.ReadFull(r, buf)] with [len(buf) = n]: nothing is read for an
    empty buffer; [io.EOF] when no byte is left; [io.ErrUnexpectedEOF]
    when the stream ends before [n] bytes. *)
Definition ReadFull (n : Z) : Rd (list byte) := fun s =>
  if n <=? 0 then Ok ([], s)
  else match s with
       | [] => Err io_EOF
       | _ :: _ =>
           if Z.of_nat (List.length s) <? n then Err io_ErrUnexpectedEOF
           else Ok (firstn (Z.to_nat n) s, skipn (Z.to_nat n) s)
       end.

(** [io.ReadFull(r, b[:])] for [var b [1]byte]. *)
Definition ReadByte : Rd byte := fun s =>
  match s with
  | [] => Err io_EOF
  | b :: rest => Ok (b, rest)
  end.

(** Little-endian value of a byte string. *)
Fixpoint le_decode (bs : list byte) : Z :=
  match bs with
  | [] => 0
  | b :: rest => b + 256 * le_decode rest
  end.

(** [binary.Read(r, binary.LittleEndian, &v)] for an unsigned [v] of
    [n] bytes. *)
Definition binary_Read_le (n : Z) : Rd Z :=
  (bs <- ReadFull n ;; ret (le_decode bs))%rd.

Definition ReadCompactSize : Rd Z :=
  (b <- ReadByte ;;
   if b =? 0xfd then binary_Read_le 2
   else if b =? 0xfe then binary_Read_le 4
   else if b =? 0xff then binary_Read_le 8
   else ret b)%rd.

(** The [n] low bytes of [x], lowest first: what [binary.Write] writes
    in little-endian order. *)
Fixpoint le_encode (n : nat) (x : Z) : list byte :=
  match n with
  | O => []
  | S n' => x mod 256 :: le_encode n' (x / 256)
  end.

(** [WriteCompactSize], as the bytes written. *)
Definition WriteCompactSize (val : Z) : list byte :=
  if val <? 0xfd then [val mod 256]
  else if val <=? 0xffff then 0xfd :: le_encode 2 val
  else if val <=? 0xffffffff then 0xfe :: le_encode 4 val
  else 0xff :: le_encode 8 val.

(** The loop of [ReadBitcoinVarInt], entered with the accumulator [n]. *)
Fixpoint ReadBitcoinVarInt_loop (n : Z) (s : list byte)
  : result (Z * list byte) :=
  match s with
  | [] => Err io_EOF
  | b :: rest =>
      let n := Z.lor (wrap64 (Z.shiftl n 7)) (Z.land b 0x7f) in
      if Z.land b 0x80 =? 0 then Ok (n, rest)
      else ReadBitcoinVarInt_loop (wrap64 (n + 1)) rest
  end.

Definition ReadBitcoinVarInt : Rd Z := ReadBitcoinVarInt_loop 0.

(** [for i := uint64(0); i < e; i++ { n *= 10 }] *)
Definition mul10_loop (e : Z) (n : Z) : Z :=
  Nat.iter (Z.to_nat e) (fun n => wrap64 (n * 10)) n.

Definition DecompressAmount (x : Z) : Z :=
  if x =? 0 then 0
  else
    let x := wrap64 (x - 1) in
    let e := x mod 10 in
    let x := x / 10 in
    if e <? 9 then
      let d := wrap64 (x mod 9 + 1) in
      let x := x / 9 in
      let n := wrap64 (wrap64 (x * 10) + d) in
      to_int64 (mul10_loop e n)
    else
      let n := wrap64 (x + 1) in
      to_int64 (mul10_loop 9 n).

(** The test [allZero] of [XORDecode]. *)
Definition allZero (key : list byte) : bool :=
  forallb (fun b => b =? 0) key.

(** [for i := range data { result[i] = data[i] ^ key[i%len(key)] }],
    from index [i] on. *)
Fixpoint xor_from (i : nat) (data key : list byte) : list byte :=
  match data with
  | [] => []
  | d :: rest =>
      Z.lxor d (nth (i mod List.length key) key 0) :: xor_from (S i) rest key
  end.

Definition XORDecode (data key : list byte) : list byte :=
  match key with
  | [] => data
  | _ :: _ => if allZero key then data else xor_from 0 data key
  end.

End Utils.

(** ** Hexadecimal text ([encoding/hex]) *)

Module Hex.

Definition hexchar (n : Z) : ascii :=
  nth (Z.to_nat n) (list_ascii_of_string "0123456789abcdef") "0"%char.

Fixpoint EncodeToString (bs : list byte) : string :=
  match bs with
  | [] => EmptyString
  | b :: rest =>
      String (hexchar (b / 16)) (String (hexchar (b mod 16)) (EncodeToString rest))
  end.

Definition fromHexChar (c : ascii) : option Z :=
  let n := Z.of_N (N_of_ascii c) in
  if (48 <=? n) && (n <=? 57) then Some (n - 48)
  else if (97 <=? n) && (n <=? 102) then Some (n - 97 + 10)
  else if (65 <=? n) && (n <=? 70) then Some (n - 65 + 10)
  else None.

Definition hexchar_upper (n : Z) : ascii :=
  nth (Z.to_nat n) (list_ascii_of_string "0123456789ABCDEF") "0"%char.

(** [strconv.IsPrint] on the runes below [0x100]. *)
Definition IsPrint (r : Z) : bool :=
  ((0x20 <=? r) && (r <=? 0x7e))
  || ((0xa1 <=? r) && (r <=? 0xff) && negb (r =? 0xad)).

(** The UTF-8 encoding of a rune below [0x100]. *)
Definition utf8_of_byte (r : Z) : string :=
  if r <? 0x80 then String (ascii_of_nat (Z.to_nat r)) EmptyString
  else String (ascii_of_nat (Z.to_nat (0xc0 + r / 64)))
         (String (ascii_of_nat (Z.to_nat (0x80 + r mod 64))) EmptyString).

(** [fmt.Sprintf("%#U", rune(b))] for a byte [b]: [U+00XX], followed by
    the character in quotes when it is printable. *)
Definition Sprintf_sharpU (r : Z) : string :=
  ("U+00" ++ String (hexchar_upper (r / 16))
               (String (hexchar_upper (r mod 16)) EmptyString)
   ++ (if IsPrint r then " '" ++ utf8_of_byte r ++ "'" else ""))%string.

(** [hex.ErrLength] and [hex.InvalidByteError(c)]. *)
Definition ErrLength : error := Errorf "encoding/hex: odd length hex string".

Definition InvalidByteError (c : ascii) : error :=
  Errorf ("encoding/hex: invalid byte: " ++ Sprintf_sharpU (Z.of_N (N_of_ascii c))).

(** [hex.DecodeString]: the characters are taken in pairs and the first
    one that is no hexadecimal digit is reported, a last character left
    alone being looked at before the odd length is reported.  The bytes
    decoded before an error are dropped, no caller modelled here looks
    at them. *)
Fixpoint DecodeString (s : string) : result (list byte) :=
  match s with
  | EmptyString => Ok []
  | String a EmptyString =>
      match fromHexChar a with
      | None => Err (InvalidByteError a)
      | Some _ => Err ErrLength
      end
  | String a (String b rest) =>
      match fromHexChar a, fromHexChar b with
      | None, _ => Err (InvalidByteError a)
      | Some _, None => Err (InvalidByteError b)
      | Some x, Some y =>
          match DecodeString rest with
          | Ok r => Ok (x * 16 + y :: r)
          | Err e => Err e
          end
      end
  end.

(** [utils.HexToBytes] *)
Definition HexToBytes (hexStr : string) : result (list byte) :=
  if Nat.eqb (Nat.modulo (String.length hexStr) 2) 0
  then DecodeString hexStr
  else Err (Errorf "invalid hex string: odd length").

End Hex.

(** ** Records of package [types] *)

Record Warning : Type := { Code : string }.

(** An output of the report.  The disassembly and the OP_RETURN payload
    fields are left out: nothing below reads them. *)
Record Output : Type := {
  N : Z;
  ValueSats : Z;
  ScriptPubkeyHex : string;
  ScriptType : string;
  Address : option string
}.

Record PrevoutInput : Type := {
  Txid : string;
  Vout : Z;
  P_ValueSats : Z;
  P_ScriptPubkeyHex : string
}.

Record Fixture : Type := {
  Network : string;
  RawTx : string;
  Prevouts : list PrevoutInput
}.

(** ** Package [analyzer] *)

Module Analyzer.

Definition len (s : list byte) : Z := Z.of_nat (List.length s).

(** [s[k]]; every use below is guarded by a test of [len s]. *)
Definition idx (s : list byte) (k : nat) : byte := nth k s 0.

Definition ClassifyOutputScript (scriptPubkey : list byte) : string :=
  if len scriptPubkey =? 0 then "unknown"
  else if (len scriptPubkey =? 25)
          && (idx scriptPubkey 0 =? 0x76)
          && (idx scriptPubkey 1 =? 0xa9)
          && (idx scriptPubkey 2 =? 0x14)
          && (idx scriptPubkey 23 =? 0x88)
          && (idx scriptPubkey 24 =? 0xac) then "p2pkh"
  else if (len scriptPubkey =? 23)
          && (idx scriptPubkey 0 =? 0xa9)
          && (idx scriptPubkey 1 =? 0x14)
          && (idx scriptPubkey 22 =? 0x87) then "p2sh"
  else if (len scriptPubkey =? 22)
          && (idx scriptPubkey 0 =? 0x00)
          && (idx scriptPubkey 1 =? 0x14) then "p2wpkh"
  else if (len scriptPubkey =? 34)
          && (idx scriptPubkey 0 =? 0x00)
          && (idx scriptPubkey 1 =? 0x20) then "p2wsh"
  else if (len scriptPubkey =? 34)
          && (idx scriptPubkey 0 =? 0x51)
          && (idx scriptPubkey 1 =? 0x20) then "p2tr"
  else if (len scriptPubkey >? 0) && (idx scriptPubkey 0 =? 0x6a) then "op_return"
  else "unknown".

Definition GetLocktimeType (locktime : Z) : string :=
  if locktime =? 0 then "none"
  else if locktime <? 500000000 then "block_height"
  else "unix_timestamp".

Definition IsRBFSignaling (sequences : list Z) : bool :=
  existsb (fun seq => seq <? 0xfffffffe) sequences.

(** [scriptPubkey[lo:hi]] *)
Definition slice (s : list byte) (lo hi : nat) : list byte :=
  firstn (hi - lo) (skipn lo s).

End Analyzer.

(** ** Floating point *)

(** The [float64] operations the analyzer uses, as an interface. *)
Class Float64 : Type := {
  float64 : Type;
  float64_of_int : Z -> float64;
  fdiv : float64 -> float64 -> float64;
  fmul : float64 -> float64 -> float64;
  fsub : float64 -> float64 -> float64;
  math_Round : float64 -> float64;
  fgt : float64 -> float64 -> bool
}.

Section Warnings.
Context {FL : Float64}.

Definition append_if (c : bool) (code : string) (warnings : list Warning)
  : list Warning :=
  if c then warnings ++ [{| Code := code |}] else warnings.

Definition is_dust (out : Output) : bool :=
  negb (String.eqb (ScriptType out) "op_return") && (ValueSats out <? 546).

Definition is_unknown (out : Output) : bool :=
  String.eqb (ScriptType out) "unknown".

Definition GenerateWarnings (feeSats : Z) (feeRate : float64)
    (rbfSignaling : bool) (outputs : list Output) : list Warning :=
  let warnings := [] in
  let warnings :=
    append_if ((feeSats >? 1000000) || fgt feeRate (float64_of_int 200))
              "HIGH_FEE" warnings in
  let warnings := append_if (existsb is_dust outputs) "DUST_OUTPUT" warnings in
  let warnings :=
    append_if (existsb is_unknown outputs) "UNKNOWN_OUTPUT_SCRIPT" warnings in
  let warnings := append_if rbfSignaling "RBF_SIGNALING" warnings in
  warnings.

End Warnings.

(** ** Address encoding ([btcutil], [chaincfg]) *)

Class Btcutil : Type := {
  Params : Type;
  MainNetParams : Params;
  TestNet3Params : Params;
  BtcAddress : Type;
  NewAddressPubKeyHash : list byte -> Params -> result BtcAddress;
  NewAddressScriptHash : list byte -> Params -> result BtcAddress;
  NewAddressWitnessPubKeyHash : list byte -> Params -> result BtcAddress;
  NewAddressWitnessScriptHash : list byte -> Params -> result BtcAddress;
  NewAddressTaproot : list byte -> Params -> result BtcAddress;
  EncodeAddress : BtcAddress -> string
}.

Section AddressOf.
Context {BU : Btcutil}.
Import Analyzer.

(** The tail of [GetAddressFromScript]: [nil] on an error of the
    constructor, the encoded address otherwise. *)
Definition encode_or_nil (r : result BtcAddress) : option string :=
  match r with
  | Err _ => None
  | Ok addr => Some (EncodeAddress addr)
  end.

Definition netParams_of (network : string) : Params :=
  if String.eqb network "mainnet" then MainNetParams else TestNet3Params.

Definition GetAddressFromScript (scriptPubkey : list byte) (network : string)
  : option string :=
  let scriptType := ClassifyOutputScript scriptPubkey in
  let netParams := netParams_of network in
  if String.eqb scriptType "p2pkh" then
    if negb (len scriptPubkey =? 25) then None
    else encode_or_nil (NewAddressPubKeyHash (slice scriptPubkey 3 23) netParams)
  else if String.eqb scriptType "p2sh" then
    if negb (len scriptPubkey =? 23) then None
    else encode_or_nil (NewAddressScriptHash (slice scriptPubkey 2 22) netParams)
  else if String.eqb scriptType "p2wpkh" then
    if negb (len scriptPubkey =? 22) then None
    else encode_or_nil
           (NewAddressWitnessPubKeyHash (slice scriptPubkey 2 22) netParams)
  else if String.eqb scriptType "p2wsh" then
    if negb (len scriptPubkey =? 34) then None
    else encode_or_nil
           (NewAddressWitnessScriptHash (slice scriptPubkey 2 34) netParams)
  else if String.eqb scriptType "p2tr" then
    if negb (len scriptPubkey =? 34) then None
    else encode_or_nil (NewAddressTaproot (slice scriptPubkey 2 34) netParams)
  else None.

End AddressOf.

(** ** Wire types ([btcd/wire], [chainhash], [btcec]) *)

Definition Hash := list byte.

Record OutPoint : Type := { op_Hash : Hash; op_Index : Z }.

Record TxIn : Type := {
  PreviousOutPoint : OutPoint;
  SignatureScript : list byte;
  Witness : list (list byte);
  Sequence : Z
}.

Record TxOut : Type := { Value : Z; PkScript : list byte }.

Record MsgTx : Type := {
  tx_Version : Z;
  tx_TxIn : list TxIn;
  tx_TxOut : list TxOut;
  tx_LockTime : Z
}.

(** What the analyzer calls in btcd: the transaction codec, the double
    SHA-256 and the decompression of a public key
    ([btcec.ParsePubKey] followed by [SerializeUncompressed]). *)
Class Btcd : Type := {
  MsgTx_Deserialize : Rd MsgTx;
  MsgTx_Serialize : MsgTx -> list byte;
  MsgTx_SerializeNoWitness : MsgTx -> list byte;
  DoubleHashH : list byte -> Hash;
  btcec_uncompress : list byte -> result (list byte)
}.

(** [Hash.String()]: the bytes in reverse order, in hexadecimal. *)
Definition Hash_String (h : Hash) : string := Hex.EncodeToString (rev h).

(** Arithmetic on Go's [int] and [int64]. *)
Definition int_add (a b : Z) : Z := to_int64 (a + b).
Definition int_sub (a b : Z) : Z := to_int64 (a - b).
Definition int_mul (a b : Z) : Z := to_int64 (a * b).
Definition int_div (a b : Z) : Z := to_int64 (Z.quot a b).

(** ** Package [parser]: transactions *)

Record SegwitSavings : Type := {
  WitnessBytes : Z;
  NonWitnessBytes : Z;
  TotalBytes : Z;
  WeightActual : Z;
  WeightIfLegacy : Z
}.

(** An input of the report, without its script analysis. *)
Record Input : Type := {
  In_Txid : string;
  In_Vout : Z;
  In_Sequence : Z;
  In_ScriptSigHex : string;
  In_Witness : list string;
  In_PrevoutValueSats : Z;
  In_PrevoutScriptPubkeyHex : string
}.

Section Transactions.
Context {FL : Float64} {BU : Btcutil} {BD : Btcd}.

Record TransactionOutput : Type := {
  OK : bool;
  T_Network : string;
  Segwit : bool;
  T_Txid : string;
  Wtxid : option string;
  T_Version : Z;
  Locktime : Z;
  SizeBytes : Z;
  Weight : Z;
  Vbytes : Z;
  FeeSats : Z;
  FeeRateSatVb : float64;
  TotalInputSats : Z;
  TotalOutputSats : Z;
  RbfSignaling : bool;
  LocktimeType : string;
  VinCount : Z;
  VoutCount : Z;
  VoutScriptTypes : list string;
  T_SegwitSavings : option (SegwitSavings * float64);
  Vin : list Input;
  T_Vout : list Output;
  Warnings : list Warning
}.

(** The key [fmt.Sprintf("%s:%d", txid, vout)] of the prevout map, kept
    as the pair it is printed from: the decimal digits after the last
    colon determine both parts. *)
Definition pkey : Type := (string * Z)%type.

Definition pkey_eqb (a b : pkey) : bool :=
  String.eqb (fst a) (fst b) && (snd a =? snd b).

Definition prevoutMap : Type := list (pkey * PrevoutInput).

Fixpoint map_lookup (k : pkey) (m : prevoutMap) : option PrevoutInput :=
  match m with
  | [] => None
  | (k', p) :: rest => if pkey_eqb k k' then Some p else map_lookup k rest
  end.

Fixpoint build_prevoutMap (ps : list PrevoutInput) (m : prevoutMap)
  : result prevoutMap :=
  match ps with
  | [] => Ok m
  | p :: rest =>
      let key := (Txid p, Vout p) in
      match map_lookup key m with
      | Some _ => Err (Errorf "duplicate prevout")
      | None => build_prevoutMap rest ((key, p) :: m)
      end
  end.

Definition coinbaseNullHash : string :=
  "0000000000000000000000000000000000000000000000000000000000000000".

Definition isCoinbaseInput (txIn : TxIn) : bool :=
  String.eqb (Hash_String (op_Hash (PreviousOutPoint txIn))) coinbaseNullHash
  && (op_Index (PreviousOutPoint txIn) =? 0xFFFFFFFF).

Definition key_of (txIn : TxIn) : pkey :=
  (Hash_String (op_Hash (PreviousOutPoint txIn)), op_Index (PreviousOutPoint txIn)).

(** The loop that requires a prevout for every input but a coinbase's. *)
Fixpoint check_prevouts (ins : list TxIn) (m : prevoutMap) : result unit :=
  match ins with
  | [] => Ok tt
  | txIn :: rest =>
      if isCoinbaseInput txIn then check_prevouts rest m
      else match map_lookup (key_of txIn) m with
           | None =>
               Err (Errorf ("missing prevout for input " ++ fst (key_of txIn)
                            ++ ":" ++ Sprintf_d (snd (key_of txIn))))
           | Some _ => check_prevouts rest m
           end
  end.

(** [tx.HasWitness()] *)
Definition HasWitness (tx : MsgTx) : bool :=
  existsb (fun txIn => negb (Nat.eqb (List.length (Witness txIn)) 0)) (tx_TxIn tx).

Definition TxHash (tx : MsgTx) : Hash := DoubleHashH (MsgTx_SerializeNoWitness tx).

Definition WitnessHash (tx : MsgTx) : Hash :=
  if HasWitness tx then DoubleHashH (MsgTx_Serialize tx) else TxHash tx.

(** Modelled from the spec: [SerializeSize] and [SerializeSizeStripped]
    of btcd, which give the length of the full serialization and of the
    serialization without witness data. *)
Definition SerializeSize (tx : MsgTx) : Z :=
  Z.of_nat (List.length (MsgTx_Serialize tx)).

Definition SerializeSizeStripped (tx : MsgTx) : Z :=
  Z.of_nat (List.length (MsgTx_SerializeNoWitness tx)).

Definition zero_prevout : PrevoutInput :=
  {| Txid := ""; Vout := 0; P_ValueSats := 0; P_ScriptPubkeyHex := "" |}.

Definition prevout_of (m : prevoutMap) (txIn : TxIn) : PrevoutInput :=
  if isCoinbaseInput txIn then zero_prevout
  else match map_lookup (key_of txIn) m with
       | Some p => p
       | None => zero_prevout
       end.

Definition make_input (m : prevoutMap) (txIn : TxIn) : Input :=
  let prevout := prevout_of m txIn in
  {| In_Txid := Hash_String (op_Hash (PreviousOutPoint txIn));
     In_Vout := op_Index (PreviousOutPoint txIn);
     In_Sequence := Sequence txIn;
     In_ScriptSigHex := Hex.EncodeToString (SignatureScript txIn);
     In_Witness := map Hex.EncodeToString (Witness txIn);
     In_PrevoutValueSats := P_ValueSats prevout;
     In_PrevoutScriptPubkeyHex := P_ScriptPubkeyHex prevout |}.

(** [totalInputSats] after the input loop. *)
Definition sum_inputs (m : prevoutMap) (ins : list TxIn) : Z :=
  fold_left (fun acc txIn => int_add acc (P_ValueSats (prevout_of m txIn))) ins 0.

Definition sum_outputs (outs : list TxOut) : Z :=
  fold_left (fun acc txOut => int_add acc (Value txOut)) outs 0.

Definition make_output (network : string) (i : Z) (txOut : TxOut) : Output :=
  {| N := i;
     ValueSats := Value txOut;
     ScriptPubkeyHex := Hex.EncodeToString (PkScript txOut);
     ScriptType := Analyzer.ClassifyOutputScript (PkScript txOut);
     Address := GetAddressFromScript (PkScript txOut) network |}.

Fixpoint make_outputs (network : string) (i : Z) (outs : list TxOut)
  : list Output :=
  match outs with
  | [] => []
  | txOut :: rest => make_output network i txOut :: make_outputs network (i + 1) rest
  end.

Definition round2 (x : float64) : float64 :=
  fdiv (math_Round (fmul x (float64_of_int 100))) (float64_of_int 100).

(** The report of [ParseTransaction]: everything from the detection of
    SegWit to the [return]. *)
Definition tx_report (network : string) (m : prevoutMap) (tx : MsgTx)
  : TransactionOutput :=
  let isSegwit := HasWitness tx in
  let txid := Hash_String (TxHash tx) in
  let wtxid := if isSegwit then Some (Hash_String (WitnessHash tx)) else None in
  let sizeBytes := SerializeSize tx in
  let baseSize := SerializeSizeStripped tx in
  let totalSize := sizeBytes in
  let weight := int_add (int_mul baseSize 3) totalSize in
  let vbytes := int_div (int_add weight 3) 4 in
  let inputs := map (make_input m) (tx_TxIn tx) in
  let totalInputSats := sum_inputs m (tx_TxIn tx) in
  let sequences := map Sequence (tx_TxIn tx) in
  let outputs := make_outputs network 0 (tx_TxOut tx) in
  let totalOutputSats := sum_outputs (tx_TxOut tx) in
  let feeSats := int_sub totalInputSats totalOutputSats in
  let rawFeeRate := fdiv (float64_of_int feeSats) (float64_of_int vbytes) in
  let feeRate := round2 rawFeeRate in
  let locktimeType := Analyzer.GetLocktimeType (tx_LockTime tx) in
  let rbfSignaling := Analyzer.IsRBFSignaling sequences in
  let segwitSavings :=
    if isSegwit then
      let witnessBytes := int_sub totalSize baseSize in
      let weightIfLegacy := int_mul totalSize 4 in
      let savingsPct :=
        fmul (fsub (float64_of_int 1)
                   (fdiv (float64_of_int weight) (float64_of_int weightIfLegacy)))
             (float64_of_int 100) in
      Some ({| WitnessBytes := witnessBytes;
               NonWitnessBytes := baseSize;
               TotalBytes := totalSize;
               WeightActual := weight;
               WeightIfLegacy := weightIfLegacy |}, round2 savingsPct)
    else None in
  let voutScriptTypes := map ScriptType outputs in
  let warnings := GenerateWarnings feeSats feeRate rbfSignaling outputs in
  {| OK := true;
     T_Network := network;
     Segwit := isSegwit;
     T_Txid := txid;
     Wtxid := wtxid;
     T_Version := tx_Version tx;
     Locktime := tx_LockTime tx;
     SizeBytes := sizeBytes;
     Weight := weight;
     Vbytes := vbytes;
     FeeSats := feeSats;
     FeeRateSatVb := feeRate;
     TotalInputSats := totalInputSats;
     TotalOutputSats := totalOutputSats;
     RbfSignaling := rbfSignaling;
     LocktimeType := locktimeType;
     VinCount := Z.of_nat (List.length inputs);
     VoutCount := Z.of_nat (List.length outputs);
     VoutScriptTypes := voutScriptTypes;
     T_SegwitSavings := segwitSavings;
     Vin := inputs;
     T_Vout := outputs;
     Warnings := warnings |}.

(** [ParseTransaction] once the raw bytes are deserialized: the prevout
    map, the check of the inputs, the report. *)
Definition analyze_tx (network : string) (prevouts : list PrevoutInput)
    (tx : MsgTx) : result TransactionOutput :=
  match build_prevoutMap prevouts [] with
  | Err e => Err e
  | Ok m =>
      match check_prevouts (tx_TxIn tx) m with
      | Err e => Err e
      | Ok _ => Ok (tx_report network m tx)
      end
  end.

Definition ParseTransaction (fixture : Fixture) : result TransactionOutput :=
  match Hex.HexToBytes (RawTx fixture) with
  | Err e => Err (Wrapf "invalid raw_tx hex" e)
  | Ok rawTxBytes =>
      match MsgTx_Deserialize rawTxBytes with
      | Err e => Err (Wrapf "failed to deserialize transaction" e)
      | Ok (tx, _) => analyze_tx (Network fixture) (Prevouts fixture) tx
      end
  end.

(** [analyzeTransaction] *)
Definition analyzeTransaction (tx : MsgTx) (fixture : Fixture) (isCoinbase : bool)
  : result TransactionOutput :=
  let fixture := {| Network := Network fixture;
                    RawTx := Hex.EncodeToString (MsgTx_Serialize tx);
                    Prevouts := if isCoinbase then [] else Prevouts fixture |} in
  ParseTransaction fixture.

End Transactions.

(** ** Package [parser]: blocks and undo files *)

(** A [bytes.Reader]: the buffer and the read offset. *)
Record Reader : Type := { buf : list byte; off : Z }.

(** The bytes from the offset on; none once the offset is at or past the
    end of the buffer. *)
Definition remaining (r : Reader) : list byte :=
  if Z.of_nat (List.length (buf r)) <=? off r then []
  else skipn (Z.to_nat (off r)) (buf r).

(** A read through the [io.Reader] interface of a [bytes.Reader]: the
    offset moves by the number of bytes consumed. *)
Definition rs_read {A} (m : Rd A) (r : Reader) : result (A * Reader) :=
  let s := remaining r in
  match m s with
  | Ok (a, s') =>
      Ok (a, {| buf := buf r;
                off := off r + (Z.of_nat (List.length s) - Z.of_nat (List.length s')) |})
  | Err e => Err e
  end.

(** [for i := start; ...; i++ { a, err := m(i); ...; list = append(list, a) }],
    [n] turns. *)
Fixpoint repeat_rd_from {A} (i : Z) (n : nat) (m : Z -> Rd A) : Rd (list A) :=
  match n with
  | O => ret []
  | S k => (a <- m i ;; rest <- repeat_rd_from (i + 1) k m ;; ret (a :: rest))%rd
  end.

(** [n] runs of [m], the results in order. *)
Definition repeat_rd {A} (n : nat) (m : Rd A) : Rd (list A) :=
  repeat_rd_from 0 n (fun _ => m).

Record BlockHeader : Type := {
  BH_Version : Z;
  PrevBlockHash : string;
  MerkleRoot : string;
  MerkleRootValid : bool;
  Timestamp : Z;
  Bits : string;
  Nonce : Z;
  BlockHash : string
}.

Record ErrorInfo : Type := { E_Code : string; Message : string }.

Record CoinbaseInfo : Type := {
  Bip34Height : Z;
  CoinbaseScriptHex : string;
  CB_TotalOutputSats : Z
}.

(** The header as btcd holds it, with the 80 bytes it was read from. *)
Record WireBlockHeader : Type := {
  h_Version : Z;
  h_PrevBlock : Hash;
  h_MerkleRoot : Hash;
  h_Timestamp : Z;
  h_Bits : Z;
  h_Nonce : Z;
  h_raw : list byte
}.

Fixpoint error_string (e : error) : string :=
  match e with
  | io_EOF => "EOF"
  | io_ErrUnexpectedEOF => "unexpected EOF"
  | Errorf msg => msg
  | Wrapf msg cause => msg ++ ": " ++ error_string cause
  | Panic msg => msg
  end.

(** ** The Go runtime *)

(** The largest length that [make([]byte, n)] accepts: [maxAlloc] of the
    Go runtime, [1 << 48] on the 64-bit platforms.  A length above it, or
    one that is negative as an [int], makes [make] panic. *)
Definition maxAlloc : Z := 2 ^ 48.

(** The memory of the machine: the longest slice that the system grants
    to the runtime.  For a longer one within [maxAlloc] the runtime ends
    the program with a fatal error. *)
Class Runtime : Type := {
  memory_limit : Z
}.

(** [make([]byte, n)] for a [uint64] [n]: what ends the program, if
    the slice is not made. *)
Definition make_bytes {RT : Runtime} (n : Z) : option error :=
  if n >? maxAlloc then Some (Panic "runtime error: makeslice: len out of range")
  else if n >? memory_limit then Some (Panic "fatal error: runtime: out of memory")
  else None.

Module Parser.
Import Utils Analyzer.

(** Modelled from the spec: [wire.BlockHeader.Deserialize] of btcd, which
    reads 80 bytes as version, previous hash, Merkle root, timestamp,
    bits and nonce. *)
Definition BlockHeader_Deserialize : Rd WireBlockHeader :=
  (raw <- ReadFull 80 ;;
   ret {| h_Version :=
            (let v := le_decode (slice raw 0 4) in
             if v <? 2 ^ 31 then v else v - 2 ^ 32);
          h_PrevBlock := slice raw 4 36;
          h_MerkleRoot := slice raw 36 68;
          h_Timestamp := le_decode (slice raw 68 72);
          h_Bits := le_decode (slice raw 72 76);
          h_Nonce := le_decode (slice raw 76 80);
          h_raw := raw |})%rd.

(** [fmt.Sprintf("%08x", bits)] for a [uint32]. *)
Definition Bits_string (bits : Z) : string :=
  Hex.EncodeToString
    [ (bits / 2 ^ 24) mod 256; (bits / 2 ^ 16) mod 256;
      (bits / 2 ^ 8) mod 256; bits mod 256 ].

Definition extractBIP34Height (scriptSig : list byte) : Z :=
  if len scriptSig <? 2 then 0
  else
    let pushLen := idx scriptSig 0 in
    if (pushLen <? 1) || (pushLen >? 8) || (1 + pushLen >? len scriptSig) then 0
    else
      let heightBytes := firstn (Z.to_nat pushLen) (skipn 1 scriptSig) in
      snd (fold_left
             (fun '(i, height) b =>
                (i + 1, Z.lor height (to_int64 (Z.shiftl b (8 * i)))))
             heightBytes (0, 0)).

Section Blocks.
Context {FL : Float64} {BU : Btcutil} {BD : Btcd} {RT : Runtime}.

(** One level of the tree: the body of the [for i := 0; ...; i += 2]
    loop of [computeMerkleRoot]. *)
Fixpoint merkle_level (txHashes : list Hash) : list Hash :=
  match txHashes with
  | [] => []
  | [left_] => [DoubleHashH (left_ ++ left_)]
  | left_ :: right_ :: rest => DoubleHashH (left_ ++ right_) :: merkle_level rest
  end.

Lemma merkle_level_length (hs : list Hash) :
  (List.length (merkle_level hs) <= List.length hs)%nat.
Proof.
  induction hs as [hs IH] using (well_founded_induction
                                   (Wf_nat.well_founded_ltof _ (@List.length Hash))).
  destruct hs as [|a [|b rest]]; simpl; try lia.
  assert (List.length (merkle_level rest) <= List.length rest)%nat.
  { apply IH. unfold Wf_nat.ltof. simpl. lia. }
  lia.
Qed.

Definition zero_hash : Hash := repeat 0 32.

Equations? computeMerkleRoot (txHashes : list Hash) : Hash
  by wf (List.length txHashes) lt :=
computeMerkleRoot [] := zero_hash;
computeMerkleRoot [h] := h;
computeMerkleRoot (l :: r :: rest) := computeMerkleRoot (merkle_level (l :: r :: rest)).
Proof.
  simpl. pose proof (merkle_level_length rest). lia.
Qed.

(** [readUndoPrevout]; the script cases are tried in the order of the
    [switch]. *)
Definition readUndoPrevout : Rd PrevoutInput :=
  (nCode <- wrap_err "readUndoPrevout nCode" ReadBitcoinVarInt ;;
   let nHeight := Z.shiftr nCode 1 in
   (if nHeight >? 0
    then wrap_err "readUndoPrevout nVersionDummy" ReadBitcoinVarInt
    else ret 0) ;;;
   compressedAmount <- wrap_err "readUndoPrevout amount" ReadBitcoinVarInt ;;
   let valueSats := DecompressAmount compressedAmount in
   nSize <- wrap_err "readUndoPrevout nSize" ReadBitcoinVarInt ;;
   scriptPubkey <-
     (if nSize =? 0 then
        hash <- wrap_err "readUndoPrevout P2PKH hash" (ReadFull 20) ;;
        ret ([0x76; 0xa9; 0x14] ++ hash ++ [0x88; 0xac])
      else if nSize =? 1 then
        hash <- wrap_err "readUndoPrevout P2SH hash" (ReadFull 20) ;;
        ret ([0xa9; 0x14] ++ hash ++ [0x87])
      else if (nSize =? 2) || (nSize =? 3) then
        x <- wrap_err "readUndoPrevout P2PK compressed" (ReadFull 32) ;;
        ret ([0x21] ++ (nSize :: x) ++ [0xac])
      else if (nSize =? 4) || (nSize =? 5) then
        xcoord <- wrap_err "readUndoPrevout P2PK uncompressed" (ReadFull 32) ;;
        let compressedKey := (nSize - 2) :: xcoord in
        match btcec_uncompress compressedKey with
        | Err _ => ret ([0x21] ++ compressedKey ++ [0xac])
        | Ok uncompressed => ret ([0x41] ++ uncompressed ++ [0xac])
        end
      else
        let scriptLen := wrap64 (nSize - 6) in
        match make_bytes scriptLen with
        | Some stop => fail stop
        | None =>
            wrap_err ("readUndoPrevout raw script (len=" ++ Sprintf_d scriptLen ++ ")")
                     (ReadFull scriptLen)
        end) ;;
   ret {| Txid := "";
          Vout := 0;
          P_ValueSats := valueSats;
          P_ScriptPubkeyHex := Hex.EncodeToString scriptPubkey |})%rd.

(** The body of a matching record: for each transaction [i] its input
    count and that many spent outputs. *)
Definition read_tx_undo (i : Z) : Rd (list PrevoutInput) :=
  (inputCount <-
     wrap_err ("parseUndoFile: tx " ++ Sprintf_d i ++ ": failed to read input count")
              ReadCompactSize ;;
   repeat_rd_from 0 (Z.to_nat inputCount)
     (fun j =>
        wrap_err ("parseUndoFile: tx " ++ Sprintf_d i ++ " input " ++ Sprintf_d j)
                 readUndoPrevout))%rd.

Definition read_block_undo (txUndoCount : Z) : Rd (list (list PrevoutInput)) :=
  repeat_rd_from 0 (Z.to_nat txUndoCount) read_tx_undo.

(** [uint32(header[4]) | uint32(header[5])<<8 | uint32(header[6])<<16 |
    uint32(header[7])<<24] *)
Definition undoSize_of (header : list byte) : Z :=
  wrap32 (Z.lor (Z.lor (Z.lor (idx header 4) (Z.shiftl (idx header 5) 8))
                       (Z.shiftl (idx header 6) 16))
                (Z.shiftl (idx header 7) 24)).

(** One turn of the [for] loop of [parseUndoFile]: it returns, or it
    seeks to the next record and goes round again. *)
Inductive undo_step : Type :=
| Return (res : result (list (list PrevoutInput)))
| Continue (nextRecord : Z).

Definition parseUndoFile_step (wantCount : Z) (r : Reader) : undo_step :=
  let recordStart := off r in
  match rs_read (ReadFull 8) r with
  | Err io_EOF | Err io_ErrUnexpectedEOF =>
      Return (Err (Errorf "parseUndoFile: no matching undo record found in rev file"))
  | Err e =>
      Return (Err (Wrapf "parseUndoFile: failed to read 8-byte magic+size header" e))
  | Ok (header, r1) =>
      let undoSize := undoSize_of header in
      match rs_read ReadCompactSize r1 with
      | Err e => Return (Err (Wrapf "parseUndoFile: failed to read tx undo count" e))
      | Ok (txUndoCount, r2) =>
          if negb (txUndoCount =? wantCount) then
            let nextRecord := recordStart + 8 + undoSize + 32 in
            if nextRecord <? 0 then
              Return (Err (Wrapf "parseUndoFile: failed to skip mismatched undo record"
                                 (Errorf "bytes.Reader.Seek: negative position")))
            else Continue nextRecord
          else
            match rs_read (read_block_undo txUndoCount) r2 with
            | Err e => Return (Err e)
            | Ok (allPrevouts, _) => Return (Ok allPrevouts)
            end
      end
  end.

(** A header that was read lies inside the buffer; the reader is then
    8 bytes further. *)
Lemma rs_read_header (r : Reader) (header : list byte) (r1 : Reader) :
  rs_read (ReadFull 8) r = Ok (header, r1) ->
  off r < Z.of_nat (List.length (buf r))
  /\ header = firstn 8 (remaining r)
  /\ r1 = {| buf := buf r; off := off r + 8 |}.
Proof.
  unfold rs_read.
  destruct (ReadFull 8 (remaining r)) as [[h s']|e] eqn:HR; [|discriminate].
  intro H. injection H as Hh Hr. subst header r1.
  unfold ReadFull in HR. change (8 <=? 0) with false in HR. cbv iota in HR.
  destruct (remaining r) as [|b s] eqn:Hrem; [discriminate|].
  assert (Hoff : off r < Z.of_nat (List.length (buf r))).
  { unfold remaining in Hrem.
    destruct (Z.of_nat (List.length (buf r)) <=? off r) eqn:E; [discriminate|].
    apply Z.leb_gt in E. exact E. }
  destruct (Z.of_nat (List.length (b :: s)) <? 8) eqn:Hlen; [discriminate|].
  apply Z.ltb_ge in Hlen.
  assert (Hh : firstn (Z.to_nat 8) (b :: s) = h) by congruence.
  assert (Hs : skipn (Z.to_nat 8) (b :: s) = s') by congruence.
  clear HR. change (Z.to_nat 8) with 8%nat in *.
  repeat split; try assumption; [symmetry; exact Hh|].
  f_equal. rewrite <- Hs, length_skipn. lia.
Qed.

(** A turn that goes round again has read a header, so the offset was
    inside the buffer, and the next record starts after it. *)
Lemma parseUndoFile_step_Continue (wantCount : Z) (r : Reader) (next : Z) :
  parseUndoFile_step wantCount r = Continue next ->
  off r < Z.of_nat (List.length (buf r))
  /\ next = off r + 8 + undoSize_of (firstn 8 (remaining r)) + 32
  /\ off r < next.
Proof.
  unfold parseUndoFile_step.
  assert (Hsz : forall h, 0 <= undoSize_of h)
    by (intro h; unfold undoSize_of, wrap32; apply Z.mod_pos_bound; lia).
  destruct (rs_read (ReadFull 8) r) as [[header r1]|e] eqn:H1;
    [|destruct e; discriminate].
  apply rs_read_header in H1. destruct H1 as (Hoff & -> & ->).
  destruct (rs_read ReadCompactSize _) as [[c r2]|e]; [|discriminate].
  destruct (negb (c =? wantCount)).
  - cbv zeta. specialize (Hsz (firstn 8 (remaining r))).
    remember (undoSize_of (firstn 8 (remaining r))) as sz.
    destruct (_ <? 0); [discriminate|].
    intro H. assert (next = off r + 8 + sz + 32) by congruence.
    repeat split; lia.
  - destruct (rs_read _ r2) as [[a r3]|e]; discriminate.
Qed.

Definition inspect {A} (a : A) : {b : A | a = b} := exist _ a eq_refl.

Equations? parseUndoFile_loop (wantCount : Z) (r : Reader)
  : result (list (list PrevoutInput))
  by wf (Z.to_nat (Z.of_nat (List.length (buf r)) - off r)) lt :=
parseUndoFile_loop wantCount r with inspect (parseUndoFile_step wantCount r) := {
  | exist _ (Return res) _ => res
  | exist _ (Continue nextRecord) Hstep =>
      parseUndoFile_loop wantCount {| buf := buf r; off := nextRecord |} }.
Proof.
  apply parseUndoFile_step_Continue in Hstep. cbn [buf off]. lia.
Qed.

Definition parseUndoFile (r : Reader) (transactions : list MsgTx)
  : result (list (list PrevoutInput)) :=
  let wantCount := wrap64 (Z.of_nat (List.length transactions) - 1) in
  parseUndoFile_loop wantCount r.

Record BlockStats : Type := {
  TotalFeesSats : Z;
  TotalWeight : Z;
  AvgFeeRateSatVb : float64;
  ScriptTypeSummary : list (string * Z)
}.

Record BlockOutput : Type := {
  B_OK : bool;
  Mode : string;
  B_BlockHeader : BlockHeader;
  TxCount : Z;
  Coinbase : CoinbaseInfo;
  Transactions : list TransactionOutput;
  B_BlockStats : BlockStats;
  B_Error : option ErrorInfo
}.

(** The zero values of Go for the fields a failed block leaves unset. *)
Definition header_only (blockHash : string) : BlockHeader :=
  {| BH_Version := 0; PrevBlockHash := ""; MerkleRoot := "";
     MerkleRootValid := false; Timestamp := 0; Bits := ""; Nonce := 0;
     BlockHash := blockHash |}.

Definition failed_block (blockHash code message : string) : BlockOutput :=
  {| B_OK := false;
     Mode := "block";
     B_BlockHeader := header_only blockHash;
     TxCount := 0;
     Coinbase := {| Bip34Height := 0; CoinbaseScriptHex := ""; CB_TotalOutputSats := 0 |};
     Transactions := [];
     B_BlockStats := {| TotalFeesSats := 0; TotalWeight := 0;
                        AvgFeeRateSatVb := float64_of_int 0;
                        ScriptTypeSummary := [] |};
     B_Error := Some {| E_Code := code; Message := message |} |}.

(** [scriptTypeCounts[t]++] *)
Fixpoint count_incr (t : string) (m : list (string * Z)) : list (string * Z) :=
  match m with
  | [] => [(t, 1)]
  | (k, n) :: rest =>
      if String.eqb k t then (k, int_add n 1) :: rest
      else (k, n) :: count_incr t rest
  end.

(** The prevouts of transaction [i > 0]: entry [j] of undo list [i-1],
    with the outpoint of input [j]. *)
Fixpoint collect_prevouts (prevouts : list (list PrevoutInput)) (i : nat)
    (j : nat) (ins : list TxIn) : result (list PrevoutInput) :=
  match ins with
  | [] => Ok []
  | txIn :: rest =>
      match nth_error prevouts (i - 1) with
      | None => Err (Panic "index out of range")
      | Some undo =>
          match nth_error undo j with
          | None => Err (Panic "index out of range")
          | Some p =>
              match collect_prevouts prevouts i (S j) rest with
              | Err e => Err e
              | Ok ps =>
                  Ok ({| Txid := Hash_String (op_Hash (PreviousOutPoint txIn));
                         Vout := op_Index (PreviousOutPoint txIn);
                         P_ValueSats := P_ValueSats p;
                         P_ScriptPubkeyHex := P_ScriptPubkeyHex p |} :: ps)
              end
          end
      end
  end.

(** What the transaction loop of [parseOneBlock] carries. *)
Record block_acc : Type := {
  txOutputs : list TransactionOutput;
  totalFees : Z;
  totalWeight : Z;
  scriptTypeCounts : list (string * Z)
}.

Fixpoint analyze_all (prevouts : list (list PrevoutInput)) (i : nat)
    (txs : list MsgTx) (acc : block_acc) : result block_acc :=
  match txs with
  | [] => Ok acc
  | tx :: rest =>
      match (if Nat.ltb 0 i then collect_prevouts prevouts i 0 (tx_TxIn tx)
             else Ok []) with
      | Err e => Err e
      | Ok prevoutInputs =>
          let fixture := {| Network := "mainnet"; RawTx := "";
                            Prevouts := prevoutInputs |} in
          match analyzeTransaction tx fixture (Nat.eqb i 0) with
          | Err e => Err (Wrapf ("failed to analyze tx " ++ Sprintf_d (Z.of_nat i)) e)
          | Ok txOutput =>
              analyze_all prevouts (S i) rest
                {| txOutputs := txOutputs acc ++ [txOutput];
                   totalFees := if Nat.ltb 0 i
                                then int_add (totalFees acc) (FeeSats txOutput)
                                else totalFees acc;
                   totalWeight := int_add (totalWeight acc) (Weight txOutput);
                   scriptTypeCounts :=
                     fold_left (fun m out => count_incr (ScriptType out) m)
                               (T_Vout txOutput) (scriptTypeCounts acc) |}
          end
      end
  end.

(** [parseOneBlock] up to the transactions: the framing, the header, the
    count and that many transactions. *)
Definition read_block : Rd (WireBlockHeader * Z * list MsgTx) :=
  (ReadFull 4 ;;;
   wrap_err "failed to read block size" (ReadFull 4) ;;;
   header <- wrap_err "failed to parse block header" BlockHeader_Deserialize ;;
   txCount <- wrap_err "failed to read tx count" ReadCompactSize ;;
   transactions <-
     repeat_rd_from 0 (Z.to_nat txCount)
       (fun i => wrap_err ("failed to parse tx " ++ Sprintf_d i) MsgTx_Deserialize) ;;
   ret (header, txCount, transactions))%rd.

(** [header.BlockHash().String()] *)
Definition BlockHash_of (header : WireBlockHeader) : string :=
  Hash_String (DoubleHashH (h_raw header)).

Definition list_eqb (a b : list byte) : bool :=
  if list_eq_dec Z.eq_dec a b then true else false.

(** [parseOneBlock] from the Merkle check on.  An error that the undo
    decoder returns is reported in the record; a panic of the decoder is
    no error value and ends the analysis. *)
Definition check_block (header : WireBlockHeader) (txCount : Z)
    (transactions : list MsgTx) (revReader : Reader) : result BlockOutput :=
  let blockHash := BlockHash_of header in
  let txHashes := map TxHash transactions in
  let computedMerkleRoot := computeMerkleRoot txHashes in
  let merkleRootValid := list_eqb computedMerkleRoot (h_MerkleRoot header) in
  if negb merkleRootValid then
    Ok (failed_block blockHash "INVALID_MERKLE_ROOT"
          ("computed merkle root does not match header (block " ++ blockHash ++ ")"))
  else
    match parseUndoFile revReader transactions with
    | Err (Panic msg) => Err (Panic msg)
    | Err err =>
        Ok (failed_block blockHash "INVALID_UNDO_DATA"
              ("failed to parse undo data: " ++ error_string err))
    | Ok prevouts =>
        match transactions with
        | [] => Err (Panic "index out of range")
        | coinbaseTx :: _ =>
            match tx_TxIn coinbaseTx with
            | [] => Err (Panic "index out of range")
            | cbIn :: _ =>
                let bip34Height := extractBIP34Height (SignatureScript cbIn) in
                let coinbaseOutputTotal := sum_outputs (tx_TxOut coinbaseTx) in
                match analyze_all prevouts 0 transactions
                        {| txOutputs := []; totalFees := 0; totalWeight := 0;
                           scriptTypeCounts := [] |} with
                | Err e => Err e
                | Ok acc =>
                    let avgFeeRate :=
                      if totalWeight acc >? 0 then
                        let totalVbytes := int_div (int_add (totalWeight acc) 3) 4 in
                        fdiv (float64_of_int (totalFees acc)) (float64_of_int totalVbytes)
                      else float64_of_int 0 in
                    Ok {| B_OK := true;
                          Mode := "block";
                          B_BlockHeader :=
                            {| BH_Version := h_Version header;
                               PrevBlockHash := Hash_String (h_PrevBlock header);
                               MerkleRoot := Hash_String (h_MerkleRoot header);
                               MerkleRootValid := merkleRootValid;
                               Timestamp := h_Timestamp header;
                               Bits := Bits_string (h_Bits header);
                               Nonce := h_Nonce header;
                               BlockHash := blockHash |};
                          TxCount := to_int64 txCount;
                          Coinbase :=
                            {| Bip34Height := bip34Height;
                               CoinbaseScriptHex :=
                                 Hex.EncodeToString (SignatureScript cbIn);
                               CB_TotalOutputSats := coinbaseOutputTotal |};
                          Transactions := txOutputs acc;
                          B_BlockStats :=
                            {| TotalFeesSats := totalFees acc;
                               TotalWeight := totalWeight acc;
                               AvgFeeRateSatVb := avgFeeRate;
                               ScriptTypeSummary := scriptTypeCounts acc |};
                          B_Error := None |}
                end
            end
        end
    end.

Definition parseOneBlock (blkReader : list byte) (revReader : Reader)
  : result BlockOutput :=
  match read_block blkReader with
  | Err e => Err e
  | Ok ((header, txCount, transactions), _) =>
      check_block header txCount transactions revReader
  end.

(** [ParseBlock] on the contents of the three files. *)
Definition ParseBlock (blkData revData xorKey : list byte)
  : result (list BlockOutput) :=
  let blkData := XORDecode blkData xorKey in
  let revData := XORDecode revData xorKey in
  match parseOneBlock blkData {| buf := revData; off := 0 |} with
  | Err io_EOF | Err io_ErrUnexpectedEOF =>
      Err (Errorf "block file is empty or truncated")
  | Err e => Err e
  | Ok block => Ok [block]
  end.

End Blocks.
End Parser.

(** ** Package [utils]: byte order and text *)

Module Slices.
Import Analyzer.

(** [for i := range b { reversed[i] = b[len(b)-1-i] }] *)
Definition ReverseBytes (b : list byte) : list byte :=
  map (fun i => nth (List.length b - 1 - i) b 0) (seq 0 (List.length b)).

(** [utils.IsValidUTF8]: the first byte is indexed before the length is
    looked at. *)
Definition IsValidUTF8 (data : list byte) : result bool :=
  match data with
  | [] => Err (Panic "index out of range [0] with length 0")
  | b :: _ => Ok (negb (b =? 0xef) || (len data =? 0))
  end.

End Slices.

(** ** Package [analyzer]: relative timelocks *)

Module Timelock.

(** The results are [enabled], [tlType] and [value]. *)
Definition ParseRelativeTimelock (sequence : Z) : bool * string * Z :=
  if negb (Z.land sequence (Z.shiftl 1 31) =? 0) then (false, "", 0)
  else if sequence >=? 0xfffffffe then (false, "", 0)
  else if negb (Z.land sequence (Z.shiftl 1 22) =? 0) then
    (true, "time", wrap32 (Z.land sequence 0xffff * 512))
  else (true, "blocks", Z.land sequence 0xffff).

End Timelock.

(** ** Package [analyzer]: input scripts, disassembly, OP_RETURN *)

Module Script.
Import Utils Analyzer.

(** [len(witness)] *)
Definition wlen (witness : list (list byte)) : Z := Z.of_nat (List.length witness).

Definition ClassifyInputScript (scriptSig : list byte) (witness : list (list byte))
    (prevoutScript : list byte) : string :=
  let hasWitness := wlen witness >? 0 in
  let scriptSigEmpty := len scriptSig =? 0 in
  let prevoutType := ClassifyOutputScript prevoutScript in
  if scriptSigEmpty && (wlen witness =? 1)
     && ((len (nth 0 witness []) =? 64) || (len (nth 0 witness []) =? 65))
     && String.eqb prevoutType "p2tr" then "p2tr_keypath"
  else if scriptSigEmpty && (wlen witness >? 1) && String.eqb prevoutType "p2tr"
          && (let lastItem := nth (List.length witness - 1) witness [] in
              (len lastItem >? 0) && (Z.land (idx lastItem 0) 0xfe =? 0xc0))
  then "p2tr_scriptpath"
  else if scriptSigEmpty && (wlen witness =? 2) && String.eqb prevoutType "p2wpkh"
  then "p2wpkh"
  else if scriptSigEmpty && hasWitness && String.eqb prevoutType "p2wsh"
  then "p2wsh"
  else if (len scriptSig =? 23) && (idx scriptSig 0 =? 0x16)
          && (idx scriptSig 1 =? 0x00) && (idx scriptSig 2 =? 0x14)
          && (wlen witness =? 2)
  then "p2sh-p2wpkh"
  else if (len scriptSig =? 35) && (idx scriptSig 0 =? 0x22)
          && (idx scriptSig 1 =? 0x00) && (idx scriptSig 2 =? 0x20)
          && hasWitness
  then "p2sh-p2wsh"
  else if negb scriptSigEmpty && negb hasWitness && String.eqb prevoutType "p2pkh"
  then "p2pkh"
  else if scriptSigEmpty && negb hasWitness
          && (String.eqb prevoutType "p2pkh" || String.eqb prevoutType "p2sh")
  then prevoutType
  else "unknown".

(** The [switch] of [opcodeToName], one pair per [case]. *)
Definition opcode_names : list (Z * string) :=
  [ (0x4f, "OP_1NEGATE"); (0x50, "OP_RESERVED"); (0x51, "OP_1");
    (0x52, "OP_2"); (0x53, "OP_3"); (0x54, "OP_4");
    (0x55, "OP_5"); (0x56, "OP_6"); (0x57, "OP_7");
    (0x58, "OP_8"); (0x59, "OP_9"); (0x5a, "OP_10");
    (0x5b, "OP_11"); (0x5c, "OP_12"); (0x5d, "OP_13");
    (0x5e, "OP_14"); (0x5f, "OP_15"); (0x60, "OP_16");
    (0x61, "OP_NOP"); (0x62, "OP_VER"); (0x63, "OP_IF");
    (0x64, "OP_NOTIF"); (0x65, "OP_VERIF"); (0x66, "OP_VERNOTIF");
    (0x67, "OP_ELSE"); (0x68, "OP_ENDIF"); (0x69, "OP_VERIFY");
    (0x6a, "OP_RETURN"); (0x6b, "OP_TOALTSTACK"); (0x6c, "OP_FROMALTSTACK");
    (0x6d, "OP_2DROP"); (0x6e, "OP_2DUP"); (0x6f, "OP_3DUP");
    (0x70, "OP_2OVER"); (0x71, "OP_2ROT"); (0x72, "OP_2SWAP");
    (0x73, "OP_IFDUP"); (0x74, "OP_DEPTH"); (0x75, "OP_DROP");
    (0x76, "OP_DUP"); (0x77, "OP_NIP"); (0x78, "OP_OVER");
    (0x79, "OP_PICK"); (0x7a, "OP_ROLL"); (0x7b, "OP_ROT");
    (0x7c, "OP_SWAP"); (0x7d, "OP_TUCK"); (0x7e, "OP_CAT");
    (0x7f, "OP_SUBSTR"); (0x80, "OP_LEFT"); (0x81, "OP_RIGHT");
    (0x82, "OP_SIZE"); (0x83, "OP_INVERT"); (0x84, "OP_AND");
    (0x85, "OP_OR"); (0x86, "OP_XOR"); (0x87, "OP_EQUAL");
    (0x88, "OP_EQUALVERIFY"); (0x89, "OP_RESERVED1"); (0x8a, "OP_RESERVED2");
    (0x8b, "OP_1ADD"); (0x8c, "OP_1SUB"); (0x8d, "OP_2MUL");
    (0x8e, "OP_2DIV"); (0x8f, "OP_NEGATE"); (0x90, "OP_ABS");
    (0x91, "OP_NOT"); (0x92, "OP_0NOTEQUAL"); (0x93, "OP_ADD");
    (0x94, "OP_SUB"); (0x95, "OP_MUL"); (0x96, "OP_DIV");
    (0x97, "OP_MOD"); (0x98, "OP_LSHIFT"); (0x99, "OP_RSHIFT");
    (0x9a, "OP_BOOLAND"); (0x9b, "OP_BOOLOR"); (0x9c, "OP_NUMEQUAL");
    (0x9d, "OP_NUMEQUALVERIFY"); (0x9e, "OP_NUMNOTEQUAL"); (0x9f, "OP_LESSTHAN");
    (0xa0, "OP_GREATERTHAN"); (0xa1, "OP_LESSTHANOREQUAL"); (0xa2, "OP_GREATERTHANOREQUAL");
    (0xa3, "OP_MIN"); (0xa4, "OP_MAX"); (0xa5, "OP_WITHIN");
    (0xa6, "OP_RIPEMD160"); (0xa7, "OP_SHA1"); (0xa8, "OP_SHA256");
    (0xa9, "OP_HASH160"); (0xaa, "OP_HASH256"); (0xab, "OP_CODESEPARATOR");
    (0xac, "OP_CHECKSIG"); (0xad, "OP_CHECKSIGVERIFY"); (0xae, "OP_CHECKMULTISIG");
    (0xaf, "OP_CHECKMULTISIGVERIFY"); (0xb0, "OP_NOP1"); (0xb1, "OP_CHECKLOCKTIMEVERIFY");
    (0xb2, "OP_CHECKSEQUENCEVERIFY"); (0xb3, "OP_NOP4"); (0xb4, "OP_NOP5");
    (0xb5, "OP_NOP6"); (0xb6, "OP_NOP7"); (0xb7, "OP_NOP8");
    (0xb8, "OP_NOP9"); (0xb9, "OP_NOP10"); (0xba, "OP_CHECKSIGADD");
    (0xfd, "OP_PUBKEYHASH"); (0xfe, "OP_PUBKEY"); (0xff, "OP_INVALIDOPCODE") ].

(** [fmt.Sprintf("%02x", op)] for a byte. *)
Definition Sprintf_02x (op : byte) : string := Hex.EncodeToString [op].

Definition opcodeToName (op : byte) : string :=
  match find (fun c => fst c =? op) opcode_names with
  | Some (_, name) => name
  | None => "OP_UNKNOWN_0x" ++ Sprintf_02x op
  end.

(** [if i+n > len(script) { n = len(script) - i }], on the bytes from
    [i] on. *)
Definition clamp (n : Z) (rest : list byte) : Z :=
  if n >? len rest then len rest else n.

(** The [for i < len(script)] loop of [DisassembleScript]; [rest] is
    [script[i:]].  A turn consumes at least the opcode, so as many turns
    as the script has bytes are enough. *)
Fixpoint disassemble_loop (turns : nat) (rest : list byte) (parts : list string)
  : list string :=
  match turns, rest with
  | O, _ => parts
  | _, [] => parts
  | S turns, op :: rest =>
      if op =? 0x00 then disassemble_loop turns rest (parts ++ ["OP_0"])
      else if (0x01 <=? op) && (op <=? 0x4b) then
        let n := op in
        if n >? len rest then
          disassemble_loop turns [] (parts ++ [("OP_PUSHBYTES_" ++ Sprintf_d n)%string])
        else
          let data := firstn (Z.to_nat n) rest in
          disassemble_loop turns (skipn (Z.to_nat n) rest)
            (parts ++ [("OP_PUSHBYTES_" ++ Sprintf_d n ++ " "
                        ++ Hex.EncodeToString data)%string])
      else if op =? 0x4c then
        match rest with
        | [] => disassemble_loop turns rest (parts ++ ["OP_PUSHDATA1"])
        | n :: rest =>
            let n := clamp n rest in
            let data := firstn (Z.to_nat n) rest in
            disassemble_loop turns (skipn (Z.to_nat n) rest)
              (parts ++ [("OP_PUSHDATA1 " ++ Hex.EncodeToString data)%string])
        end
      else if op =? 0x4d then
        if len rest <=? 1 then disassemble_loop turns rest (parts ++ ["OP_PUSHDATA2"])
        else
          let n := le_decode (firstn 2 rest) in
          let rest := skipn 2 rest in
          let n := clamp n rest in
          let data := firstn (Z.to_nat n) rest in
          disassemble_loop turns (skipn (Z.to_nat n) rest)
            (parts ++ [("OP_PUSHDATA2 " ++ Hex.EncodeToString data)%string])
      else if op =? 0x4e then
        if len rest <=? 3 then disassemble_loop turns rest (parts ++ ["OP_PUSHDATA4"])
        else
          let n := le_decode (firstn 4 rest) in
          let rest := skipn 4 rest in
          let n := clamp n rest in
          let data := firstn (Z.to_nat n) rest in
          disassemble_loop turns (skipn (Z.to_nat n) rest)
            (parts ++ [("OP_PUSHDATA4 " ++ Hex.EncodeToString data)%string])
      else disassemble_loop turns rest (parts ++ [opcodeToName op])
  end.

Definition DisassembleScript (script : list byte) : string :=
  if len script =? 0 then ""
  else String.concat " " (disassemble_loop (List.length script) script []).

(** The rune that [for _, r := range s] yields at the head of [p] and the
    number of bytes it takes, as the Go specification defines the
    iteration: a byte that does not start a well-formed UTF-8 sequence
    gives U+FFFD and a width of one. *)
Definition RuneError : Z := 0xFFFD.

Definition between (b lo hi : Z) : bool := (lo <=? b) && (b <=? hi).

Definition decodeRune (p : list byte) : Z * nat :=
  match p with
  | [] => (RuneError, 0%nat)
  | p0 :: t =>
      if p0 <? 0x80 then (p0, 1%nat)
      else if p0 <? 0xC2 then (RuneError, 1%nat)
      else if p0 <? 0xE0 then
        match t with
        | b1 :: _ =>
            if between b1 0x80 0xBF
            then (Z.lor (Z.shiftl (Z.land p0 0x1F) 6) (Z.land b1 0x3F), 2%nat)
            else (RuneError, 1%nat)
        | _ => (RuneError, 1%nat)
        end
      else if p0 <? 0xF0 then
        let lo := if p0 =? 0xE0 then 0xA0 else 0x80 in
        let hi := if p0 =? 0xED then 0x9F else 0xBF in
        match t with
        | b1 :: b2 :: _ =>
            if between b1 lo hi && between b2 0x80 0xBF
            then (Z.lor (Z.lor (Z.shiftl (Z.land p0 0x0F) 12)
                               (Z.shiftl (Z.land b1 0x3F) 6))
                        (Z.land b2 0x3F), 3%nat)
            else (RuneError, 1%nat)
        | _ => (RuneError, 1%nat)
        end
      else if p0 <? 0xF5 then
        let lo := if p0 =? 0xF0 then 0x90 else 0x80 in
        let hi := if p0 =? 0xF4 then 0x8F else 0xBF in
        match t with
        | b1 :: b2 :: b3 :: _ =>
            if between b1 lo hi && between b2 0x80 0xBF && between b3 0x80 0xBF
            then (Z.lor (Z.lor (Z.lor (Z.shiftl (Z.land p0 0x07) 18)
                                      (Z.shiftl (Z.land b1 0x3F) 12))
                               (Z.shiftl (Z.land b2 0x3F) 6))
                        (Z.land b3 0x3F), 4%nat)
            else (RuneError, 1%nat)
        | _ => (RuneError, 1%nat)
        end
      else (RuneError, 1%nat)
  end.

(** The loop of [isValidUTF8] over the bytes still to iterate. *)
Fixpoint isValidUTF8_loop (turns : nat) (s : list byte) : bool :=
  match turns, s with
  | O, _ => true
  | _, [] => true
  | S turns, _ :: _ =>
      let '(r, width) := decodeRune s in
      if r =? RuneError then false else isValidUTF8_loop turns (skipn width s)
  end.

Definition isValidUTF8 (data : list byte) : bool :=
  isValidUTF8_loop (List.length data) data.

(** The opcode read by a turn of the loop of [ParseOpReturn]: the length
    of the push and the bytes after its length field, or nothing where
    the loop is left. *)
Definition push_header (opcode : byte) (rest : list byte)
  : option (Z * list byte) :=
  if (0x01 <=? opcode) && (opcode <=? 0x4b) then Some (opcode, rest)
  else if opcode =? 0x4c then
    match rest with
    | [] => None
    | n :: rest => Some (n, rest)
    end
  else if opcode =? 0x4d then
    if len rest <=? 1 then None
    else Some (le_decode (firstn 2 rest), skipn 2 rest)
  else if opcode =? 0x4e then
    if len rest <=? 3 then None
    else Some (le_decode (firstn 4 rest), skipn 4 rest)
  else None.

(** The [for i < len(script)] loop of [ParseOpReturn]; [rest] is
    [script[i:]]. *)
Fixpoint collect_pushes (turns : nat) (rest : list byte) (allData : list byte)
  : list byte :=
  match turns, rest with
  | O, _ => allData
  | _, [] => allData
  | S turns, opcode :: rest =>
      match push_header opcode rest with
      | None => allData
      | Some (pushLen, rest) =>
          if pushLen >? len rest then allData
          else collect_pushes turns (skipn (Z.to_nat pushLen) rest)
                 (allData ++ firstn (Z.to_nat pushLen) rest)
      end
  end.

(** The results are [dataHex], [dataUtf8] and [protocol]; the text of
    [dataUtf8] is kept as its bytes. *)
Definition ParseOpReturn (script : list byte)
  : string * option (list byte) * string :=
  if (len script =? 0) || negb (idx script 0 =? 0x6a) then ("", None, "unknown")
  else
    let allData := collect_pushes (List.length script) (skipn 1 script) [] in
    let dataHex := Hex.EncodeToString allData in
    let dataUtf8 :=
      if (len allData >? 0) && isValidUTF8 allData then Some allData else None in
    let protocol :=
      if (len allData >=? 4)
         && Parser.list_eqb (firstn 4 allData) [0x6f; 0x6d; 0x6e; 0x69] then "omni"
      else if (len allData >=? 5)
              && Parser.list_eqb (firstn 5 allData) [0x01; 0x09; 0xf9; 0x11; 0x02]
      then "opentimestamps"
      else "unknown" in
    (dataHex, dataUtf8, protocol).

End Script.

(** * Reference implementations of the interfaces

    The hash functions, the transaction codec, the curve and the address
    formats behind the interfaces [Btcd], [Btcutil] and [Float64], written
    from their public definitions (FIPS 180-4, RIPEMD-160, the consensus
    serialization with the witness extension, SEC 2, Base58Check, Bech32
    and Bech32m, IEEE 754 binary64).  They let the model run on recorded
    chain data; the theorems about the analyzer hold for every
    implementation of the interfaces. *)

Module Bytes.
Import Utils.

Definition be_encode (n : nat) (x : Z) : list byte := rev (le_encode n x).

Definition be_decode (bs : list byte) : Z := le_decode (rev bs).

(** The first [n] pieces of [k] bytes. *)
Fixpoint chunks (n k : nat) (bs : list byte) : list (list byte) :=
  match n with
  | O => []
  | S n' => firstn k bs :: chunks n' k (skipn k bs)
  end.

Definition w32 (x : Z) : Z := x mod 2 ^ 32.

(** The padding shared by SHA-256 and RIPEMD-160, up to the encoding of
    the bit length. *)
Definition pad_with (length_bytes : Z -> list byte) (msg : list byte) : list byte :=
  let l := Z.of_nat (List.length msg) in
  msg ++ [0x80] ++ repeat 0 (Z.to_nat ((55 - l) mod 64)) ++ length_bytes (8 * l).

Definition blocks (p : list byte) : list (list byte) :=
  chunks (List.length p / 64) 64 p.

End Bytes.

Module Sha256.
Import Bytes.

Definition rotr (n x : Z) : Z :=
  Z.lor (Z.shiftr x n) (w32 (Z.shiftl x (32 - n))).

Definition is_prime (k : Z) : bool :=
  forallb (fun d => negb (k mod d =? 0))
          (filter (fun d => d * d <=? k) (map Z.of_nat (seq 2 20))).

Definition primes64 : list Z :=
  firstn 64 (filter is_prime (map Z.of_nat (seq 2 400))).

(** The integer cube root, bit by bit from bit [b] down. *)
Fixpoint icbrt_bits (b : nat) (n r : Z) : Z :=
  match b with
  | O => r
  | S b' =>
      let c := r + 2 ^ Z.of_nat b' in
      icbrt_bits b' n (if c * c * c <=? n then c else r)
  end.

Definition icbrt (n : Z) : Z := icbrt_bits 40 n 0.

(** The round constants and the initial state: the first 32 fractional
    bits of the cube roots, and of the square roots, of the primes. *)
Definition K : list Z := map (fun p => w32 (icbrt (p * 2 ^ 96))) primes64.

Definition H0 : list Z :=
  map (fun p => w32 (Z.sqrt (p * 2 ^ 64))) (firstn 8 primes64).

Definition sigma0 (x : Z) : Z := Z.lxor (Z.lxor (rotr 7 x) (rotr 18 x)) (Z.shiftr x 3).
Definition sigma1 (x : Z) : Z := Z.lxor (Z.lxor (rotr 17 x) (rotr 19 x)) (Z.shiftr x 10).
Definition Sigma0 (x : Z) : Z := Z.lxor (Z.lxor (rotr 2 x) (rotr 13 x)) (rotr 22 x).
Definition Sigma1 (x : Z) : Z := Z.lxor (Z.lxor (rotr 6 x) (rotr 11 x)) (rotr 25 x).
Definition Ch (x y z : Z) : Z :=
  Z.lxor (Z.land x y) (Z.land (Z.lxor x (2 ^ 32 - 1)) z).
Definition Maj (x y z : Z) : Z :=
  Z.lxor (Z.lxor (Z.land x y) (Z.land x z)) (Z.land y z).

(** The message schedule, latest word first. *)
Fixpoint schedule (n : nat) (w : list Z) : list Z :=
  match n with
  | O => w
  | S n' =>
      schedule n'
        (w32 (sigma1 (nth 1 w 0) + nth 6 w 0 + sigma0 (nth 14 w 0) + nth 15 w 0) :: w)
  end.

Definition round (s : list Z) (kw : Z * Z) : list Z :=
  match s with
  | [a; b; c; d; e; f; g; h] =>
      let t1 := h + Sigma1 e + Ch e f g + fst kw + snd kw in
      let t2 := Sigma0 a + Maj a b c in
      [w32 (t1 + t2); a; b; c; w32 (d + t1); e; f; g]
  | _ => s
  end.

Definition compress (h : list Z) (block : list byte) : list Z :=
  let w := rev (schedule 48 (rev (map be_decode (chunks 16 4 block)))) in
  map (fun p => w32 (fst p + snd p)) (combine h (fold_left round (combine K w) h)).

Definition sha256 (msg : list byte) : list byte :=
  flat_map (be_encode 4)
           (fold_left compress (blocks (pad_with (be_encode 8) msg)) H0).

End Sha256.

Module Ripemd160.
Import Utils Bytes.

Definition rotl (n x : Z) : Z :=
  Z.lor (w32 (Z.shiftl x n)) (Z.shiftr x (32 - n)).

Definition bnot (x : Z) : Z := Z.lxor x (2 ^ 32 - 1).

Definition f (j : nat) (x y z : Z) : Z :=
  match Nat.div j 16 with
  | 0%nat => Z.lxor (Z.lxor x y) z
  | 1%nat => Z.lor (Z.land x y) (Z.land (bnot x) z)
  | 2%nat => Z.lxor (Z.lor x (bnot y)) z
  | 3%nat => Z.lor (Z.land x z) (Z.land y (bnot z))
  | _ => Z.lxor x (Z.lor y (bnot z))
  end.

Definition KL : list Z := [0x00000000; 0x5a827999; 0x6ed9eba1; 0x8f1bbcdc; 0xa953fd4e].
Definition KR : list Z := [0x50a28be6; 0x5c4dd124; 0x6d703ef3; 0x7a6d76e9; 0x00000000].

Definition RL : list nat :=
  [0;1;2;3;4;5;6;7;8;9;10;11;12;13;14;15;
   7;4;13;1;10;6;15;3;12;0;9;5;2;14;11;8;
   3;10;14;4;9;15;8;1;2;7;0;6;13;11;5;12;
   1;9;11;10;0;8;12;4;13;3;7;15;14;5;6;2;
   4;0;5;9;7;12;2;10;14;1;3;8;11;6;15;13]%nat.

Definition RR : list nat :=
  [5;14;7;0;9;2;11;4;13;6;15;8;1;10;3;12;
   6;11;3;7;0;13;5;10;14;15;8;12;4;9;1;2;
   15;5;1;3;7;14;6;9;11;8;12;2;10;0;4;13;
   8;6;4;1;3;11;15;0;5;12;2;13;9;7;10;14;
   12;15;10;4;1;5;8;7;6;2;13;14;0;3;9;11]%nat.

Definition SL : list Z :=
  [11;14;15;12;5;8;7;9;11;13;14;15;6;7;9;8;
   7;6;8;13;11;9;7;15;7;12;15;9;11;7;13;12;
   11;13;6;7;14;9;13;15;14;8;13;6;5;12;7;5;
   11;12;14;15;14;15;9;8;9;14;5;6;8;6;5;12;
   9;15;5;11;6;8;13;12;5;12;13;14;11;8;5;6].

Definition SR : list Z :=
  [8;9;9;11;13;15;15;5;7;7;8;11;14;14;12;6;
   9;13;15;7;12;8;9;11;7;7;12;7;6;15;13;11;
   9;7;15;11;8;6;6;14;12;13;5;14;13;13;7;5;
   15;5;8;11;14;14;6;14;6;9;12;9;12;5;15;8;
   8;5;12;9;12;5;14;6;8;13;6;5;15;13;11;11].

Definition H0 : list Z := [0x67452301; 0xefcdab89; 0x98badcfe; 0x10325476; 0xc3d2e1f0].

Definition step (left_line : bool) (x : list Z) (s : list Z) (j : nat) : list Z :=
  match s with
  | [a; b; c; d; e] =>
      let fj := if left_line then f j b c d else f (79 - j) b c d in
      let k := nth (Nat.div j 16) (if left_line then KL else KR) 0 in
      let r := nth j (if left_line then RL else RR) 0%nat in
      let sh := nth j (if left_line then SL else SR) 0 in
      [e; w32 (rotl sh (w32 (a + fj + nth r x 0 + k)) + e); b; rotl 10 c; d]
  | _ => s
  end.

Definition compress (h : list Z) (block : list byte) : list Z :=
  let x := map le_decode (chunks 16 4 block) in
  let l := fold_left (step true x) (seq 0 80) h in
  let r := fold_left (step false x) (seq 0 80) h in
  match h, l, r with
  | [h0; h1; h2; h3; h4], [al; bl; cl; dl; el], [ar; br; cr; dr; er] =>
      [w32 (h1 + cl + dr); w32 (h2 + dl + er); w32 (h3 + el + ar);
       w32 (h4 + al + br); w32 (h0 + bl + cr)]
  | _, _, _ => h
  end.

Definition ripemd160 (msg : list byte) : list byte :=
  flat_map (le_encode 4)
           (fold_left compress (blocks (pad_with (le_encode 8) msg)) H0).

End Ripemd160.

Module Codec.
Import Utils.

(** The consensus serialization of a transaction, with the marker,
    the flag and the witness stacks of the witness extension; the limits
    that btcd sets on counts and sizes are left out. *)

Definition count_of {A} (l : list A) : list byte :=
  WriteCompactSize (Z.of_nat (List.length l)).

Definition put_bytes (bs : list byte) : list byte := count_of bs ++ bs.

Definition put_txin (txIn : TxIn) : list byte :=
  op_Hash (PreviousOutPoint txIn)
  ++ le_encode 4 (op_Index (PreviousOutPoint txIn))
  ++ put_bytes (SignatureScript txIn)
  ++ le_encode 4 (Sequence txIn).

Definition put_txout (txOut : TxOut) : list byte :=
  le_encode 8 (wrap64 (Value txOut)) ++ put_bytes (PkScript txOut).

Definition put_witness (txIn : TxIn) : list byte :=
  count_of (Witness txIn) ++ flat_map put_bytes (Witness txIn).

Definition put_tx (witness : bool) (tx : MsgTx) : list byte :=
  le_encode 4 (wrap32 (tx_Version tx))
  ++ (if witness then [0x00; 0x01] else [])
  ++ count_of (tx_TxIn tx) ++ flat_map put_txin (tx_TxIn tx)
  ++ count_of (tx_TxOut tx) ++ flat_map put_txout (tx_TxOut tx)
  ++ (if witness then flat_map put_witness (tx_TxIn tx) else [])
  ++ le_encode 4 (tx_LockTime tx).

Definition get_bytes : Rd (list byte) :=
  (n <- ReadCompactSize ;; ReadFull n)%rd.

Definition get_txin : Rd TxIn :=
  (h <- ReadFull 32 ;;
   i <- binary_Read_le 4 ;;
   script <- get_bytes ;;
   sequence <- binary_Read_le 4 ;;
   ret {| PreviousOutPoint := {| op_Hash := h; op_Index := i |};
          SignatureScript := script;
          Witness := [];
          Sequence := sequence |})%rd.

Definition get_txout : Rd TxOut :=
  (v <- binary_Read_le 8 ;;
   script <- get_bytes ;;
   ret {| Value := to_int64 v; PkScript := script |})%rd.

Definition get_witness : Rd (list (list byte)) :=
  (n <- ReadCompactSize ;; repeat_rd (Z.to_nat n) get_bytes)%rd.

Definition set_witness (p : TxIn * list (list byte)) : TxIn :=
  {| PreviousOutPoint := PreviousOutPoint (fst p);
     SignatureScript := SignatureScript (fst p);
     Witness := snd p;
     Sequence := Sequence (fst p) |}.

Definition get_tx : Rd MsgTx :=
  (version <- binary_Read_le 4 ;;
   count <- ReadCompactSize ;;
   marked <- (if count =? 0 then
                flag <- ReadByte ;;
                if flag =? 0x01 then (n <- ReadCompactSize ;; ret (true, n))
                else fail (Errorf "witness tx but flag byte is not 0x01")
              else ret (false, count)) ;;
   ins <- repeat_rd (Z.to_nat (snd marked)) get_txin ;;
   nout <- ReadCompactSize ;;
   outs <- repeat_rd (Z.to_nat nout) get_txout ;;
   wits <- (if fst marked then repeat_rd (List.length ins) get_witness
            else ret (map (fun _ => []) ins)) ;;
   locktime <- binary_Read_le 4 ;;
   ret {| tx_Version := (if version <? 2 ^ 31 then version else version - 2 ^ 32);
          tx_TxIn := map set_witness (combine ins wits);
          tx_TxOut := outs;
          tx_LockTime := locktime |})%rd.

End Codec.

Module Secp256k1.

Definition p : Z := 2 ^ 256 - 2 ^ 32 - 977.

Fixpoint pow_mod (b : Z) (e : positive) (m : Z) : Z :=
  match e with
  | xH => b mod m
  | xO e' => let r := pow_mod b e' m in (r * r) mod m
  | xI e' => let r := pow_mod b e' m in ((r * r) mod m * b) mod m
  end.

Definition sqrt_mod (a : Z) : Z :=
  match (p + 1) / 4 with
  | Z.pos e => pow_mod a e p
  | _ => 0
  end.

(** [btcec.ParsePubKey] of a compressed key, then
    [SerializeUncompressed]. *)
Definition uncompress (key : list byte) : result (list byte) :=
  match key with
  | prefix :: xs =>
      if Nat.eqb (List.length xs) 32 && ((prefix =? 0x02) || (prefix =? 0x03)) then
        let x := Bytes.be_decode xs in
        if p <=? x then Err (Errorf "invalid public key: x >= field prime")
        else
          let rhs := (x * x * x + 7) mod p in
          let y := sqrt_mod rhs in
          if (y * y) mod p =? rhs then
            let y := if Bool.eqb (Z.odd y) (prefix =? 0x03) then y else (p - y) mod p in
            Ok (0x04 :: Bytes.be_encode 32 x ++ Bytes.be_encode 32 y)
          else Err (Errorf "invalid public key: x coordinate is not on the curve")
      else Err (Errorf "invalid public key: unsupported format")
  | [] => Err (Errorf "malformed public key: invalid length")
  end.

End Secp256k1.

Module Base58.

Definition alphabet : list ascii :=
  list_ascii_of_string "123456789ABCDEFGHJKLMNPQRSTUVWXYZabcdefghijkmnopqrstuvwxyz".

Fixpoint digits (fuel : nat) (n : Z) (acc : list ascii) : list ascii :=
  match fuel with
  | O => acc
  | S fuel' =>
      if n =? 0 then acc
      else digits fuel' (n / 58) (nth (Z.to_nat (n mod 58)) alphabet "1"%char :: acc)
  end.

Fixpoint leading_zeros (bs : list byte) : nat :=
  match bs with
  | b :: rest => if b =? 0 then S (leading_zeros rest) else O
  | [] => O
  end.

Definition encode (bs : list byte) : string :=
  string_of_list_ascii
    (repeat "1"%char (leading_zeros bs)
     ++ digits (2 * List.length bs) (Bytes.be_decode bs) []).

(** [base58.CheckEncode] *)
Definition CheckEncode (input : list byte) (version : byte) : string :=
  let body := version :: input in
  encode (body ++ firstn 4 (Sha256.sha256 (Sha256.sha256 body))).

End Base58.

Module Bech32.

Definition charset : list ascii :=
  list_ascii_of_string "qpzry9x8gf2tvdw0s3jn54khce6mua7l".

Definition generator : list Z :=
  [0x3b6a57b2; 0x26508e6d; 0x1ea119fa; 0x3d4233dd; 0x2a1462b3].

Definition polymod_step (chk v : Z) : Z :=
  let b := Z.shiftr chk 25 in
  let chk := Z.lxor (Z.shiftl (Z.land chk 0x1ffffff) 5) v in
  fold_left (fun c ig => if Z.testbit b (Z.of_nat (fst ig)) then Z.lxor c (snd ig) else c)
            (combine (seq 0 5) generator) chk.

Definition polymod (values : list Z) : Z := fold_left polymod_step values 1.

Definition code (c : ascii) : Z := Z.of_N (N_of_ascii c).

Definition hrp_expand (hrp : string) : list Z :=
  let cs := map code (list_ascii_of_string hrp) in
  map (fun c => Z.shiftr c 5) cs ++ [0] ++ map (fun c => Z.land c 31) cs.

Definition checksum (hrp : string) (data : list Z) (const : Z) : list Z :=
  let pm := Z.lxor (polymod (hrp_expand hrp ++ data ++ [0; 0; 0; 0; 0; 0])) const in
  map (fun i => Z.land (Z.shiftr pm (5 * (5 - Z.of_nat i))) 31) (seq 0 6).

(** Regrouping of 8-bit bytes into 5-bit groups, the last one padded. *)
Fixpoint to5 (bs : list byte) (acc bits : Z) : list Z :=
  match bs with
  | [] => if 0 <? bits then [Z.land (Z.shiftl acc (5 - bits)) 31] else []
  | b :: rest =>
      let acc := Z.lor (Z.shiftl acc 8) b in
      let bits := bits + 8 in
      if 10 <=? bits then
        Z.land (Z.shiftr acc (bits - 5)) 31
        :: Z.land (Z.shiftr acc (bits - 10)) 31
        :: to5 rest (Z.land acc (2 ^ (bits - 10) - 1)) (bits - 10)
      else
        Z.land (Z.shiftr acc (bits - 5)) 31
        :: to5 rest (Z.land acc (2 ^ (bits - 5) - 1)) (bits - 5)
  end.

(** The address of a witness program: Bech32 for version 0, Bech32m
    from version 1 on. *)
Definition encode_segwit (hrp : string) (version : Z) (program : list byte) : string :=
  let data := version :: to5 program 0 0 in
  let const := if version =? 0 then 1 else 0x2bc830a3 in
  hrp ++ "1"
  ++ string_of_list_ascii
       (map (fun v => nth (Z.to_nat v) charset "q"%char) (data ++ checksum hrp data const)).

End Bech32.

Module Reference.

(** The parameters of a network that the address constructors read. *)
Record NetParams : Type := {
  PubKeyHashAddrID : byte;
  ScriptHashAddrID : byte;
  Bech32HRPSegwit : string
}.

Inductive address : Type :=
| AddressPubKeyHash (hash : list byte) (netID : byte)
| AddressScriptHash (hash : list byte) (netID : byte)
| AddressWitness (hrp : string) (version : Z) (program : list byte).

Definition sized (n : nat) (bs : list byte) (a : address) : result address :=
  if Nat.eqb (List.length bs) n then Ok a
  else Err (Errorf "address payload has the wrong length").

Definition Hash160 (bs : list byte) : list byte :=
  Ripemd160.ripemd160 (Sha256.sha256 bs).

#[export] Instance btcutil : Btcutil := {|
  Params := NetParams;
  MainNetParams :=
    {| PubKeyHashAddrID := 0x00; ScriptHashAddrID := 0x05; Bech32HRPSegwit := "bc" |};
  TestNet3Params :=
    {| PubKeyHashAddrID := 0x6f; ScriptHashAddrID := 0xc4; Bech32HRPSegwit := "tb" |};
  BtcAddress := address;
  NewAddressPubKeyHash := fun pkHash net =>
    sized 20 pkHash (AddressPubKeyHash pkHash (PubKeyHashAddrID net));
  NewAddressScriptHash := fun serializedScript net =>
    Ok (AddressScriptHash (Hash160 serializedScript) (ScriptHashAddrID net));
  NewAddressWitnessPubKeyHash := fun program net =>
    sized 20 program (AddressWitness (Bech32HRPSegwit net) 0 program);
  NewAddressWitnessScriptHash := fun program net =>
    sized 32 program (AddressWitness (Bech32HRPSegwit net) 0 program);
  NewAddressTaproot := fun program net =>
    sized 32 program (AddressWitness (Bech32HRPSegwit net) 1 program);
  EncodeAddress := fun a =>
    match a with
    | AddressPubKeyHash hash netID => Base58.CheckEncode hash netID
    | AddressScriptHash hash netID => Base58.CheckEncode hash netID
    | AddressWitness hrp version program => Bech32.encode_segwit hrp version program
    end
|}.

#[export] Instance btcd : Btcd := {|
  MsgTx_Deserialize := Codec.get_tx;
  MsgTx_Serialize := fun tx => Codec.put_tx (HasWitness tx) tx;
  MsgTx_SerializeNoWitness := Codec.put_tx false;
  DoubleHashH := fun b => Sha256.sha256 (Sha256.sha256 b);
  btcec_uncompress := Secp256k1.uncompress
|}.

(** A machine that grants slices of up to 4 GiB. *)
#[export] Instance runtime : Runtime := {| memory_limit := 2 ^ 32 |}.

(** [float64(n)] for an [int64]. *)
Definition float_of_int (n : Z) : PrimFloat.float :=
  if n =? - 2 ^ 63 then PrimFloat.opp (PrimFloat.mul (PrimFloat.of_uint63 (Int63.Uint63.of_Z (2 ^ 62))) 2%float)
  else if n <? 0 then PrimFloat.opp (PrimFloat.of_uint63 (Int63.Uint63.of_Z (- n)))
  else PrimFloat.of_uint63 (Int63.Uint63.of_Z n).

(** [math.Round]: to the nearest integer, halves away from zero. *)
Definition Round (x : PrimFloat.float) : PrimFloat.float :=
  let a := PrimFloat.abs x in
  if PrimFloat.ltb a 0x1p52%float then
    let t := PrimFloat.sub (PrimFloat.add a 0x1p52%float) 0x1p52%float in
    let fl := if PrimFloat.ltb a t then PrimFloat.sub t 1%float else t in
    let r := if PrimFloat.leb 0.5%float (PrimFloat.sub a fl) then PrimFloat.add fl 1%float else fl in
    if PrimFloat.ltb x 0%float then PrimFloat.opp r else r
  else x.

#[export] Instance float64_ops : Float64 := {|
  float64 := PrimFloat.float;
  float64_of_int := float_of_int;
  fdiv := PrimFloat.div;
  fmul := PrimFloat.mul;
  fsub := PrimFloat.sub;
  math_Round := Round;
  fgt := fun a b => PrimFloat.ltb b a
|}.

Definition bytes_of_hex (s : string) : list byte :=
  match Hex.DecodeString s with Ok b => b | Err _ => [] end.

Definition genesis_tx_hex : string :=
  "01000000010000000000000000000000000000000000000000000000000000000000000000ffffffff4d04ffff001d0104455468652054696d65732030332f4a616e2f32303039204368616e63656c6c6f72206f6e206272696e6b206f66207365636f6e64206261696c6f757420666f722062616e6b73ffffffff0100f2052a01000000434104678afdb0fe5548271967f1a67130b7105cd6a828e03909a67962e0ea1f61deb649f6bc3f4cef38c4f35504e51ec112de5c384df7ba0b8d578a4c702b6bf11d5fac00000000".

Definition genesis_header_hex : string :=
  "0100000000000000000000000000000000000000000000000000000000000000000000003ba3edfd7a7b12b27ac72c3e67768f617fc81bc3888a51323a9fb8aa4b1e5e4a29ab5f49ffff001d1dac2b7c".

(** The first record of mainnet's [blk00000.dat]: the magic, the size
    285, the header, the count 1 and the coinbase transaction. *)
Definition genesis_blk : list byte :=
  bytes_of_hex ("f9beb4d91d010000" ++ genesis_header_hex ++ "01" ++ genesis_tx_hex).

Definition genesis_fixture : Fixture :=
  {| Network := "mainnet"; RawTx := genesis_tx_hex; Prevouts := [] |}.

Definition empty_tx : MsgTx :=
  {| tx_Version := 0; tx_TxIn := []; tx_TxOut := []; tx_LockTime := 0 |}.

Definition genesis_tx : MsgTx :=
  Eval vm_compute in
    match Codec.get_tx (bytes_of_hex genesis_tx_hex) with
    | Ok (tx, _) => tx
    | Err _ => empty_tx
    end.

Definition header_of (raw : list byte) : WireBlockHeader :=
  match Parser.BlockHeader_Deserialize raw with
  | Ok (header, _) => header
  | Err _ =>
      {| h_Version := 0; h_PrevBlock := []; h_MerkleRoot := []; h_Timestamp := 0;
         h_Bits := 0; h_Nonce := 0; h_raw := [] |}
  end.

Definition genesis_header : WireBlockHeader :=
  Eval vm_compute in header_of (bytes_of_hex genesis_header_hex).

(** The same record with the first byte of the Merkle root changed from
    [3b] to [3c]. *)
Definition damaged_blk : list byte :=
  firstn 44 genesis_blk ++ [0x3c] ++ skipn 45 genesis_blk.

Definition damaged_header : WireBlockHeader :=
  Eval vm_compute in header_of (firstn 80 (skipn 8 damaged_blk)).

(** The record of a rev file for a block of one transaction, with no
    input to undo; the 32 bytes after the payload stand for the hash. *)
Definition undo_record_1 : list byte :=
  bytes_of_hex "f9beb4d90100000000" ++ repeat 0xbb 32.

(** A record of 259 payload bytes for a block of three transactions,
    and the record for a block of two transactions whose second one
    spends the coinbase output of block 9, as block 170 does. *)
Definition undo_header_259 : list byte := bytes_of_hex "f9beb4d903010000".
Definition undo_payload_259 : list byte := bytes_of_hex "020000" ++ repeat 0 256.
Definition undo_hash_259 : list byte := repeat 0xaa 32.
Definition undo_entry_170 : list byte :=
  bytes_of_hex
    "1300320511db93e1dcdb8a016b49840f8c53bc1eb68a382e97b1482ecad7b148a6909a5c".
Definition undo_header_170 : list byte := bytes_of_hex "f9beb4d926000000".
Definition undo_body_170 : list byte :=
  bytes_of_hex "0101" ++ undo_entry_170 ++ repeat 0xcc 32.
Definition undo_record_170 : list byte := undo_header_170 ++ undo_body_170.

(** A transaction that spends one P2WPKH output of 3000 satoshis into
    one P2WPKH output of 500 satoshis, with the sequence [fffffffd]. *)
Definition spend_prev_hash : Hash :=
  bytes_of_hex "3ba3edfd7a7b12b27ac72c3e67768f617fc81bc3888a51323a9fb8aa4b1e5e4a".

Definition spend_tx : MsgTx :=
  {| tx_Version := 2;
     tx_TxIn :=
       [{| PreviousOutPoint := {| op_Hash := spend_prev_hash; op_Index := 0 |};
           SignatureScript := [];
           Witness := [repeat 0x30 71;
                       bytes_of_hex "0279be667ef9dcbbac55a06295ce870b07029bfcdb2dce28d959f2815b16f81798"];
           Sequence := 0xfffffffd |}];
     tx_TxOut :=
       [{| Value := 500;
           PkScript := bytes_of_hex "0014751e76e8199196d454941c45d1b3a323f1433bd6" |}];
     tx_LockTime := 0 |}.

Definition spend_fixture : Fixture :=
  {| Network := "testnet";
     RawTx := Hex.EncodeToString (MsgTx_Serialize spend_tx);
     Prevouts :=
       [{| Txid := Hash_String spend_prev_hash;
           Vout := 0;
           P_ValueSats := 3000;
           P_ScriptPubkeyHex := "0014751e76e8199196d454941c45d1b3a323f1433bd6" |}] |}.

End Reference.

(** * The vocabulary of the statements

    The formulas, templates and shapes of input in which the properties
    below are stated. *)

(** A value of Go's [byte], and a slice of them. *)
Definition is_byte (b : Z) : Prop := 0 <= b < 256.

Definition all_bytes (s : list byte) : Prop := Forall is_byte s.

Section Vocabulary.
Context {FL : Float64} {BU : Btcutil} {BD : Btcd} {RT : Runtime}.
Import Utils Analyzer Parser.

(** The decompression formula over the integers, as the specification
    words it. *)
Definition DecompressAmount_spec (x : Z) : Z :=
  if x =? 0 then 0
  else
    let x := x - 1 in
    let e := x mod 10 in
    let x := x / 10 in
    if e <? 9 then ((x / 9) * 10 + (x mod 9) + 1) * 10 ^ e
    else (x + 1) * 10 ^ 9.

(** The two steps of the CVarInt decoding, as the specification words
    them: take in the low seven bits of a byte, and count one more for a
    continuation. *)
Definition varint_take (n : Z) (b : byte) : Z :=
  Z.lor (wrap64 (Z.shiftl n 7)) (Z.land b 0x7f).

Definition varint_continue (n : Z) (b : byte) : Z :=
  wrap64 (varint_take n b + 1).

(** The value of continuation bytes [cs] closed by the byte [t]. *)
Definition varint_value (cs : list byte) (t : byte) : Z :=
  varint_take (fold_left varint_continue cs 0) t.

Definition top_bit_set (b : byte) : Prop := Z.land b 0x80 <> 0.

(** The byte templates of the specification. *)
Definition p2pkh_template (s : list byte) : Prop :=
  exists h, List.length h = 20%nat /\ s = [0x76; 0xa9; 0x14] ++ h ++ [0x88; 0xac].

Definition p2sh_template (s : list byte) : Prop :=
  exists h, List.length h = 20%nat /\ s = [0xa9; 0x14] ++ h ++ [0x87].

Definition p2wpkh_template (s : list byte) : Prop :=
  exists h, List.length h = 20%nat /\ s = [0x00; 0x14] ++ h.

Definition p2wsh_template (s : list byte) : Prop :=
  exists h, List.length h = 32%nat /\ s = [0x00; 0x20] ++ h.

Definition p2tr_template (s : list byte) : Prop :=
  exists h, List.length h = 32%nat /\ s = [0x51; 0x20] ++ h.

Definition op_return_template (s : list byte) : Prop :=
  exists rest, s = 0x6a :: rest.

(** The tests of [ClassifyOutputScript], one per [if]. *)
Definition p2pkh_test (s : list byte) : bool :=
  (len s =? 25) && (idx s 0 =? 0x76) && (idx s 1 =? 0xa9) && (idx s 2 =? 0x14)
  && (idx s 23 =? 0x88) && (idx s 24 =? 0xac).

Definition p2sh_test (s : list byte) : bool :=
  (len s =? 23) && (idx s 0 =? 0xa9) && (idx s 1 =? 0x14) && (idx s 22 =? 0x87).

Definition p2wpkh_test (s : list byte) : bool :=
  (len s =? 22) && (idx s 0 =? 0x00) && (idx s 1 =? 0x14).

Definition p2wsh_test (s : list byte) : bool :=
  (len s =? 34) && (idx s 0 =? 0x00) && (idx s 1 =? 0x20).

Definition p2tr_test (s : list byte) : bool :=
  (len s =? 34) && (idx s 0 =? 0x51) && (idx s 1 =? 0x20).

Definition op_return_test (s : list byte) : bool :=
  (len s >? 0) && (idx s 0 =? 0x6a).

(** The address of a script under given network parameters: the payload
    slice and the constructor of each type of [GetAddressFromScript]. *)
Definition address_with (netParams : Params) (scriptPubkey : list byte)
  : option string :=
  let scriptType := ClassifyOutputScript scriptPubkey in
  if String.eqb scriptType "p2pkh" then
    encode_or_nil (NewAddressPubKeyHash (slice scriptPubkey 3 23) netParams)
  else if String.eqb scriptType "p2sh" then
    encode_or_nil (NewAddressScriptHash (slice scriptPubkey 2 22) netParams)
  else if String.eqb scriptType "p2wpkh" then
    encode_or_nil (NewAddressWitnessPubKeyHash (slice scriptPubkey 2 22) netParams)
  else if String.eqb scriptType "p2wsh" then
    encode_or_nil (NewAddressWitnessScriptHash (slice scriptPubkey 2 34) netParams)
  else if String.eqb scriptType "p2tr" then
    encode_or_nil (NewAddressTaproot (slice scriptPubkey 2 34) netParams)
  else None.

Definition pick (c : bool) (code : string) : list Warning :=
  if c then [{| Code := code |}] else [].

Definition high_fee (feeSats : Z) (feeRate : float64) : bool :=
  (feeSats >? 1000000) || fgt feeRate (float64_of_int 200).

(** [⌈w/4⌉] *)
Definition ceil_div4 (w : Z) : Z := - ((- w) / 4).

(** The reader that has [pre] behind it and [s] ahead. *)
Definition reader_at (pre s : list byte) : Reader :=
  {| buf := pre ++ s; off := len pre |}.

(** A computation that returns a suffix of the stream it was given. *)
Definition consumes {A} (m : Rd A) : Prop :=
  forall s a s', m s = Ok (a, s') -> exists c, s = c ++ s'.

Definition no_match : error :=
  Errorf "parseUndoFile: no matching undo record found in rev file".

(** One turn of the loop, read off the bytes ahead of a reader whose
    offset is [start]. *)
Definition step_on (want start : Z) (s : list byte) : undo_step :=
  match ReadFull 8 s with
  | Err _ => Return (Err no_match)
  | Ok (header, s1) =>
      match ReadCompactSize s1 with
      | Err e => Return (Err (Wrapf "parseUndoFile: failed to read tx undo count" e))
      | Ok (c, s2) =>
          if negb (c =? want) then Continue (start + 8 + undoSize_of header + 32)
          else match read_block_undo c s2 with
               | Err e => Return (Err e)
               | Ok (allPrevouts, _) => Return (Ok allPrevouts)
               end
      end
  end.

(** The size field of a record's header: bytes 4 to 7, the lowest byte
    first. *)
Definition record_size (header : list byte) : Z :=
  match header with
  | [_; _; _; _; b4; b5; b6; b7] => b4 + 2 ^ 8 * b5 + 2 ^ 16 * b6 + 2 ^ 24 * b7
  | _ => 0
  end.

(** A record of the rev file for another block: 8 bytes of magic and
    size, a payload of that size that starts with the CompactSize of a
    count other than the wanted one, and the 32 bytes of the hash. *)
Definition mismatched_record (want : Z) (header payload hash : list byte) : Prop :=
  List.length header = 8%nat
  /\ all_bytes header
  /\ len payload = record_size header
  /\ List.length hash = 32%nat
  /\ exists c rest, ReadCompactSize payload = Ok (c, rest) /\ c <> want.

(** The bytes that follow the marker of a CompactSize. *)
Definition count_width (marker : byte) : Z :=
  if marker =? 0xfd then 2
  else if marker =? 0xfe then 4
  else if marker =? 0xff then 8
  else 0.

(** A CompactSize that the end of the stream cuts short, and the error
    of reading it: nothing is left, or a marker is followed by fewer
    bytes than it announces. *)
Inductive cut_count : list byte -> error -> Prop :=
| cut_empty : cut_count [] io_EOF
| cut_marker (m : byte) :
    0 < count_width m -> cut_count [m] io_EOF
| cut_inside (m b : byte) (t : list byte) :
    1 + len t < count_width m -> cut_count (m :: b :: t) io_ErrUnexpectedEOF.

(** The end of the file comes before a record with the wanted count, and
    the error that the decoder then returns: fewer than 8 bytes are left
    where a record would start; or the file ends in the count behind a
    header; or the record ahead has another count and the same holds at
    the byte [size + 32] behind its header. *)
Inductive ends_before_match (want : Z) : list byte -> error -> Prop :=
| eb_header (s : list byte) :
    len s < 8 -> ends_before_match want s no_match
| eb_count (header body : list byte) (e : error) :
    List.length header = 8%nat ->
    cut_count body e ->
    ends_before_match want (header ++ body)
      (Wrapf "parseUndoFile: failed to read tx undo count" e)
| eb_skip (header body : list byte) (c : Z) (rest : list byte) (err : error) :
    List.length header = 8%nat ->
    all_bytes header ->
    ReadCompactSize body = Ok (c, rest) ->
    c <> want ->
    ends_before_match want (skipn (Z.to_nat (record_size header + 32)) body) err ->
    ends_before_match want (header ++ body) err.

(** A computation whose result stands when the stream is extended. *)
Definition extends {A} (m : Rd A) : Prop :=
  forall s a s' t, m s = Ok (a, s') -> m (s ++ t) = Ok (a, s' ++ t).

End Vocabulary.

(** ** Vocabulary for the remaining functions *)

(** The items of a script that the disassembler renders one by one: an
    opcode with no data behind it, a direct push of 1 to 75 bytes, or
    an [OP_PUSHDATA1] with its length byte and up to 255 bytes. *)
Inductive script_item : Type :=
| Op (op : byte)
| Push (data : list byte)
| PushData1 (data : list byte).

Definition well_formed_item (it : script_item) : Prop :=
  match it with
  | Op op => op = 0 \/ 0x4e < op
  | Push data => 1 <= Analyzer.len data <= 75
  | PushData1 data => Analyzer.len data <= 255
  end.

Definition assemble_item (it : script_item) : list byte :=
  match it with
  | Op op => [op]
  | Push data => Analyzer.len data :: data
  | PushData1 data => 0x4c :: Analyzer.len data :: data
  end.

Definition assemble (items : list script_item) : list byte :=
  List.concat (map assemble_item items).

(** The text of an item in a disassembly. *)
Definition render (it : script_item) : string :=
  match it with
  | Op op => if op =? 0 then "OP_0" else Script.opcodeToName op
  | Push data =>
      ("OP_PUSHBYTES_" ++ Sprintf_d (Analyzer.len data) ++ " "
       ++ Hex.EncodeToString data)%string
  | PushData1 data => ("OP_PUSHDATA1 " ++ Hex.EncodeToString data)%string
  end.

(** The data that an item pushes. *)
Definition payload (it : script_item) : list byte :=
  match it with
  | Op _ => []
  | Push data | PushData1 data => data
  end.

Definition is_push (it : script_item) : Prop :=
  match it with
  | Op _ => False
  | Push _ | PushData1 _ => True
  end.

(** Bytes of seven bits. *)
Definition is_ascii (s : list byte) : Prop := Forall (fun b => 0 <= b < 0x80) s.

(** What ends the collection of pushes: the end of the script, an opcode
    that is no push, or a direct push longer than what is left. *)
Definition leaves (tail : list byte) : Prop :=
  match tail with
  | [] => True
  | op :: rest =>
      op = 0 \/ 0x4e < op \/ (1 <= op <= 0x4b /\ Analyzer.len rest < op)
  end.

(** An error that carries a message of the analyzer or a panic, as
    opposed to the bare end of a stream. *)
Definition wrapped (e : error) : Prop :=
  match e with
  | Wrapf _ _ | Panic _ => True
  | _ => False
  end.

(** [m[t]] for a map of counters: zero for a key that is not there. *)
Definition counter (t : string) (m : list (string * Z)) : Z :=
  match find (fun kv => String.eqb (fst kv) t) m with
  | Some (_, n) => n
  | None => 0
  end.

(** The number of elements that satisfy a test. *)
Definition count_if {A} (f : A -> bool) (l : list A) : Z :=
  Z.of_nat (List.length (filter f l)).

(** The bytes [cs ++ [t]] are one CVarInt: continuation bytes closed by
    a byte with the top bit clear. *)
Definition is_varint (cs : list byte) (t : byte) : Prop :=
  Forall top_bit_set cs /\ Z.land t 0x80 = 0.

(** What stands between the code and the amount of an undo entry: a
    CVarInt when the height in the code is positive, nothing
    otherwise. *)
Definition dummy_for (nCode : Z) (dummy : list byte) : Prop :=
  if Z.shiftr nCode 1 >? 0
  then exists cs t, is_varint cs t /\ dummy = cs ++ [t]
  else dummy = [].

Section PrevoutVocabulary.
Context {FL : Float64} {BU : Btcutil} {BD : Btcd}.

(** The outpoint that a prevout of a fixture is given for. *)
Definition outpoint_of (p : PrevoutInput) : pkey := (Txid p, Vout p).

(** An input that is no coinbase input and for which the fixture gives
    no prevout. *)
Definition lacks_prevout (prevouts : list PrevoutInput) (txIn : TxIn) : bool :=
  negb (isCoinbaseInput txIn)
  && negb (existsb (fun p => pkey_eqb (key_of txIn) (outpoint_of p)) prevouts).

(** The sum of amounts over the integers. *)
Definition total (amounts : list Z) : Z := fold_right Z.add 0 amounts.

End PrevoutVocabulary.

(** Further sample data: the recorded spend with its prevout given twice
    and with no prevout. *)
Module Samples.
Import Reference.

Definition spend_fixture_twice : Fixture :=
  {| Network := Network spend_fixture;
     RawTx := RawTx spend_fixture;
     Prevouts := Prevouts spend_fixture ++ Prevouts spend_fixture |}.

Definition spend_fixture_bare : Fixture :=
  {| Network := Network spend_fixture;
     RawTx := RawTx spend_fixture;
     Prevouts := [] |}.

(** A rev file whose only record is the one for a block of a single
    transaction. *)
Definition genesis_rev : Reader := {| buf := undo_record_1; off := 0 |}.


End Samples.

(** * Properties *)

(** ** Machine integers *)


Lemma wrap64_small (x : Z) : 0 <= x < two64 -> wrap64 x = x.
Proof. intro H. unfold wrap64. apply Z.mod_small. exact H. Qed.

Lemma to_int64_wrap64 (x : Z) : to_int64 (wrap64 x) = to_int64 x.
Proof.
  unfold to_int64, wrap64. rewrite Z.mod_mod by (unfold two64; lia). reflexivity.
Qed.

Lemma to_int64_small (x : Z) : 0 <= x < two63 -> to_int64 x = x.
Proof.
  intro H. unfold to_int64.
  assert (Hlt : two63 < two64) by reflexivity.
  rewrite Z.mod_small by lia.
  destruct (x <? two63) eqn:E; [reflexivity|].
  apply Z.ltb_ge in E. lia.
Qed.


Lemma lor_shifted (h c n : Z) :
  0 <= n -> 0 <= h < 2 ^ n -> Z.lor h (c * 2 ^ n) = h + c * 2 ^ n.
Proof.
  intros Hn Hh.
  assert (Hland : Z.land h (c * 2 ^ n) = 0).
  { apply Z.bits_inj'. intros m Hm. rewrite Z.land_spec, Z.bits_0.
    destruct (Z.lt_ge_cases m n) as [Hlt|Hge].
    - rewrite Z.mul_pow2_bits_low by lia. apply andb_false_r.
    - rewrite <- (Z.mod_small h (2 ^ n)) by exact Hh.
      rewrite Z.mod_pow2_bits_high by lia. reflexivity. }
  rewrite <- Z.lxor_lor by exact Hland.
  symmetry. apply Z.add_nocarry_lxor. exact Hland.
Qed.

(** ** XOR decoding *)

Section XOR.
Import Utils.

Lemma lxor_twice (d k : Z) : Z.lxor (Z.lxor d k) k = d.
Proof.
  rewrite Z.lxor_assoc, Z.lxor_nilpotent, Z.lxor_0_r. reflexivity.
Qed.

Lemma xor_from_twice (key data : list byte) :
  forall i, xor_from i (xor_from i data key) key = data.
Proof.
  induction data as [|d rest IH]; intro i; simpl.
  - reflexivity.
  - rewrite lxor_twice, IH. reflexivity.
Qed.

Lemma xor_from_length (key data : list byte) :
  forall i, List.length (xor_from i data key) = List.length data.
Proof.
  induction data as [|d rest IH]; intro i; simpl; [|rewrite IH]; reflexivity.
Qed.

(** C9. Decoding twice with the same key gives the data back, and
    decoding keeps the length, for every data and every key, the empty
    and the all-zero keys included. *)
Theorem XORDecode_involutive (data key : list byte) :
  XORDecode (XORDecode data key) key = data
  /\ List.length (XORDecode data key) = List.length data.
Proof.
  unfold XORDecode. destruct key as [|k key']; [split; reflexivity|].
  destruct (allZero (k :: key')); [split; reflexivity|].
  split; [apply xor_from_twice | apply xor_from_length].
Qed.

End XOR.

(** ** Amount decompression *)

Section Amounts.
Import Utils.

Lemma mul10_iter (k : nat) (n : Z) :
  0 <= n < two64 ->
  Nat.iter k (fun n => wrap64 (n * 10)) n = wrap64 (n * 10 ^ Z.of_nat k).
Proof.
  intro Hn. induction k as [|k IH].
  - simpl. rewrite Z.mul_1_r. symmetry. apply wrap64_small. exact Hn.
  - rewrite Nat.iter_succ, IH. unfold wrap64.
    rewrite Z.mul_mod_idemp_l by (unfold two64; lia).
    rewrite Nat2Z.inj_succ, Z.pow_succ_r by lia.
    f_equal. ring.
Qed.

Lemma mul10_loop_spec (e n : Z) :
  0 <= e -> 0 <= n < two64 -> mul10_loop e n = wrap64 (n * 10 ^ e).
Proof.
  intros He Hn. unfold mul10_loop. rewrite mul10_iter by exact Hn.
  rewrite Z2Nat.id by exact He. reflexivity.
Qed.

Lemma DecompressAmount_spec_nonneg (x : Z) : 0 <= x -> 0 <= DecompressAmount_spec x.
Proof.
  intro Hx. unfold DecompressAmount_spec.
  destruct (x =? 0) eqn:E0; [lia|]. apply Z.eqb_neq in E0. cbv zeta.
  assert (0 <= (x - 1) / 10) by (apply Z.div_pos; lia).
  assert (0 <= (x - 1) / 10 / 9) by (apply Z.div_pos; lia).
  pose proof (Z.mod_pos_bound ((x - 1) / 10) 9 ltac:(lia)).
  pose proof (Z.mod_pos_bound (x - 1) 10 ltac:(lia)).
  destruct (_ <? 9); apply Z.mul_nonneg_nonneg; try lia;
    apply Z.pow_nonneg; lia.
Qed.

Lemma DecompressAmount_wrapped (x : Z) :
  0 <= x < two64 -> DecompressAmount x = to_int64 (DecompressAmount_spec x).
Proof.
  intros Hx. unfold DecompressAmount, DecompressAmount_spec.
  destruct (x =? 0) eqn:E0; [reflexivity|]. apply Z.eqb_neq in E0.
  rewrite (wrap64_small (x := x - 1)) by lia. cbv zeta.
  set (x1 := (x - 1) / 10).
  assert (H64 : two64 = 18446744073709551616) by reflexivity.
  assert (Hx1 : 0 <= x1 < 1844674407370955162).
  { unfold x1. split; [apply Z.div_pos; lia|].
    apply Z.div_lt_upper_bound; lia. }
  pose proof (Z.mod_pos_bound (x - 1) 10 ltac:(lia)) as He.
  destruct ((x - 1) mod 10 <? 9) eqn:E9.
  - pose proof (Z.mod_pos_bound x1 9 ltac:(lia)) as Hd.
    assert (Hq : 0 <= x1 / 9 < 204963823041217241).
    { split; [apply Z.div_pos; lia|]. apply Z.div_lt_upper_bound; lia. }
    rewrite (wrap64_small (x := x1 mod 9 + 1)) by lia.
    rewrite (wrap64_small (x := x1 / 9 * 10)) by lia.
    rewrite (wrap64_small (x := x1 / 9 * 10 + (x1 mod 9 + 1))) by lia.
    rewrite mul10_loop_spec by lia.
    rewrite to_int64_wrap64. f_equal. ring.
  - rewrite (wrap64_small (x := x1 + 1)) by lia.
    rewrite mul10_loop_spec by lia.
    rewrite to_int64_wrap64. reflexivity.
Qed.

(** C2 (amended). For every 64-bit [x] the result is the value of the
    formula reduced modulo 2^64 and read as a signed 64-bit integer; it
    is 0 for [x = 0]; and it is the value of the formula itself whenever
    that value is below 2^63. *)
Theorem DecompressAmount_correct (x : Z) :
  0 <= x < two64 ->
  DecompressAmount x = to_int64 (DecompressAmount_spec x)
  /\ (x = 0 -> DecompressAmount x = 0)
  /\ (DecompressAmount_spec x < two63 ->
      DecompressAmount x = DecompressAmount_spec x).
Proof.
  intro Hx. split; [apply DecompressAmount_wrapped; exact Hx|]. split.
  - intros ->. reflexivity.
  - intro Hlt. rewrite DecompressAmount_wrapped by exact Hx.
    apply to_int64_small. split; [|exact Hlt].
    apply DecompressAmount_spec_nonneg. lia.
Qed.

(** The compressed form of one bitcoin: 10^8 satoshis. *)
Lemma DecompressAmount_correct_witness :
  0 <= 9 < two64
  /\ DecompressAmount 9 = 100000000
  /\ DecompressAmount 9 = DecompressAmount_spec 9.
Proof.
  assert (H : 0 <= 9 < two64) by (unfold two64; lia).
  destruct (DecompressAmount_correct H) as (_ & _ & Hexact).
  split; [exact H|]. split; [reflexivity|].
  apply Hexact. vm_compute. reflexivity.
Defined.

(** C2 as stated fails once the formula leaves the range of [int64]: at
    [x = 92233720370] the formula gives [9223372037 * 10^9], which is
    above 2^63, and the function returns a negative amount. *)
Lemma DecompressAmount_overflow :
  DecompressAmount_spec 92233720370 = 9223372037000000000
  /\ DecompressAmount 92233720370 = -9223372036709551616
  /\ DecompressAmount 92233720370 <> DecompressAmount_spec 92233720370.
Proof.
  split; [vm_compute; reflexivity|].
  split; [vm_compute; reflexivity|].
  vm_compute. discriminate.
Qed.

End Amounts.

(** ** Variable-length integers *)

Section VarInts.
Import Utils.

(** Reading as many bytes as a prefix has gives the prefix. *)
Lemma ReadFull_app (bs rest : list byte) :
  ReadFull (Z.of_nat (List.length bs)) (bs ++ rest) = Ok (bs, rest).
Proof.
  unfold ReadFull. destruct bs as [|b bs]; [reflexivity|].
  destruct (Z.of_nat (List.length (b :: bs)) <=? 0) eqn:E0.
  { apply Z.leb_le in E0. simpl List.length in E0. lia. }
  cbn [app].
  destruct (Z.of_nat (List.length (b :: bs ++ rest)) <? _) eqn:E1.
  { apply Z.ltb_lt in E1. simpl List.length in E1. rewrite length_app in E1. lia. }
  rewrite Nat2Z.id.
  change (b :: bs ++ rest) with ((b :: bs) ++ rest).
  rewrite firstn_app, skipn_app, firstn_all, skipn_all, Nat.sub_diag.
  simpl. rewrite app_nil_r. reflexivity.
Qed.

Lemma binary_Read_le_app (bs rest : list byte) :
  binary_Read_le (Z.of_nat (List.length bs)) (bs ++ rest) = Ok (le_decode bs, rest).
Proof.
  unfold binary_Read_le, bind. rewrite ReadFull_app. reflexivity.
Qed.

Lemma ReadBitcoinVarInt_loop_app (cs : list byte) (t : byte) (rest : list byte) :
  Forall top_bit_set cs -> Z.land t 0x80 = 0 ->
  forall n,
    ReadBitcoinVarInt_loop n (cs ++ t :: rest)
    = Ok (varint_take (fold_left varint_continue cs n) t, rest).
Proof.
  intros Hcs Ht. induction Hcs as [|c cs Hc _ IH]; intro n; simpl.
  - rewrite Ht. reflexivity.
  - apply Z.eqb_neq in Hc. rewrite Hc. apply IH.
Qed.

Lemma ReadBitcoinVarInt_loop_fails (s : list byte) :
  forall n, is_Err (ReadBitcoinVarInt_loop n s) = true <-> Forall top_bit_set s.
Proof.
  induction s as [|b s IH]; intro n; simpl.
  - split; [constructor | reflexivity].
  - destruct (Z.land b 128 =? 0) eqn:E.
    + apply Z.eqb_eq in E. split; [discriminate|].
      intro H. inversion H; subst. contradiction.
    + apply Z.eqb_neq in E. rewrite IH. split.
      * intro H. constructor; assumption.
      * intro H. inversion H; assumption.
Qed.

Lemma ReadBitcoinVarInt_loop_error (s : list byte) :
  forall n e, ReadBitcoinVarInt_loop n s = Err e -> e = io_EOF.
Proof.
  induction s as [|b s IH]; intros n e; simpl.
  - congruence.
  - destruct (Z.land b 128 =? 0); [discriminate | apply IH].
Qed.

(** C3. [ReadBitcoinVarInt] starts from 0; for each byte [b] it sets
    [n = (n << 7) | (b & 0x7F)], returns [n] when the top bit of [b] is
    clear and otherwise adds 1 to [n] and reads on, so that continuation
    bytes [cs] closed by a byte [t] decode to [varint_value cs t] and
    leave the rest of the stream; it fails exactly when every
    byte left in the stream has its top bit set, that is when the stream
    ends inside a value, and then with [io.EOF].  [ReadCompactSize] reads
    another format: a first byte below 0xFD is the value, and 0xFD, 0xFE
    and 0xFF announce 2, 4 and 8 little-endian bytes; the two decoders
    disagree on the bytes [fd 01 00]. *)
Theorem ReadBitcoinVarInt_decodes :
  (forall s, ReadBitcoinVarInt s = ReadBitcoinVarInt_loop 0 s)
  /\ (forall n b rest,
         Z.land b 0x80 = 0 ->
         ReadBitcoinVarInt_loop n (b :: rest)
         = Ok (Z.lor (wrap64 (Z.shiftl n 7)) (Z.land b 0x7f), rest))
  /\ (forall n b rest,
         Z.land b 0x80 <> 0 ->
         ReadBitcoinVarInt_loop n (b :: rest)
         = ReadBitcoinVarInt_loop
             (wrap64 (Z.lor (wrap64 (Z.shiftl n 7)) (Z.land b 0x7f) + 1)) rest)
  /\ (forall cs t rest,
      Forall top_bit_set cs -> Z.land t 0x80 = 0 ->
      ReadBitcoinVarInt (cs ++ t :: rest) = Ok (varint_value cs t, rest))
  /\ (forall s, is_Err (ReadBitcoinVarInt s) = true <-> Forall top_bit_set s)
  /\ (forall s e, ReadBitcoinVarInt s = Err e -> e = io_EOF)
  /\ (forall b rest,
         b <> 0xfd -> b <> 0xfe -> b <> 0xff ->
         ReadCompactSize (b :: rest) = Ok (b, rest))
  /\ (forall b0 b1 rest,
         ReadCompactSize (0xfd :: b0 :: b1 :: rest) = Ok (le_decode [b0; b1], rest))
  /\ (forall b0 b1 b2 b3 rest,
         ReadCompactSize (0xfe :: b0 :: b1 :: b2 :: b3 :: rest)
         = Ok (le_decode [b0; b1; b2; b3], rest))
  /\ (forall b0 b1 b2 b3 b4 b5 b6 b7 rest,
         ReadCompactSize (0xff :: b0 :: b1 :: b2 :: b3 :: b4 :: b5 :: b6 :: b7 :: rest)
         = Ok (le_decode [b0; b1; b2; b3; b4; b5; b6; b7], rest))
  /\ ReadCompactSize [0xfd; 0x01; 0x00] = Ok (1, [])
  /\ ReadBitcoinVarInt [0xfd; 0x01; 0x00] = Ok (16129, [0x00]).
Proof.
  split; [reflexivity|].
  split; [intros n b rest Hb; simpl; rewrite Hb; reflexivity|].
  split; [intros n b rest Hb; simpl; apply Z.eqb_neq in Hb; rewrite Hb; reflexivity|].
  split; [intros; apply ReadBitcoinVarInt_loop_app; assumption|].
  split; [intro s; apply ReadBitcoinVarInt_loop_fails|].
  split; [intros s e; apply ReadBitcoinVarInt_loop_error|].
  split.
  { intros b rest Hd He Hf. unfold ReadCompactSize, bind, ReadByte.
    apply Z.eqb_neq in Hd, He, Hf. rewrite Hd, He, Hf. reflexivity. }
  split; [intros; exact (binary_Read_le_app [b0; b1] rest)|].
  split; [intros; exact (binary_Read_le_app [b0; b1; b2; b3] rest)|].
  split; [intros; exact (binary_Read_le_app [b0; b1; b2; b3; b4; b5; b6; b7] rest)|].
  split; reflexivity.
Qed.

(** The two-byte encoding [80 00] of 128. *)
Lemma ReadBitcoinVarInt_decodes_witness :
  Forall top_bit_set [0x80] /\ Z.land 0x00 0x80 = 0
  /\ ReadBitcoinVarInt ([0x80] ++ 0x00 :: [0x42]) = Ok (128, [0x42]).
Proof.
  assert (Hcs : Forall top_bit_set [0x80])
    by (constructor; [discriminate | constructor]).
  assert (Ht : Z.land 0x00 0x80 = 0) by reflexivity.
  split; [exact Hcs|]. split; [exact Ht|].
  exact (proj1 (proj2 (proj2 (proj2 ReadBitcoinVarInt_decodes)))
           [0x80] 0x00 [0x42] Hcs Ht).
Defined.

End VarInts.

(** ** Output scripts *)

Section Classification.
Import Analyzer.

Lemma ClassifyOutputScript_tests (s : list byte) :
  ClassifyOutputScript s =
  if len s =? 0 then "unknown"
  else if p2pkh_test s then "p2pkh"
  else if p2sh_test s then "p2sh"
  else if p2wpkh_test s then "p2wpkh"
  else if p2wsh_test s then "p2wsh"
  else if p2tr_test s then "p2tr"
  else if op_return_test s then "op_return"
  else "unknown".
Proof. reflexivity. Qed.

(** A list of known length, element by element. *)
Ltac explode s :=
  repeat match goal with
         | H : List.length s = S _ |- _ =>
             destruct s as [|? s]; [discriminate H|];
             simpl in H; apply Nat.succ_inj in H
         | H : List.length s = O |- _ =>
             destruct s; [clear H | discriminate H]
         end.

Ltac split_tests H :=
  repeat match type of H with
         | (_ && _) = true => let H' := fresh "T" in
                              apply andb_prop in H; destruct H as [H H']
         end.

Ltac eqb_facts :=
  repeat match goal with
         | H : (_ =? _) = true |- _ => apply Z.eqb_eq in H
         end.

Lemma len_eq (s : list byte) (n : nat) : len s = Z.of_nat n -> List.length s = n.
Proof. unfold len. lia. Qed.

Lemma p2pkh_test_spec (s : list byte) : p2pkh_test s = true <-> p2pkh_template s.
Proof.
  unfold p2pkh_test, p2pkh_template. split.
  - intro H. split_tests H. eqb_facts. apply (len_eq s 25) in H.
    explode s. cbn in *. subst.
    eexists [_; _; _; _; _; _; _; _; _; _; _; _; _; _; _; _; _; _; _; _].
    split; reflexivity.
  - intros (h & Hh & ->). explode h. reflexivity.
Qed.

Lemma p2sh_test_spec (s : list byte) : p2sh_test s = true <-> p2sh_template s.
Proof.
  unfold p2sh_test, p2sh_template. split.
  - intro H. split_tests H. eqb_facts. apply (len_eq s 23) in H.
    explode s. cbn in *. subst.
    eexists [_; _; _; _; _; _; _; _; _; _; _; _; _; _; _; _; _; _; _; _].
    split; reflexivity.
  - intros (h & Hh & ->). explode h. reflexivity.
Qed.

Lemma p2wpkh_test_spec (s : list byte) : p2wpkh_test s = true <-> p2wpkh_template s.
Proof.
  unfold p2wpkh_test, p2wpkh_template. split.
  - intro H. split_tests H. eqb_facts. apply (len_eq s 22) in H.
    explode s. cbn in *. subst.
    eexists [_; _; _; _; _; _; _; _; _; _; _; _; _; _; _; _; _; _; _; _].
    split; reflexivity.
  - intros (h & Hh & ->). explode h. reflexivity.
Qed.

Lemma segwit32_test_spec (v : Z) (s : list byte) :
  (len s =? 34) && (idx s 0 =? v) && (idx s 1 =? 0x20) = true
  <-> exists h, List.length h = 32%nat /\ s = [v; 0x20] ++ h.
Proof.
  split.
  - intro H. split_tests H. eqb_facts. apply (len_eq s 34) in H.
    explode s. cbn in *. subst.
    eexists [_; _; _; _; _; _; _; _; _; _; _; _; _; _; _; _;
             _; _; _; _; _; _; _; _; _; _; _; _; _; _; _; _].
    split; reflexivity.
  - intros (h & Hh & ->). explode h. cbn. rewrite Z.eqb_refl. reflexivity.
Qed.

Lemma p2wsh_test_spec (s : list byte) : p2wsh_test s = true <-> p2wsh_template s.
Proof. apply (segwit32_test_spec 0x00). Qed.

Lemma p2tr_test_spec (s : list byte) : p2tr_test s = true <-> p2tr_template s.
Proof. apply (segwit32_test_spec 0x51). Qed.

Lemma op_return_test_spec (s : list byte) :
  op_return_test s = true <-> op_return_template s.
Proof.
  unfold op_return_test, op_return_template. split.
  - intro H. split_tests H. eqb_facts. destruct s as [|b rest]; [discriminate|].
    cbn in *. subst. eexists. reflexivity.
  - intros (rest & ->). unfold len. cbn [List.length idx nth].
    rewrite Z.eqb_refl, andb_true_r. apply Z.gtb_lt. lia.
Qed.

(** No script that starts with [6a] fits one of the five earlier
    templates, whose first bytes are [76], [a9], [00] and [51]. *)
Lemma op_return_excludes (s : list byte) :
  op_return_template s ->
  ~ p2pkh_template s /\ ~ p2sh_template s /\ ~ p2wpkh_template s
  /\ ~ p2wsh_template s /\ ~ p2tr_template s.
Proof.
  intros (rest & ->).
  repeat split; intros (h & _ & H); discriminate H.
Qed.

Lemma empty_no_template (s : list byte) :
  len s = 0 ->
  ~ p2pkh_template s /\ ~ p2sh_template s /\ ~ p2wpkh_template s
  /\ ~ p2wsh_template s /\ ~ p2tr_template s /\ ~ op_return_template s.
Proof.
  unfold len. intro H. destruct s; [|simpl in H; lia].
  repeat split; intros (h & H'); try destruct H' as (_ & H'); discriminate H'.
Qed.

(** What a successful test says about the length and the first byte. *)
Lemma test_shapes (s : list byte) :
  (p2pkh_test s = true -> len s = 25 /\ idx s 0 = 0x76)
  /\ (p2sh_test s = true -> len s = 23 /\ idx s 0 = 0xa9)
  /\ (p2wpkh_test s = true -> len s = 22 /\ idx s 0 = 0x00)
  /\ (p2wsh_test s = true -> len s = 34 /\ idx s 0 = 0x00)
  /\ (p2tr_test s = true -> len s = 34 /\ idx s 0 = 0x51)
  /\ (op_return_test s = true -> idx s 0 = 0x6a).
Proof.
  unfold p2pkh_test, p2sh_test, p2wpkh_test, p2wsh_test, p2tr_test, op_return_test.
  repeat match goal with |- _ /\ _ => split end;
    intro H; split_tests H; eqb_facts; try split; assumption.
Qed.

(** The length of a script of each address-bearing type. *)
Lemma ClassifyOutputScript_len (s : list byte) :
  (ClassifyOutputScript s = "p2pkh" -> len s = 25)
  /\ (ClassifyOutputScript s = "p2sh" -> len s = 23)
  /\ (ClassifyOutputScript s = "p2wpkh" -> len s = 22)
  /\ (ClassifyOutputScript s = "p2wsh" -> len s = 34)
  /\ (ClassifyOutputScript s = "p2tr" -> len s = 34).
Proof.
  rewrite ClassifyOutputScript_tests.
  pose proof (test_shapes s) as (S1 & S2 & S3 & S4 & S5 & _).
  destruct (len s =? 0); [repeat split; discriminate|].
  destruct (p2pkh_test s); [repeat split; try discriminate; intros _; apply S1; reflexivity|].
  destruct (p2sh_test s); [repeat split; try discriminate; intros _; apply S2; reflexivity|].
  destruct (p2wpkh_test s); [repeat split; try discriminate; intros _; apply S3; reflexivity|].
  destruct (p2wsh_test s); [repeat split; try discriminate; intros _; apply S4; reflexivity|].
  destruct (p2tr_test s); [repeat split; try discriminate; intros _; apply S5; reflexivity|].
  destruct (op_return_test s); repeat split; discriminate.
Qed.

(** C6. The classification returns each type exactly on the template of
    the specification: [p2pkh] on the 25 bytes [76 a9 14 <20> 88 ac],
    [p2sh] on the 23 bytes [a9 14 <20> 87], [p2wpkh] on 22 bytes that
    start [00 14], [p2wsh] on 34 bytes that start [00 20], [p2tr] on 34
    bytes that start [51 20], [op_return] on every script whose first
    byte is [6a] (none of which fits an earlier template), and [unknown]
    on everything else. *)
Theorem ClassifyOutputScript_templates (s : list byte) :
  (ClassifyOutputScript s = "p2pkh" <-> p2pkh_template s)
  /\ (ClassifyOutputScript s = "p2sh" <-> p2sh_template s)
  /\ (ClassifyOutputScript s = "p2wpkh" <-> p2wpkh_template s)
  /\ (ClassifyOutputScript s = "p2wsh" <-> p2wsh_template s)
  /\ (ClassifyOutputScript s = "p2tr" <-> p2tr_template s)
  /\ (ClassifyOutputScript s = "op_return" <-> op_return_template s)
  /\ (ClassifyOutputScript s = "op_return" <->
      op_return_template s
      /\ ~ p2pkh_template s /\ ~ p2sh_template s /\ ~ p2wpkh_template s
      /\ ~ p2wsh_template s /\ ~ p2tr_template s)
  /\ (ClassifyOutputScript s = "unknown" <->
      ~ p2pkh_template s /\ ~ p2sh_template s /\ ~ p2wpkh_template s
      /\ ~ p2wsh_template s /\ ~ p2tr_template s /\ ~ op_return_template s).
Proof.
  rewrite ClassifyOutputScript_tests.
  pose proof (op_return_excludes (s := s)) as Hex.
  destruct (len s =? 0) eqn:E0.
  { apply Z.eqb_eq in E0. pose proof (empty_no_template s E0) as Hempty.
    repeat split; try discriminate; try tauto. }
  clear E0.
  pose proof (test_shapes s) as (S1 & S2 & S3 & S4 & S5 & S6).
  rewrite <- p2pkh_test_spec, <- p2sh_test_spec, <- p2wpkh_test_spec,
    <- p2wsh_test_spec, <- p2tr_test_spec, <- op_return_test_spec in *.
  destruct (p2pkh_test s); destruct (p2sh_test s); destruct (p2wpkh_test s);
    destruct (p2wsh_test s); destruct (p2tr_test s); destruct (op_return_test s);
    try (exfalso;
         repeat match goal with
                | H : true = true -> _ |- _ => specialize (H eq_refl)
                | H : false = true -> _ |- _ => clear H
                end;
         lia);
    clear S1 S2 S3 S4 S5 S6 Hex;
    repeat split; try discriminate; try reflexivity;
    try (intros; discriminate);
    intuition discriminate.
Qed.

End Classification.

(** ** Addresses *)

Section Addresses.
Context {BU : Btcutil}.
Import Analyzer.

Lemma netParams_of_other (network : string) :
  network <> "mainnet" -> netParams_of network = TestNet3Params.
Proof.
  intro H. unfold netParams_of. apply String.eqb_neq in H. rewrite H. reflexivity.
Qed.

Lemma GetAddressFromScript_address_with (scriptPubkey : list byte) (network : string) :
  GetAddressFromScript scriptPubkey network
  = address_with (netParams_of network) scriptPubkey.
Proof.
  unfold GetAddressFromScript, address_with. cbv zeta.
  pose proof (ClassifyOutputScript_len scriptPubkey) as (L1 & L2 & L3 & L4 & L5).
  destruct (String.eqb_spec (ClassifyOutputScript scriptPubkey) "p2pkh") as [E|_].
  { rewrite (L1 E). reflexivity. }
  destruct (String.eqb_spec (ClassifyOutputScript scriptPubkey) "p2sh") as [E|_].
  { rewrite (L2 E). reflexivity. }
  destruct (String.eqb_spec (ClassifyOutputScript scriptPubkey) "p2wpkh") as [E|_].
  { rewrite (L3 E). reflexivity. }
  destruct (String.eqb_spec (ClassifyOutputScript scriptPubkey) "p2wsh") as [E|_].
  { rewrite (L4 E). reflexivity. }
  destruct (String.eqb_spec (ClassifyOutputScript scriptPubkey) "p2tr") as [E|_].
  { rewrite (L5 E). reflexivity. }
  reflexivity.
Qed.

Lemma address_with_types (netParams : Params) (s : list byte) :
  (ClassifyOutputScript s = "p2pkh" ->
   address_with netParams s
   = encode_or_nil (NewAddressPubKeyHash (slice s 3 23) netParams))
  /\ (ClassifyOutputScript s = "p2sh" ->
      address_with netParams s
      = encode_or_nil (NewAddressScriptHash (slice s 2 22) netParams))
  /\ (ClassifyOutputScript s = "p2wpkh" ->
      address_with netParams s
      = encode_or_nil (NewAddressWitnessPubKeyHash (slice s 2 22) netParams))
  /\ (ClassifyOutputScript s = "p2wsh" ->
      address_with netParams s
      = encode_or_nil (NewAddressWitnessScriptHash (slice s 2 34) netParams))
  /\ (ClassifyOutputScript s = "p2tr" ->
      address_with netParams s
      = encode_or_nil (NewAddressTaproot (slice s 2 34) netParams)).
Proof.
  unfold address_with. cbv zeta.
  repeat split; intros ->; reflexivity.
Qed.

(** C10. Under every network tag other than the string [mainnet] (the
    tag [testnet], an unknown tag, the empty tag) the parameters are
    those of testnet3 and the address of a script of each of the five
    address-bearing types is built from its payload with them; it is the
    address under the tag [testnet], and no tag is rejected. *)
Theorem GetAddressFromScript_not_mainnet (s : list byte) (network : string) :
  network <> "mainnet" ->
  netParams_of network = TestNet3Params
  /\ GetAddressFromScript s network = GetAddressFromScript s "testnet"
  /\ (ClassifyOutputScript s = "p2pkh" ->
      GetAddressFromScript s network
      = encode_or_nil (NewAddressPubKeyHash (slice s 3 23) TestNet3Params))
  /\ (ClassifyOutputScript s = "p2sh" ->
      GetAddressFromScript s network
      = encode_or_nil (NewAddressScriptHash (slice s 2 22) TestNet3Params))
  /\ (ClassifyOutputScript s = "p2wpkh" ->
      GetAddressFromScript s network
      = encode_or_nil (NewAddressWitnessPubKeyHash (slice s 2 22) TestNet3Params))
  /\ (ClassifyOutputScript s = "p2wsh" ->
      GetAddressFromScript s network
      = encode_or_nil (NewAddressWitnessScriptHash (slice s 2 34) TestNet3Params))
  /\ (ClassifyOutputScript s = "p2tr" ->
      GetAddressFromScript s network
      = encode_or_nil (NewAddressTaproot (slice s 2 34) TestNet3Params)).
Proof.
  intro H. pose proof (netParams_of_other H) as Hn.
  split; [exact Hn|]. split.
  - rewrite !GetAddressFromScript_address_with, Hn. reflexivity.
  - rewrite GetAddressFromScript_address_with, Hn.
    apply address_with_types.
Qed.

End Addresses.

(** ** Transactions *)

Section TransactionProps.
Context {FL : Float64} {BU : Btcutil} {BD : Btcd}.

(** A fixture that parses went through every stage. *)
Lemma ParseTransaction_inv (fixture : Fixture) (out : TransactionOutput) :
  ParseTransaction fixture = Ok out ->
  exists raw tx rest m,
    Hex.HexToBytes (RawTx fixture) = Ok raw
    /\ MsgTx_Deserialize raw = Ok (tx, rest)
    /\ build_prevoutMap (Prevouts fixture) [] = Ok m
    /\ check_prevouts (tx_TxIn tx) m = Ok tt
    /\ out = tx_report (Network fixture) m tx.
Proof.
  unfold ParseTransaction, analyze_tx.
  destruct (Hex.HexToBytes (RawTx fixture)) as [raw|e] eqn:H1; [|discriminate].
  destruct (MsgTx_Deserialize raw) as [[tx rest]|e] eqn:H2; [|discriminate].
  destruct (build_prevoutMap (Prevouts fixture) []) as [m|e] eqn:H3; [|discriminate].
  destruct (check_prevouts (tx_TxIn tx) m) as [[]|e] eqn:H4; [|discriminate].
  intro H. exists raw, tx, rest, m. repeat split; congruence.
Qed.

(** *** Warnings *)

Lemma append_if_pick (c : bool) (code : string) (ws : list Warning) :
  append_if c code ws = ws ++ pick c code.
Proof. destruct c; simpl; [reflexivity | rewrite app_nil_r; reflexivity]. Qed.

Lemma GenerateWarnings_picks (feeSats : Z) (feeRate : float64) (rbf : bool)
    (outputs : list Output) :
  GenerateWarnings feeSats feeRate rbf outputs
  = pick (high_fee feeSats feeRate) "HIGH_FEE"
    ++ pick (existsb is_dust outputs) "DUST_OUTPUT"
    ++ pick (existsb is_unknown outputs) "UNKNOWN_OUTPUT_SCRIPT"
    ++ pick rbf "RBF_SIGNALING".
Proof.
  unfold GenerateWarnings. cbv zeta. rewrite !append_if_pick.
  rewrite app_nil_l, <- !app_assoc. reflexivity.
Qed.

Lemma In_pick (w : Warning) (c : bool) (code : string) :
  In w (pick c code) <-> c = true /\ w = {| Code := code |}.
Proof.
  destruct c; simpl; split.
  - intros [H|[]]. split; [reflexivity | symmetry; exact H].
  - intros [_ ->]. left. reflexivity.
  - intros [].
  - intros [H _]. discriminate H.
Qed.

Lemma existsb_is_dust (outputs : list Output) :
  existsb is_dust outputs = true <->
  exists o, In o outputs /\ ScriptType o <> "op_return" /\ ValueSats o < 546.
Proof.
  rewrite existsb_exists. unfold is_dust. split; intros (o & Hin & H); exists o.
  - apply andb_prop in H. destruct H as [Ht Hv].
    apply negb_true_iff, String.eqb_neq in Ht. apply Z.ltb_lt in Hv. auto.
  - destruct H as [Ht Hv]. split; [exact Hin|]. apply andb_true_intro. split.
    + apply negb_true_iff, String.eqb_neq. exact Ht.
    + apply Z.ltb_lt. exact Hv.
Qed.

Lemma existsb_is_unknown (outputs : list Output) :
  existsb is_unknown outputs = true <->
  exists o, In o outputs /\ ScriptType o = "unknown".
Proof.
  rewrite existsb_exists. unfold is_unknown.
  split; intros (o & Hin & H); exists o; (split; [exact Hin|]);
    apply String.eqb_eq; exact H.
Qed.

Lemma high_fee_spec (feeSats : Z) (feeRate : float64) :
  high_fee feeSats feeRate = true <->
  feeSats > 1000000 \/ fgt feeRate (float64_of_int 200) = true.
Proof.
  unfold high_fee. rewrite orb_true_iff, Z.gtb_gt. reflexivity.
Qed.

(** Membership of each code in a list of picks made in the fixed order. *)
Lemma In_picks (b1 b2 b3 b4 : bool) :
  let ws := pick b1 "HIGH_FEE" ++ pick b2 "DUST_OUTPUT"
            ++ pick b3 "UNKNOWN_OUTPUT_SCRIPT" ++ pick b4 "RBF_SIGNALING" in
  (In {| Code := "HIGH_FEE" |} ws <-> b1 = true)
  /\ (In {| Code := "DUST_OUTPUT" |} ws <-> b2 = true)
  /\ (In {| Code := "UNKNOWN_OUTPUT_SCRIPT" |} ws <-> b3 = true)
  /\ (In {| Code := "RBF_SIGNALING" |} ws <-> b4 = true).
Proof.
  cbv zeta. rewrite !in_app_iff, !In_pick.
  repeat split; intros; try tauto;
    repeat match goal with
           | H : _ \/ _ |- _ => destruct H
           | H : _ /\ _ |- _ => destruct H
           end; try assumption; discriminate.
Qed.

(** C7. In the report of every transaction that parses, [RBF_SIGNALING]
    is among the warnings iff [rbf_signaling] is true, [DUST_OUTPUT] iff
    some output that is not an [op_return] has a value below 546,
    [HIGH_FEE] iff the fee is above 1,000,000 or the fee rate above 200,
    and [UNKNOWN_OUTPUT_SCRIPT] iff some output has type [unknown]; the
    warnings are the codes that apply, each once, in the order
    [HIGH_FEE], [DUST_OUTPUT], [UNKNOWN_OUTPUT_SCRIPT], [RBF_SIGNALING]. *)
Theorem ParseTransaction_warnings (fixture : Fixture) (out : TransactionOutput) :
  ParseTransaction fixture = Ok out ->
  (In {| Code := "RBF_SIGNALING" |} (Warnings out) <-> RbfSignaling out = true)
  /\ (In {| Code := "DUST_OUTPUT" |} (Warnings out) <->
      exists o, In o (T_Vout out)
                /\ ScriptType o <> "op_return" /\ ValueSats o < 546)
  /\ (In {| Code := "HIGH_FEE" |} (Warnings out) <->
      FeeSats out > 1000000
      \/ fgt (FeeRateSatVb out) (float64_of_int 200) = true)
  /\ (In {| Code := "UNKNOWN_OUTPUT_SCRIPT" |} (Warnings out) <->
      exists o, In o (T_Vout out) /\ ScriptType o = "unknown")
  /\ (exists b1 b2 b3 b4 : bool,
         Warnings out
         = pick b1 "HIGH_FEE" ++ pick b2 "DUST_OUTPUT"
           ++ pick b3 "UNKNOWN_OUTPUT_SCRIPT" ++ pick b4 "RBF_SIGNALING").
Proof.
  intro H. apply ParseTransaction_inv in H.
  destruct H as (raw & tx & rest & m & _ & _ & _ & _ & ->).
  unfold tx_report. cbv zeta. cbn [Warnings RbfSignaling T_Vout FeeSats FeeRateSatVb].
  rewrite GenerateWarnings_picks.
  match goal with
  | |- context [pick ?b1 "HIGH_FEE" ++ pick ?b2 _ ++ pick ?b3 _ ++ pick ?b4 _] =>
      pose proof (In_picks b1 b2 b3 b4) as (P1 & P2 & P3 & P4)
  end.
  rewrite <- existsb_is_dust, <- existsb_is_unknown, <- high_fee_spec.
  repeat split; try tauto.
  do 4 eexists. reflexivity.
Qed.

(** *** Sizes *)

Lemma ceil_div4_spec (w : Z) : 4 * (ceil_div4 w - 1) < w <= 4 * ceil_div4 w.
Proof.
  unfold ceil_div4.
  pose proof (Z.div_mod (- w) 4 ltac:(lia)).
  pose proof (Z.mod_pos_bound (- w) 4 ltac:(lia)). lia.
Qed.

Lemma sizes_nonneg (tx : MsgTx) :
  0 <= SerializeSizeStripped tx /\ 0 <= SerializeSize tx.
Proof. unfold SerializeSizeStripped, SerializeSize. lia. Qed.

(** C8. For every transaction that parses, with [base_size] the length
    of its serialization without witness data and [total_size] the
    length of its full serialization (the arithmetic staying inside
    Go's [int]): [weight = base_size * 3 + total_size],
    [vbytes = (weight + 3) / 4] rounded down, and [vbytes] is within 1
    of [⌈weight/4⌉], in fact equal to it. *)
Theorem ParseTransaction_weight (fixture : Fixture) (raw : list byte)
    (tx : MsgTx) (rest : list byte) (out : TransactionOutput) :
  Hex.HexToBytes (RawTx fixture) = Ok raw ->
  MsgTx_Deserialize raw = Ok (tx, rest) ->
  ParseTransaction fixture = Ok out ->
  SerializeSizeStripped tx * 3 + SerializeSize tx + 3 < two63 ->
  SizeBytes out = SerializeSize tx
  /\ Weight out = SerializeSizeStripped tx * 3 + SerializeSize tx
  /\ Vbytes out = (Weight out + 3) / 4
  /\ Z.abs (Vbytes out - ceil_div4 (Weight out)) <= 1
  /\ Vbytes out = ceil_div4 (Weight out).
Proof.
  intros Hraw Htx H Hb. apply ParseTransaction_inv in H.
  destruct H as (raw' & tx' & rest' & m & Hraw' & Htx' & _ & _ & ->).
  assert (raw' = raw) by congruence. subst raw'.
  assert (tx' = tx) by congruence. subst tx'.
  split; [reflexivity|].
  unfold tx_report. cbv zeta. cbn [Weight Vbytes].
  pose proof (sizes_nonneg tx) as [Hs Ht].
  set (b := SerializeSizeStripped tx) in *. set (t := SerializeSize tx) in *.
  unfold int_add, int_mul, int_div.
  rewrite (to_int64_small (x := b * 3)) by lia.
  rewrite (to_int64_small (x := b * 3 + t)) by lia.
  rewrite (to_int64_small (x := b * 3 + t + 3)) by lia.
  rewrite Z.quot_div_nonneg by lia.
  assert (Hq : 0 <= (b * 3 + t + 3) / 4 < two63).
  { split; [apply Z.div_pos; lia|]. apply Z.div_lt_upper_bound; lia. }
  rewrite to_int64_small by exact Hq.
  assert (Hc : (b * 3 + t + 3) / 4 = ceil_div4 (b * 3 + t)).
  { pose proof (ceil_div4_spec (b * 3 + t)).
    pose proof (Z.div_mod (b * 3 + t + 3) 4 ltac:(lia)).
    pose proof (Z.mod_pos_bound (b * 3 + t + 3) 4 ltac:(lia)). lia. }
  repeat split; try reflexivity; try exact Hc.
  rewrite Hc. lia.
Qed.

End TransactionProps.

(** ** Blocks and undo files *)

Unset Implicit Arguments.

Section BlockProps.
Context {FL : Float64} {BU : Btcutil} {BD : Btcd} {RT : Runtime}.
Import Utils Analyzer Parser.

(** *** The Merkle root *)

Lemma merkle_level_pairs (l r : Hash) (rest : list Hash) :
  merkle_level (l :: r :: rest) = DoubleHashH (l ++ r) :: merkle_level rest.
Proof. reflexivity. Qed.

(** Node [i] of the next level hashes nodes [2i] and [2i+1] of this
    level, and node [2i] twice when it is the last one. *)
Lemma merkle_level_nth (hs : list Hash) :
  forall i d,
    (2 * i < List.length hs)%nat ->
    nth i (merkle_level hs) d =
    DoubleHashH (nth (2 * i) hs d
                 ++ (if Nat.ltb (2 * i + 1) (List.length hs)
                     then nth (2 * i + 1) hs d else nth (2 * i) hs d)).
Proof.
  induction hs as [hs IH] using (well_founded_induction
                                   (Wf_nat.well_founded_ltof _ (@List.length Hash))).
  intros i d Hi. destruct hs as [|a [|b rest]].
  - simpl in Hi. lia.
  - simpl in Hi. assert (i = 0)%nat by lia. subst i. reflexivity.
  - destruct i as [|i].
    + reflexivity.
    + rewrite merkle_level_pairs. cbn [nth].
      replace (2 * S i)%nat with (S (S (2 * i))) by lia.
      cbn [nth List.length].
      rewrite IH.
      * replace (S (S (2 * i)) + 1)%nat with (S (S (2 * i + 1))) by lia.
        cbn [nth].
        destruct (Nat.ltb_spec (2 * i + 1) (List.length rest));
          destruct (Nat.ltb_spec (S (S (2 * i + 1))) (S (S (List.length rest))));
          try lia; reflexivity.
      * unfold Wf_nat.ltof. simpl. lia.
      * simpl in Hi. lia.
Qed.

Lemma merkle_level_half (hs : list Hash) :
  List.length (merkle_level hs) = Nat.div2 (S (List.length hs)).
Proof.
  induction hs as [hs IH] using (well_founded_induction
                                   (Wf_nat.well_founded_ltof _ (@List.length Hash))).
  destruct hs as [|a [|b rest]]; try reflexivity.
  rewrite merkle_level_pairs. cbn [List.length Nat.div2]. f_equal.
  apply IH. unfold Wf_nat.ltof. simpl. lia.
Qed.

Lemma list_eqb_spec (a b : list byte) : list_eqb a b = true <-> a = b.
Proof.
  unfold list_eqb. destruct (list_eq_dec Z.eq_dec a b); split; congruence.
Qed.

Lemma parseOneBlock_read (blk : list byte) (rev : Reader)
    (header : WireBlockHeader) (txCount : Z) (txs : list MsgTx) (rest : list byte) :
  read_block blk = Ok ((header, txCount, txs), rest) ->
  parseOneBlock blk rev = check_block header txCount txs rev.
Proof. intro H. unfold parseOneBlock. rewrite H. reflexivity. Qed.

Lemma wrap_err_Ok_inv {A} (msg : string) (m : Rd A) (s : list byte) (r : A * list byte) :
  wrap_err msg m s = Ok r -> m s = Ok r.
Proof. unfold wrap_err. destruct (m s); [trivial | discriminate]. Qed.

Lemma ReadFull_split (n : Z) (s bs s' : list byte) :
  0 <= n -> ReadFull n s = Ok (bs, s') ->
  s = bs ++ s' /\ List.length bs = Z.to_nat n.
Proof.
  intros Hn H. unfold ReadFull in H. destruct (n <=? 0) eqn:E0.
  - apply Z.leb_le in E0.
    assert (bs = []) by congruence. assert (s' = s) by congruence. subst.
    split; [reflexivity|]. replace n with 0 by lia. reflexivity.
  - apply Z.leb_gt in E0. destruct s as [|b s0]; [discriminate|].
    destruct (Z.of_nat (List.length (b :: s0)) <? n) eqn:E1; [discriminate|].
    apply Z.ltb_ge in E1.
    assert (Hb : firstn (Z.to_nat n) (b :: s0) = bs) by congruence.
    assert (Hs : skipn (Z.to_nat n) (b :: s0) = s') by congruence.
    subst bs s'. split; [symmetry; apply firstn_skipn|].
    rewrite length_firstn. lia.
Qed.

(** The header of a block that was read holds the 80 bytes that follow
    the 8 bytes of magic and size, and its Merkle root is bytes 36 to 67
    of them. *)
Lemma read_block_header (blk : list byte) (header : WireBlockHeader)
    (txCount : Z) (txs : list MsgTx) (rest : list byte) :
  read_block blk = Ok ((header, txCount, txs), rest) ->
  h_raw header = firstn 80 (skipn 8 blk)
  /\ h_MerkleRoot header = firstn 32 (skipn 44 blk).
Proof.
  unfold read_block, bind.
  destruct (ReadFull 4 blk) as [[magic s1]|] eqn:E1; [|discriminate].
  destruct (wrap_err "failed to read block size" (ReadFull 4) s1)
    as [[sz s2]|] eqn:E2; [|discriminate].
  destruct (wrap_err "failed to parse block header" BlockHeader_Deserialize s2)
    as [[hd s3]|] eqn:E3; [|discriminate].
  destruct (wrap_err "failed to read tx count" ReadCompactSize s3)
    as [[cnt s4]|]; [|discriminate].
  destruct (repeat_rd_from 0 (Z.to_nat cnt) _ s4) as [[l s5]|]; [|discriminate].
  unfold ret. intro H. assert (Hhd : header = hd) by congruence. subst hd. clear H.
  apply ReadFull_split in E1; [|lia]. destruct E1 as [-> Hm].
  apply wrap_err_Ok_inv, ReadFull_split in E2; [|lia]. destruct E2 as [-> Hs].
  apply wrap_err_Ok_inv in E3. unfold BlockHeader_Deserialize, bind in E3.
  destruct (ReadFull 80 s2) as [[raw s3']|] eqn:E4; [|discriminate].
  apply ReadFull_split in E4; [|lia]. destruct E4 as [-> Hr].
  unfold ret in E3.
  injection E3 as Hh _. subst header. cbn [h_raw h_MerkleRoot].
  change (Z.to_nat 4) with 4%nat in *. change (Z.to_nat 80) with 80%nat in *.
  assert (H8 : skipn 8 (magic ++ sz ++ raw ++ s3') = raw ++ s3').
  { rewrite app_assoc.
    replace 8%nat with (List.length (magic ++ sz)) by (rewrite length_app; lia).
    rewrite skipn_app, skipn_all, Nat.sub_diag. reflexivity. }
  split.
  - rewrite H8. rewrite <- Hr at 1.
    rewrite firstn_app, firstn_all, Nat.sub_diag. simpl. rewrite app_nil_r. reflexivity.
  - replace 44%nat with (36 + 8)%nat by reflexivity.
    rewrite <- skipn_skipn, H8.
    unfold slice. change (Z.to_nat 36) with 36%nat.
    change (Z.to_nat (68 - 36)) with 32%nat.
    rewrite skipn_app.
    replace (36 - List.length raw)%nat with 0%nat by lia.
    rewrite skipn_O, firstn_app.
    replace (32 - List.length (skipn 36 raw))%nat with 0%nat
      by (rewrite length_skipn; lia).
    rewrite firstn_O, app_nil_r. reflexivity.
Qed.

(** C5. The Merkle root is computed level by level: node [i] of the next
    level is the double SHA-256 of nodes [2i] and [2i+1] joined, an odd
    last node being joined with itself, until one node is left.  When the
    root so computed differs from the Merkle root of the header (bytes 36
    to 67 of the header), the analysis of the block returns a record with
    [ok = false], the code [INVALID_MERKLE_ROOT] and the block hash, which
    is the double SHA-256 of the 80 header bytes in reverse order and in
    hexadecimal; the record holds no transaction and is the same whatever
    the undo file holds. *)
Theorem parseOneBlock_invalid_merkle_root :
  computeMerkleRoot [] = zero_hash
  /\ (forall h, computeMerkleRoot [h] = h)
  /\ (forall l r rest,
         computeMerkleRoot (l :: r :: rest)
         = computeMerkleRoot (merkle_level (l :: r :: rest)))
  /\ (forall hs i d,
         (2 * i < List.length hs)%nat ->
         nth i (merkle_level hs) d =
         DoubleHashH (nth (2 * i) hs d
                      ++ (if Nat.ltb (2 * i + 1) (List.length hs)
                          then nth (2 * i + 1) hs d else nth (2 * i) hs d)))
  /\ (forall hs, List.length (merkle_level hs) = Nat.div2 (S (List.length hs)))
  /\ (forall blk revReader header txCount txs rest,
         read_block blk = Ok ((header, txCount, txs), rest) ->
         computeMerkleRoot (map TxHash txs) <> h_MerkleRoot header ->
         let blockHash :=
           Hex.EncodeToString (List.rev (DoubleHashH (firstn 80 (skipn 8 blk)))) in
         h_MerkleRoot header = firstn 32 (skipn 44 blk)
         /\ exists out,
              parseOneBlock blk revReader = Ok out
              /\ out = failed_block blockHash "INVALID_MERKLE_ROOT"
                         ("computed merkle root does not match header (block "
                          ++ blockHash ++ ")")
              /\ B_OK out = false
              /\ option_map E_Code (B_Error out) = Some "INVALID_MERKLE_ROOT"
              /\ BlockHash (B_BlockHeader out) = blockHash
              /\ BlockHash (B_BlockHeader out) = BlockHash_of header
              /\ Transactions out = []
              /\ forall revReader', parseOneBlock blk revReader' = Ok out).
Proof.
  split; [apply computeMerkleRoot_equation_1|].
  split; [apply computeMerkleRoot_equation_2|].
  split; [apply computeMerkleRoot_equation_3|].
  split; [apply merkle_level_nth|].
  split; [apply merkle_level_half|].
  intros blk revReader header txCount txs rest Hread Hroot blockHash.
  destruct (read_block_header _ _ _ _ _ Hread) as [Hraw Hmr].
  split; [exact Hmr|].
  assert (Hne : list_eqb (computeMerkleRoot (map TxHash txs)) (h_MerkleRoot header)
                = false).
  { destruct (list_eqb _ _) eqn:E; [|reflexivity].
    apply list_eqb_spec in E. contradiction. }
  assert (Hhash : BlockHash_of header = blockHash).
  { unfold BlockHash_of, Hash_String, blockHash. rewrite Hraw. reflexivity. }
  assert (Hany : forall r,
             parseOneBlock blk r
             = Ok (failed_block blockHash "INVALID_MERKLE_ROOT"
                     ("computed merkle root does not match header (block "
                      ++ blockHash ++ ")"))).
  { intro r. erewrite parseOneBlock_read by exact Hread. unfold check_block. cbv zeta.
    rewrite Hne, Hhash. reflexivity. }
  eexists. split; [apply Hany|].
  split; [reflexivity|]. split; [reflexivity|]. split; [reflexivity|].
  split; [reflexivity|]. split; [symmetry; exact Hhash|].
  split; [reflexivity|]. exact Hany.
Qed.

(** *** Readers *)

Lemma remaining_reader_at (pre s : list byte) : remaining (reader_at pre s) = s.
Proof.
  unfold remaining, reader_at, len. cbn [buf off].
  rewrite length_app, Nat2Z.id.
  destruct (Z.of_nat (List.length pre + List.length s) <=? Z.of_nat (List.length pre))
    eqn:E.
  - apply Z.leb_le in E. destruct s; [reflexivity | simpl in E; lia].
  - rewrite skipn_app, skipn_all, Nat.sub_diag. reflexivity.
Qed.

Lemma reader_at_seek (pre s : list byte) (k : Z) :
  0 <= k <= len s ->
  {| buf := pre ++ s; off := len pre + k |}
  = reader_at (pre ++ firstn (Z.to_nat k) s) (skipn (Z.to_nat k) s).
Proof.
  intro Hk. unfold reader_at, len in *. f_equal.
  - rewrite <- app_assoc, firstn_skipn. reflexivity.
  - rewrite length_app, length_firstn. lia.
Qed.

Lemma consumes_ret {A} (a : A) : consumes (ret a).
Proof. intros s a' s' H. exists []. unfold ret in H. simpl. congruence. Qed.

Lemma consumes_bind {A B} (m : Rd A) (k : A -> Rd B) :
  consumes m -> (forall a, consumes (k a)) -> consumes (bind m k).
Proof.
  intros Hm Hk s b s'' H. unfold bind in H.
  destruct (m s) as [[a s']|e] eqn:E; [|discriminate].
  apply Hm in E. destruct E as (c1 & ->).
  apply Hk in H. destruct H as (c2 & ->).
  exists (c1 ++ c2). rewrite app_assoc. reflexivity.
Qed.

Lemma ReadFull_Ok (n : Z) (s bs s' : list byte) :
  ReadFull n s = Ok (bs, s') ->
  s = bs ++ s' /\ Z.of_nat (List.length bs) = Z.max 0 n.
Proof.
  unfold ReadFull. destruct (n <=? 0) eqn:E0.
  - apply Z.leb_le in E0. intro H.
    assert (bs = []) by congruence. assert (s' = s) by congruence. subst.
    split; [reflexivity | simpl; lia].
  - apply Z.leb_gt in E0. destruct s as [|b s0]; [discriminate|].
    destruct (Z.of_nat (List.length (b :: s0)) <? n) eqn:E1; [discriminate|].
    apply Z.ltb_ge in E1. intro H.
    assert (Hb : firstn (Z.to_nat n) (b :: s0) = bs) by congruence.
    assert (Hs : skipn (Z.to_nat n) (b :: s0) = s') by congruence.
    subst bs s'. split; [symmetry; apply firstn_skipn|].
    rewrite length_firstn. lia.
Qed.

Lemma consumes_ReadFull (n : Z) : consumes (ReadFull n).
Proof.
  intros s bs s' H. apply ReadFull_Ok in H. exists bs. apply H.
Qed.

Lemma consumes_ReadByte : consumes ReadByte.
Proof.
  intros s b s' H. unfold ReadByte in H. destruct s as [|b0 s0]; [discriminate|].
  exists [b]. simpl. congruence.
Qed.

Lemma consumes_ReadCompactSize : consumes ReadCompactSize.
Proof.
  unfold ReadCompactSize. apply consumes_bind; [apply consumes_ReadByte|].
  intro b. unfold binary_Read_le.
  repeat match goal with
         | |- consumes (if ?c then _ else _) => destruct c
         | |- consumes (bind _ _) => apply consumes_bind
         | |- consumes (ReadFull _) => apply consumes_ReadFull
         | |- consumes (ret _) => apply consumes_ret
         | |- forall _, _ => intro
         end.
Qed.

(** A read at [reader_at pre s] leaves the reader at the suffix. *)
Lemma rs_read_at {A} (m : Rd A) (pre s : list byte) :
  consumes m ->
  rs_read m (reader_at pre s)
  = match m s with
    | Ok (a, s') =>
        Ok (a, reader_at (pre ++ firstn (List.length s - List.length s') s) s')
    | Err e => Err e
    end.
Proof.
  intro Hm. unfold rs_read. rewrite remaining_reader_at.
  destruct (m s) as [[a s']|e] eqn:E; [|reflexivity].
  apply Hm in E. destruct E as (c & ->). do 2 f_equal.
  unfold reader_at, len. cbn [buf off].
  assert (Hf : firstn (List.length (c ++ s') - List.length s') (c ++ s') = c).
  { rewrite length_app.
    replace (List.length c + List.length s' - List.length s')%nat
      with (List.length c) by lia.
    rewrite firstn_app, firstn_all, Nat.sub_diag. simpl. apply app_nil_r. }
  rewrite Hf. f_equal.
  - rewrite app_assoc. reflexivity.
  - rewrite !length_app. lia.
Qed.

(** *** The undo-file loop *)

Lemma parseUndoFile_loop_eq (want : Z) (r : Reader) :
  parseUndoFile_loop want r =
  match parseUndoFile_step want r with
  | Return res => res
  | Continue next => parseUndoFile_loop want {| buf := buf r; off := next |}
  end.
Proof.
  rewrite parseUndoFile_loop_equation_1.
  destruct (inspect (parseUndoFile_step want r)) as [[res|next] H];
    unfold parseUndoFile_loop_unfold_clause_1; rewrite H; reflexivity.
Qed.

Lemma ReadFull_Err (n : Z) (s : list byte) (e : error) :
  ReadFull n s = Err e -> e = io_EOF \/ e = io_ErrUnexpectedEOF.
Proof.
  unfold ReadFull. destruct (n <=? 0); [discriminate|].
  destruct s; [left; congruence|].
  destruct (_ <? n); [right; congruence | discriminate].
Qed.

Lemma undoSize_of_range (header : list byte) : 0 <= undoSize_of header < 2 ^ 32.
Proof. unfold undoSize_of, wrap32. apply Z.mod_pos_bound. lia. Qed.

Lemma parseUndoFile_step_at (want : Z) (pre s : list byte) :
  parseUndoFile_step want (reader_at pre s) = step_on want (len pre) s.
Proof.
  unfold parseUndoFile_step, step_on.
  rewrite (rs_read_at _ pre s (consumes_ReadFull 8)).
  destruct (ReadFull 8 s) as [[header s1]|e] eqn:E1.
  - rewrite (rs_read_at _ _ s1 consumes_ReadCompactSize).
    destruct (ReadCompactSize s1) as [[c s2]|e]; [|reflexivity].
    destruct (negb (c =? want)).
    + cbv zeta. cbn [off reader_at].
      pose proof (undoSize_of_range header).
      destruct (_ <? 0) eqn:En; [|reflexivity].
      apply Z.ltb_lt in En. unfold len in En. lia.
    + unfold rs_read. rewrite remaining_reader_at.
      destruct (read_block_undo c s2) as [[a s3]|e]; reflexivity.
  - apply ReadFull_Err in E1. destruct E1 as [-> | ->]; reflexivity.
Qed.

(** Past the end of the buffer the loop stops: no record is left. *)
Lemma parseUndoFile_loop_past_end (want : Z) (r : Reader) :
  len (buf r) <= off r -> parseUndoFile_loop want r = Err no_match.
Proof.
  intro H. rewrite parseUndoFile_loop_eq. unfold parseUndoFile_step, rs_read.
  assert (Hrem : remaining r = []).
  { unfold remaining. unfold len in H. apply Z.leb_le in H. rewrite H. reflexivity. }
  rewrite Hrem. reflexivity.
Qed.

(** The loop depends on the bytes ahead only. *)
Lemma parseUndoFile_loop_ahead (want : Z) (n : nat) :
  forall s pre pre',
    (List.length s <= n)%nat ->
    parseUndoFile_loop want (reader_at pre s)
    = parseUndoFile_loop want (reader_at pre' s).
Proof.
  induction n as [|n IH]; intros s pre pre' Hn.
  - destruct s; [|simpl in Hn; lia].
    rewrite !parseUndoFile_loop_past_end; try reflexivity;
      unfold reader_at, len; cbn [buf off]; rewrite app_nil_r; lia.
  - rewrite (parseUndoFile_loop_eq want (reader_at pre s)).
    rewrite (parseUndoFile_loop_eq want (reader_at pre' s)).
    rewrite !parseUndoFile_step_at. unfold step_on.
    destruct (ReadFull 8 s) as [[header s1]|e] eqn:E1; [|reflexivity].
    destruct (ReadCompactSize s1) as [[c s2]|e]; [|reflexivity].
    destruct (negb (c =? want));
      [|destruct (read_block_undo c s2) as [[a s3]|e]; reflexivity].
    apply ReadFull_Ok in E1. destruct E1 as [Hs Hh].
    pose proof (undoSize_of_range header) as Hu.
    set (k := 8 + undoSize_of header + 32).
    replace (len pre + 8 + undoSize_of header + 32) with (len pre + k)
      by (unfold k; lia).
    replace (len pre' + 8 + undoSize_of header + 32) with (len pre' + k)
      by (unfold k; lia).
    cbn [buf reader_at].
    destruct (Z_le_gt_dec k (len s)) as [Hk|Hk].
    + rewrite !reader_at_seek by (unfold k in *; lia).
      apply IH. rewrite length_skipn. unfold len, k in *. lia.
    + rewrite !parseUndoFile_loop_past_end; try reflexivity;
        cbn [buf off]; unfold len in *; rewrite length_app; lia.
Qed.

(** *** Records that do not match *)

Lemma extends_ret {A} (a : A) : extends (ret a).
Proof. intros s a' s' t H. unfold ret in *. congruence. Qed.

Lemma extends_bind {A B} (m : Rd A) (k : A -> Rd B) :
  extends m -> (forall a, extends (k a)) -> extends (bind m k).
Proof.
  intros Hm Hk s b s'' t H. unfold bind in *.
  destruct (m s) as [[a s']|e] eqn:E; [|discriminate].
  rewrite (Hm _ _ _ t E). apply Hk. exact H.
Qed.

Lemma extends_ReadFull (n : Z) : extends (ReadFull n).
Proof.
  intros s bs s' t H. apply ReadFull_Ok in H. destruct H as [-> Hn].
  unfold ReadFull. destruct (n <=? 0) eqn:E0.
  - apply Z.leb_le in E0. destruct bs; [reflexivity | simpl in Hn; lia].
  - apply Z.leb_gt in E0.
    replace n with (Z.of_nat (List.length bs)) by lia.
    rewrite <- app_assoc.
    pose proof (ReadFull_app bs (s' ++ t)) as Ha. unfold ReadFull in Ha.
    replace (Z.of_nat (List.length bs) <=? 0) with false in Ha
      by (symmetry; apply Z.leb_gt; lia).
    exact Ha.
Qed.

Lemma extends_ReadByte : extends ReadByte.
Proof.
  intros s b s' t H. unfold ReadByte in *. destruct s as [|b0 s0]; [discriminate|].
  simpl. congruence.
Qed.

Lemma extends_ReadCompactSize : extends ReadCompactSize.
Proof.
  unfold ReadCompactSize. apply extends_bind; [apply extends_ReadByte|].
  intro b. unfold binary_Read_le.
  repeat match goal with
         | |- extends (if ?c then _ else _) => destruct c
         | |- extends (bind _ _) => apply extends_bind
         | |- extends (ReadFull _) => apply extends_ReadFull
         | |- extends (ret _) => apply extends_ret
         | |- forall _, _ => intro
         end.
Qed.

Lemma ReadFull_header (header body : list byte) :
  List.length header = 8%nat -> ReadFull 8 (header ++ body) = Ok (header, body).
Proof.
  intro H. replace 8 with (Z.of_nat (List.length header)) by lia.
  apply ReadFull_app.
Qed.

Lemma step_on_mismatch (want start : Z) (header body : list byte) (c : Z)
    (rest : list byte) :
  List.length header = 8%nat ->
  ReadCompactSize body = Ok (c, rest) ->
  c <> want ->
  step_on want start (header ++ body)
  = Continue (start + 8 + undoSize_of header + 32).
Proof.
  intros Hh Hc Hne. unfold step_on. rewrite (ReadFull_header header body Hh), Hc.
  apply Z.eqb_neq in Hne. rewrite Hne. reflexivity.
Qed.

(** After a record with another count the loop stands at the byte
    [8 + size + 32] after the record's start. *)
Lemma parseUndoFile_loop_skip (want : Z) (pre header body : list byte) (c : Z)
    (rest : list byte) :
  List.length header = 8%nat ->
  ReadCompactSize body = Ok (c, rest) ->
  c <> want ->
  parseUndoFile_step want (reader_at pre (header ++ body))
  = Continue (len pre + 8 + undoSize_of header + 32)
  /\ parseUndoFile_loop want (reader_at pre (header ++ body))
     = parseUndoFile_loop want
         {| buf := pre ++ header ++ body;
            off := len pre + 8 + undoSize_of header + 32 |}.
Proof.
  intros Hh Hc Hne.
  assert (Hstep : parseUndoFile_step want (reader_at pre (header ++ body))
                  = Continue (len pre + 8 + undoSize_of header + 32)).
  { rewrite parseUndoFile_step_at. apply (step_on_mismatch want (len pre) header body c rest Hh Hc Hne). }
  split; [exact Hstep|].
  rewrite parseUndoFile_loop_eq, Hstep. reflexivity.
Qed.

Lemma seek_into_body (pre header body : list byte) (j : Z) :
  List.length header = 8%nat -> 0 <= j <= len body ->
  {| buf := pre ++ header ++ body; off := len pre + 8 + j |}
  = reader_at ((pre ++ header) ++ firstn (Z.to_nat j) body) (skipn (Z.to_nat j) body).
Proof.
  intros Hh Hj. rewrite <- (reader_at_seek (pre ++ header) body j Hj).
  f_equal.
  - rewrite app_assoc. reflexivity.
  - unfold len. rewrite length_app. lia.
Qed.

Lemma wrap_err_wrapped {A} (msg : string) (m : Rd A) (s : list byte) (e : error) :
  wrap_err msg m s = Err e -> wrapped e.
Proof.
  unfold wrap_err. destruct (m s) as [r|e0]; [discriminate|].
  intro H. injection H as <-. destruct e0; exact I.
Qed.

Lemma repeat_rd_from_wrapped {A} (m : Z -> Rd A) (n : nat) :
  (forall i s e, m i s = Err e -> wrapped e) ->
  forall i s e, repeat_rd_from i n m s = Err e -> wrapped e.
Proof.
  intro Hm. induction n as [|n IH]; intros i s e; cbn [repeat_rd_from].
  - discriminate.
  - unfold bind. destruct (m i s) as [[a s1]|e1] eqn:E1.
    + destruct (repeat_rd_from (i + 1) n m s1) as [[r s2]|e2] eqn:E2.
      * discriminate.
      * intro H. injection H as <-. apply (IH _ _ _ E2).
    + intro H. injection H as <-. apply (Hm _ _ _ E1).
Qed.

(** The size that the decoder reads off a header is the little-endian
    value of its bytes 4 to 7. *)
Lemma undoSize_of_le (b0 b1 b2 b3 b4 b5 b6 b7 : byte) :
  is_byte b4 -> is_byte b5 -> is_byte b6 -> is_byte b7 ->
  undoSize_of [b0; b1; b2; b3; b4; b5; b6; b7]
  = b4 + 2 ^ 8 * b5 + 2 ^ 16 * b6 + 2 ^ 24 * b7.
Proof.
  unfold is_byte. intros H4 H5 H6 H7. unfold undoSize_of, idx.
  cbn [nth].
  rewrite !Z.shiftl_mul_pow2 by lia.
  rewrite (@lor_shifted b4 b5 8) by lia.
  rewrite (@lor_shifted (b4 + b5 * 2 ^ 8) b6 16) by lia.
  rewrite (@lor_shifted (b4 + b5 * 2 ^ 8 + b6 * 2 ^ 16) b7 24) by lia.
  unfold wrap32. rewrite Z.mod_small by lia. lia.
Qed.

Lemma undoSize_of_record_size (header : list byte) :
  List.length header = 8%nat -> all_bytes header ->
  undoSize_of header = record_size header.
Proof.
  intros Hlen Hb.
  destruct header as [|b0 [|b1 [|b2 [|b3 [|b4 [|b5 [|b6 [|b7 [|b8 t]]]]]]]]];
    try discriminate.
  unfold all_bytes in Hb.
  repeat match goal with
         | H : Forall is_byte (_ :: _) |- _ => inversion H; subst; clear H
         end.
  unfold record_size. apply undoSize_of_le; assumption.
Qed.

Lemma binary_Read_le_short (n : Z) (b : byte) (t : list byte) :
  1 + len t < n -> binary_Read_le n (b :: t) = Err io_ErrUnexpectedEOF.
Proof.
  intro H. unfold binary_Read_le, bind, ReadFull, len in *.
  destruct (Z.leb_spec n 0); [lia|].
  destruct (Z.ltb_spec (Z.of_nat (List.length (b :: t))) n); [reflexivity|].
  cbn [List.length] in *. lia.
Qed.

Lemma cut_count_read (body : list byte) (e : error) :
  cut_count body e -> ReadCompactSize body = Err e.
Proof.
  assert (Hw : forall m, 0 < count_width m -> m = 0xfd \/ m = 0xfe \/ m = 0xff).
  { intros m H. unfold count_width in H.
    destruct (Z.eqb_spec m 0xfd); [tauto|].
    destruct (Z.eqb_spec m 0xfe); [tauto|].
    destruct (Z.eqb_spec m 0xff); [tauto|lia]. }
  destruct 1 as [|m Hm|m b t Hm].
  - reflexivity.
  - destruct (Hw m Hm) as [-> | [-> | ->]]; reflexivity.
  - assert (Hm' : 0 < count_width m) by (unfold len in Hm; lia).
    unfold ReadCompactSize, bind, ReadByte.
    destruct (Hw m Hm') as [-> | [-> | ->]].
    + change (count_width 253) with 2 in Hm. apply (binary_Read_le_short 2 b t Hm).
    + change (count_width 254) with 4 in Hm. apply (binary_Read_le_short 4 b t Hm).
    + change (count_width 255) with 8 in Hm. apply (binary_Read_le_short 8 b t Hm).
Qed.

Lemma ends_before_match_loop (want : Z) (s : list byte) (err : error) :
  ends_before_match want s err ->
  forall pre, parseUndoFile_loop want (reader_at pre s) = Err err.
Proof.
  induction 1 as [s Hs | header body e Hh Hc
                  | header body c rest err Hh Hb Hc Hne Hnm IH]; intro pre.
  - rewrite parseUndoFile_loop_eq, parseUndoFile_step_at. unfold step_on, ReadFull.
    change (8 <=? 0) with false. cbv iota.
    destruct s as [|b s0]; [reflexivity|].
    unfold len in Hs. apply Z.ltb_lt in Hs. rewrite Hs. reflexivity.
  - rewrite parseUndoFile_loop_eq, parseUndoFile_step_at. unfold step_on.
    rewrite (ReadFull_header header body Hh), (cut_count_read body e Hc).
    reflexivity.
  - destruct (parseUndoFile_loop_skip want pre header body c rest Hh Hc Hne) as [_ ->].
    rewrite (undoSize_of_record_size header Hh Hb).
    assert (Hu : 0 <= record_size header).
    { rewrite <- (undoSize_of_record_size header Hh Hb). apply undoSize_of_range. }
    replace (len pre + 8 + record_size header + 32)
      with (len pre + 8 + (record_size header + 32)) by lia.
    destruct (Z_le_gt_dec (record_size header + 32) (len body)) as [Hk|Hk].
    + rewrite seek_into_body by (try assumption; lia). apply IH.
    + assert (Hskip : skipn (Z.to_nat (record_size header + 32)) body = []).
      { apply skipn_all2. unfold len in Hk. lia. }
      rewrite Hskip in *.
      assert (Herr : err = no_match).
      { inversion Hnm as [s Hs | header' body' e Hh' Hc' Heq
                          | header' body' c' rest' err' Hh' Hb' Hc' Hne' Hnm' Heq].
        - reflexivity.
        - destruct header'; discriminate.
        - destruct header'; discriminate. }
      subst err. apply parseUndoFile_loop_past_end. cbn [buf off].
      unfold len in *. rewrite !length_app. lia.
Qed.

Lemma all_bytes_app (a b : list byte) : all_bytes (a ++ b) <-> all_bytes a /\ all_bytes b.
Proof. apply Forall_app. Qed.

Lemma read_block_undo_wrapped (c : Z) (s : list byte) (e : error) :
  read_block_undo c s = Err e -> wrapped e.
Proof.
  unfold read_block_undo. apply repeat_rd_from_wrapped.
  intros i s0 e0. unfold read_tx_undo, bind.
  destruct (wrap_err _ ReadCompactSize s0) as [[n s1]|e1] eqn:E1.
  - apply repeat_rd_from_wrapped. intros j s2 e2. apply wrap_err_wrapped.
  - intro H. assert (e0 = e1) by congruence. subst e0.
    exact (wrap_err_wrapped _ _ _ _ E1).
Qed.

(** The message that no record matches is given only when the end of the
    file comes at the start of a record. *)
Lemma loop_no_match_inv (want : Z) (n : nat) :
  forall s pre,
    (List.length s <= n)%nat -> all_bytes s ->
    parseUndoFile_loop want (reader_at pre s) = Err no_match ->
    ends_before_match want s no_match.
Proof.
  induction n as [|n IH]; intros s pre Hn Hb.
  - destruct s; [|simpl in Hn; lia]. intros _. apply eb_header. cbn. lia.
  - rewrite parseUndoFile_loop_eq, parseUndoFile_step_at. unfold step_on.
    destruct (ReadFull 8 s) as [[header s1]|e] eqn:E1.
    + apply ReadFull_split in E1; [|lia]. destruct E1 as [-> Hh].
      change (Z.to_nat 8) with 8%nat in Hh.
      apply all_bytes_app in Hb. destruct Hb as [Hbh Hbs].
      destruct (ReadCompactSize s1) as [[c s2]|e] eqn:E2; [|discriminate].
      destruct (Z.eqb_spec c want) as [->|Hne]; cbn [negb].
      * destruct (read_block_undo want s2) as [[a s3]|e] eqn:E3; [discriminate|].
        intro H. apply read_block_undo_wrapped in E3.
        assert (e = no_match) by congruence. subst e. contradiction.
      * intro H. apply (@eb_skip want header s1 c s2 no_match Hh Hbh E2 Hne).
        rewrite (undoSize_of_record_size header Hh Hbh) in H.
        assert (Hu : 0 <= record_size header).
        { rewrite <- (undoSize_of_record_size header Hh Hbh). apply undoSize_of_range. }
        destruct (Z_le_gt_dec (record_size header + 32) (len s1)) as [Hk|Hk].
        -- cbn [buf reader_at] in H.
           replace (len pre + 8 + record_size header + 32)
             with (len pre + 8 + (record_size header + 32)) in H by lia.
           rewrite seek_into_body in H by (try assumption; lia).
           apply IH in H; [exact H| |].
           ++ rewrite length_skipn. rewrite length_app in Hn. lia.
           ++ unfold all_bytes in *. rewrite <- (firstn_skipn
                (Z.to_nat (record_size header + 32)) s1) in Hbs.
              apply Forall_app in Hbs. apply Hbs.
        -- assert (Hskip : skipn (Z.to_nat (record_size header + 32)) s1 = []).
           { apply skipn_all2. unfold len in Hk. lia. }
           rewrite Hskip. apply eb_header. cbn. lia.
    + intros _. apply eb_header. unfold ReadFull in E1.
      change (8 <=? 0) with false in E1. cbv iota in E1.
      destruct s as [|b s0]; [cbn; lia|].
      destruct (Z.ltb_spec (Z.of_nat (List.length (b :: s0))) 8); [|discriminate].
      unfold len. lia.
Qed.

(** The result of a turn at a record whose count is the wanted one. *)
Lemma step_on_match (want start : Z) (header body rest : list byte) :
  List.length header = 8%nat ->
  ReadCompactSize body = Ok (want, rest) ->
  step_on want start (header ++ body)
  = Return (match read_block_undo want rest with
            | Ok (allPrevouts, _) => Ok allPrevouts
            | Err e => Err e
            end).
Proof.
  intros Hh Hc. unfold step_on. rewrite (ReadFull_header header body Hh), Hc.
  rewrite Z.eqb_refl. cbn [negb].
  destruct (read_block_undo want rest) as [[a s]|e]; reflexivity.
Qed.

(** Behind a framed record with another count the decoder stands at the
    start of what follows, whatever the hash bytes are. *)
Lemma parseUndoFile_loop_framed (want : Z) (pre header payload hash tail : list byte) :
  mismatched_record want header payload hash ->
  parseUndoFile_loop want (reader_at pre (header ++ payload ++ hash ++ tail))
  = parseUndoFile_loop want (reader_at [] tail).
Proof.
  intros (Hh & Hb & Hp & Hlen & c & rest & Hc & Hne).
  assert (Hc' : ReadCompactSize (payload ++ hash ++ tail)
                = Ok (c, rest ++ hash ++ tail))
    by (apply extends_ReadCompactSize; exact Hc).
  destruct (parseUndoFile_loop_skip want pre header _ c _ Hh Hc' Hne) as [_ Hl].
  rewrite Hl, (undoSize_of_record_size header Hh Hb).
  assert (Hu : 0 <= record_size header) by (rewrite <- Hp; unfold len; lia).
  replace (len pre + 8 + record_size header + 32)
    with (len pre + 8 + (record_size header + 32)) by lia.
  rewrite seek_into_body
    by (try assumption; unfold len in *; rewrite !length_app; lia).
  assert (Hskip : skipn (Z.to_nat (record_size header + 32)) (payload ++ hash ++ tail)
                  = tail).
  { rewrite app_assoc.
    replace (Z.to_nat (record_size header + 32))
      with (List.length (payload ++ hash))
      by (rewrite length_app; unfold len in Hp; lia).
    rewrite skipn_app, skipn_all, Nat.sub_diag. reflexivity. }
  rewrite Hskip.
  apply (parseUndoFile_loop_ahead want (List.length tail)). lia.
Qed.

(** C4. The undo decoder is the iteration of one turn per record.  When
    the record at the current position of the rev file has a first count
    other than the number of transactions less one, the turn seeks to
    the byte [8 + record_size + 32] after the start of the record, the
    size being the little-endian value of bytes 4 to 7 of the header, and
    the decoder tries again from there; a record with the wanted count is
    decoded and its prevouts returned.  For a record framed as the format
    says the byte sought is the start of the next record, and the outcome
    is the same whatever the 32 bytes of the record's hash are: the
    decoder neither reads nor checks them. *)
Theorem parseUndoFile_skips_mismatch (transactions : list MsgTx) :
  let want := wrap64 (Z.of_nat (List.length transactions) - 1) in
  (forall r : Reader,
      parseUndoFile r transactions
      = match parseUndoFile_step want r with
        | Return res => res
        | Continue nextRecord =>
            parseUndoFile {| buf := buf r; off := nextRecord |} transactions
        end)
  /\ (forall b0 b1 b2 b3 b4 b5 b6 b7 : byte,
         all_bytes [b4; b5; b6; b7] ->
         undoSize_of [b0; b1; b2; b3; b4; b5; b6; b7]
         = b4 + 2 ^ 8 * b5 + 2 ^ 16 * b6 + 2 ^ 24 * b7)
  /\ (forall (pre header body : list byte) (c : Z) (rest : list byte),
         List.length header = 8%nat ->
         all_bytes header ->
         ReadCompactSize body = Ok (c, rest) ->
         c <> want ->
         let r := reader_at pre (header ++ body) in
         parseUndoFile_step want r = Continue (off r + 8 + record_size header + 32)
         /\ parseUndoFile r transactions
            = parseUndoFile
                {| buf := buf r; off := off r + 8 + record_size header + 32 |}
                transactions)
  /\ (forall (pre header body rest : list byte),
         List.length header = 8%nat ->
         ReadCompactSize body = Ok (want, rest) ->
         let r := reader_at pre (header ++ body) in
         parseUndoFile_step want r
         = Return (match read_block_undo want rest with
                   | Ok (allPrevouts, _) => Ok allPrevouts
                   | Err e => Err e
                   end)
         /\ parseUndoFile r transactions
            = match read_block_undo want rest with
              | Ok (allPrevouts, _) => Ok allPrevouts
              | Err e => Err e
              end)
  /\ (forall pre header payload hash tail : list byte,
         mismatched_record want header payload hash ->
         let r := reader_at pre (header ++ payload ++ hash ++ tail) in
         off r + 8 + record_size header + 32 = len (pre ++ header ++ payload ++ hash)
         /\ parseUndoFile r transactions
            = parseUndoFile (reader_at (pre ++ header ++ payload ++ hash) tail)
                transactions
         /\ (forall hash',
               List.length hash' = 32%nat ->
               parseUndoFile (reader_at pre (header ++ payload ++ hash' ++ tail))
                 transactions
               = parseUndoFile r transactions)
         /\ (forall header' body rest,
               tail = header' ++ body ->
               List.length header' = 8%nat ->
               ReadCompactSize body = Ok (want, rest) ->
               parseUndoFile r transactions
               = match read_block_undo want rest with
                 | Ok (allPrevouts, _) => Ok allPrevouts
                 | Err e => Err e
                 end)).
Proof.
  intro want.
  assert (Hstep : forall r : Reader,
             parseUndoFile r transactions
             = match parseUndoFile_step want r with
               | Return res => res
               | Continue nextRecord =>
                   parseUndoFile {| buf := buf r; off := nextRecord |} transactions
               end).
  { intro r. unfold parseUndoFile. fold want. cbv zeta. apply parseUndoFile_loop_eq. }
  assert (Hmatch : forall pre header body rest,
             List.length header = 8%nat ->
             ReadCompactSize body = Ok (want, rest) ->
             parseUndoFile_step want (reader_at pre (header ++ body))
             = Return (match read_block_undo want rest with
                       | Ok (allPrevouts, _) => Ok allPrevouts
                       | Err e => Err e
                       end)).
  { intros pre header body rest Hh Hc. rewrite parseUndoFile_step_at.
    apply (step_on_match want (len pre) header body rest Hh Hc). }
  split; [exact Hstep|]. split.
  { intros b0 b1 b2 b3 b4 b5 b6 b7 Hb.
    inversion Hb as [|x1 l1 H4 Hb1]; subst. inversion Hb1 as [|x2 l2 H5 Hb2]; subst.
    inversion Hb2 as [|x3 l3 H6 Hb3]; subst. inversion Hb3 as [|x4 l4 H7 _]; subst.
    apply undoSize_of_le; assumption. }
  split.
  { intros pre header body c rest Hh Hb Hc Hne r.
    rewrite <- (undoSize_of_record_size header Hh Hb).
    exact (parseUndoFile_loop_skip want pre header body c rest Hh Hc Hne). }
  split.
  { intros pre header body rest Hh Hc r. split; [exact (Hmatch _ _ _ _ Hh Hc)|].
    rewrite Hstep. subst r. rewrite (Hmatch _ _ _ _ Hh Hc). reflexivity. }
  intros pre header payload hash tail Hrec r.
  pose proof (parseUndoFile_loop_framed want pre header payload hash tail Hrec) as Hl.
  assert (Hfirst : parseUndoFile r transactions
                   = parseUndoFile (reader_at (pre ++ header ++ payload ++ hash) tail)
                       transactions).
  { unfold parseUndoFile. fold want. cbv zeta. subst r. rewrite Hl.
    apply (parseUndoFile_loop_ahead want (List.length tail)). lia. }
  split.
  { destruct Hrec as (Hh & _ & Hp & H32 & _). subst r. cbn [off reader_at].
    unfold len in *. rewrite !length_app. lia. }
  split; [exact Hfirst|]. split.
  - intros hash' Hlen.
    assert (Hrec' : mismatched_record want header payload hash').
    { destruct Hrec as (Hh & Hb & Hp & _ & Hc).
      split; [exact Hh|]. split; [exact Hb|]. split; [exact Hp|].
      split; [exact Hlen | exact Hc]. }
    unfold parseUndoFile. fold want. cbv zeta. subst r.
    rewrite Hl, (parseUndoFile_loop_framed want pre header payload hash' tail Hrec').
    reflexivity.
  - intros header' body rest -> Hh' Hc. rewrite Hfirst, Hstep.
    rewrite (Hmatch _ _ _ _ Hh' Hc). reflexivity.
Qed.

(** What the analysis of a block returns carries the code of a wrong
    Merkle root, the code of failed undo data, or no error. *)
Lemma check_block_codes (header : WireBlockHeader) (txCount : Z)
    (txs : list MsgTx) (revReader : Reader) (out : BlockOutput) :
  check_block header txCount txs revReader = Ok out ->
  option_map E_Code (B_Error out) = Some "INVALID_MERKLE_ROOT"
  \/ option_map E_Code (B_Error out) = Some "INVALID_UNDO_DATA"
  \/ B_Error out = None.
Proof.
  unfold check_block. cbv zeta.
  destruct (negb _).
  { intro H. left. assert (E : out = failed_block (BlockHash_of header)
                                 "INVALID_MERKLE_ROOT"
                                 ("computed merkle root does not match header (block "
                                  ++ BlockHash_of header ++ ")")) by congruence.
    rewrite E. reflexivity. }
  destruct (parseUndoFile revReader txs) as [prevouts|e].
  - destruct txs as [|cb txs']; [discriminate|].
    destruct (tx_TxIn cb) as [|cbIn ins]; [discriminate|].
    destruct (analyze_all prevouts 0 (cb :: txs') _) as [acc|e1]; [|discriminate].
    intro H. right. right.
    match type of H with Ok ?o = Ok _ => assert (E : out = o) by congruence end.
    rewrite E. reflexivity.
  - intro H. right. left.
    assert (E : out = failed_block (BlockHash_of header) "INVALID_UNDO_DATA"
                        ("failed to parse undo data: " ++ error_string e))
      by (destruct e; congruence).
    rewrite E. reflexivity.
Qed.

(** C1 (amended). When the end of the rev file comes before a record
    whose first count is the number of transactions less one, the undo
    decoder fails: with "no matching undo record found" when fewer than
    8 bytes are left where a record would start, and only then; with
    "failed to read tx undo count" when the file ends in the count behind
    a header.  For these and for every other error that the undo decoder
    returns, the analysis of a block whose Merkle root is right returns a
    record with [ok = false], the block hash, and the code
    [INVALID_UNDO_DATA], with the decoder's message behind "failed to
    parse undo data"; a panic of the decoder ends the analysis.  No
    record that the analysis returns carries the code
    [UNDO_NOT_FOUND]. *)
Theorem parseOneBlock_no_matching_undo (blk : list byte)
    (header : WireBlockHeader) (txCount : Z) (txs : list MsgTx) (rest : list byte) :
  let want := wrap64 (Z.of_nat (List.length txs) - 1) in
  let blockHash :=
    Hex.EncodeToString (List.rev (DoubleHashH (firstn 80 (skipn 8 blk)))) in
  (read_block blk = Ok ((header, txCount, txs), rest) ->
   computeMerkleRoot (map TxHash txs) = h_MerkleRoot header ->
   (forall pre s err,
       ends_before_match want s err ->
       parseUndoFile (reader_at pre s) txs = Err err
       /\ (err = no_match
           \/ err = Wrapf "parseUndoFile: failed to read tx undo count" io_EOF
           \/ err = Wrapf "parseUndoFile: failed to read tx undo count"
                      io_ErrUnexpectedEOF)
       /\ parseOneBlock blk (reader_at pre s)
          = Ok (failed_block blockHash "INVALID_UNDO_DATA"
                  ("failed to parse undo data: " ++ error_string err)))
   /\ (forall pre s,
          all_bytes s ->
          parseUndoFile (reader_at pre s) txs = Err no_match ->
          ends_before_match want s no_match)
   /\ (forall revReader e,
          parseUndoFile revReader txs = Err e ->
          (forall msg, e <> Panic msg) ->
          exists out,
            parseOneBlock blk revReader = Ok out
            /\ out = failed_block blockHash "INVALID_UNDO_DATA"
                       ("failed to parse undo data: " ++ error_string e)
            /\ B_OK out = false
            /\ BlockHash (B_BlockHeader out) = blockHash
            /\ BlockHash (B_BlockHeader out) = BlockHash_of header
            /\ option_map E_Code (B_Error out) = Some "INVALID_UNDO_DATA"
            /\ option_map E_Code (B_Error out) <> Some "UNDO_NOT_FOUND")
   /\ (forall revReader msg,
          parseUndoFile revReader txs = Err (Panic msg) ->
          parseOneBlock blk revReader = Err (Panic msg)))
  /\ (forall revReader out,
         parseOneBlock blk revReader = Ok out ->
         option_map E_Code (B_Error out) <> Some "UNDO_NOT_FOUND").
Proof.
  intros want blockHash. split.
  2:{ intros revReader out. unfold parseOneBlock.
      destruct (read_block blk) as [[[[h c] t] r]|]; [|discriminate].
      intro Hout. apply check_block_codes in Hout.
      destruct Hout as [E | [E | E]]; rewrite E; discriminate. }
  intros Hread Hroot.
  destruct (read_block_header _ _ _ _ _ Hread) as [Hraw _].
  assert (Hhash : BlockHash_of header = blockHash).
  { unfold BlockHash_of, Hash_String, blockHash. rewrite Hraw. reflexivity. }
  apply list_eqb_spec in Hroot.
  assert (Hany : forall revReader e,
             parseUndoFile revReader txs = Err e ->
             (forall msg, e <> Panic msg) ->
             parseOneBlock blk revReader
             = Ok (failed_block blockHash "INVALID_UNDO_DATA"
                     ("failed to parse undo data: " ++ error_string e))).
  { intros revReader e Hundo Hnp.
    erewrite parseOneBlock_read by exact Hread. unfold check_block. cbv zeta.
    rewrite Hroot, Hundo, Hhash. cbn [negb].
    destruct e; try reflexivity. exfalso. apply (Hnp msg). reflexivity. }
  assert (Hshape : forall s err,
             ends_before_match want s err ->
             err = no_match
             \/ err = Wrapf "parseUndoFile: failed to read tx undo count" io_EOF
             \/ err = Wrapf "parseUndoFile: failed to read tx undo count"
                        io_ErrUnexpectedEOF).
  { induction 1 as [s Hs | hd body e Hh Hc | hd body c rest' err Hh Hb Hc Hne Hnm IH].
    - left. reflexivity.
    - right. destruct Hc; [left|left|right]; reflexivity.
    - exact IH. }
  split.
  { intros pre s err Hnm.
    assert (Hundo : parseUndoFile (reader_at pre s) txs = Err err).
    { unfold parseUndoFile. fold want. cbv zeta.
      apply ends_before_match_loop. exact Hnm. }
    split; [exact Hundo|]. split; [exact (Hshape s err Hnm)|].
    apply (Hany _ _ Hundo). intros msg E.
    destruct (Hshape s err Hnm) as [-> | [-> | ->]]; discriminate. }
  split.
  { intros pre s Hb Hundo. unfold parseUndoFile in Hundo. fold want in Hundo.
    cbv zeta in Hundo.
    exact (loop_no_match_inv want (List.length s) s pre (le_n _) Hb Hundo). }
  split.
  { intros revReader e Hundo Hnp. eexists. split; [exact (Hany _ _ Hundo Hnp)|].
    split; [reflexivity|]. split; [reflexivity|]. split; [reflexivity|].
    split; [symmetry; exact Hhash|]. split; [reflexivity|]. discriminate. }
  intros revReader msg Hundo.
  erewrite parseOneBlock_read by exact Hread. unfold check_block. cbv zeta.
  rewrite Hroot, Hundo. reflexivity.
Qed.

End BlockProps.

(** ** The model on recorded data *)

Section Recorded.
Import Utils Analyzer Parser Reference.

(** The reference hash functions on the published test vectors. *)
Example sha256_abc :
  Hex.EncodeToString (Sha256.sha256 [0x61; 0x62; 0x63])
  = "ba7816bf8f01cfea414140de5dae2223b00361a396177a9cb410ff61f20015ad".
Proof. vm_compute. reflexivity. Qed.

Example ripemd160_abc :
  Hex.EncodeToString (Ripemd160.ripemd160 [0x61; 0x62; 0x63])
  = "8eb208f7e05d987a9b044a8e98c6b087f15a0bfc".
Proof. vm_compute. reflexivity. Qed.

(** The header and the transaction of the genesis block hash to the
    block hash and to the Merkle root that the chain records. *)
Example genesis_hashes :
  Hash_String (DoubleHashH (bytes_of_hex genesis_header_hex))
  = "000000000019d6689c085ae165831e934ff763ae46a2a6c172b3f1b60a8ce26f"
  /\ Hash_String (TxHash genesis_tx)
     = "4a5e1e4baab89f3a32518a88c31bc87f618f76673e2cc77ab2127b7afdeda33b".
Proof. split; vm_compute; reflexivity. Qed.

(** The addresses of the test vectors of BIP 173 and of the genesis
    output's key hash. *)
Example reference_addresses :
  GetAddressFromScript
    (bytes_of_hex "0014751e76e8199196d454941c45d1b3a323f1433bd6") "mainnet"
  = Some "bc1qw508d6qejxtdg4y5r3zarvary0c5xw7kv8f3t4"
  /\ GetAddressFromScript
       (bytes_of_hex "76a91462e907b15cbf27d5425399ebf6f0fb50ebb88f1888ac") "mainnet"
     = Some "1A1zP1eP5QGefi2DMPTfTL5SLmv7DivfNa".
Proof. split; vm_compute; reflexivity. Qed.

(** The undo entry of the output spent by the first payment on the
    chain (block 170 spends the coinbase of block 9): the code 19 for
    height 9 and a coinbase, the dummy version, the compressed amount 50
    and a compressed key of odd parity, which decode to 50 bitcoins and to
    the pay-to-pubkey script of the uncompressed key. *)
Example undo_entry_of_block_170 :
  readUndoPrevout
    (bytes_of_hex
       "1300320511db93e1dcdb8a016b49840f8c53bc1eb68a382e97b1482ecad7b148a6909a5c")
  = Ok ({| Txid := "";
           Vout := 0;
           P_ValueSats := 5000000000;
           P_ScriptPubkeyHex :=
             "410411db93e1dcdb8a016b49840f8c53bc1eb68a382e97b1482ecad7b148a6909a5cb2e0eaddfb84ccf9744464f82e160bfa9b8b64f9d4c03f999b8643f656b412a3ac" |},
        []).
Proof. vm_compute. reflexivity. Qed.

(** An undo entry whose size code announces a raw script of [2^64 - 134]
    bytes: the slice for it cannot be made, and the decoder panics where
    the record for the block is read.  A script of [2^40] bytes is more
    than the machine of the reference grants, and one of 100 bytes with
    two bytes left to read is an error of the decoder. *)
Example undo_entry_too_long :
  readUndoPrevout (bytes_of_hex "000080fefefefefefefefe00")
  = Err (Panic "runtime error: makeslice: len out of range")
  /\ parseUndoFile
       (reader_at [] (bytes_of_hex "f9beb4d90e0000000101000080fefefefefefefefe00"))
       [genesis_tx; spend_tx]
     = Err (Panic "runtime error: makeslice: len out of range")
  /\ readUndoPrevout (bytes_of_hex ("0000" ++ "9efefefeff06"))
     = Err (Panic "fatal error: runtime: out of memory")
  /\ readUndoPrevout (bytes_of_hex ("0000" ++ "6a" ++ "5152"))
     = Err (Wrapf "readUndoPrevout raw script (len=100)" io_ErrUnexpectedEOF).
Proof. repeat split; vm_compute; reflexivity. Qed.

Lemma genesis_read_block :
  read_block genesis_blk = Ok ((genesis_header, 1, [genesis_tx]), [])
  /\ computeMerkleRoot (map TxHash [genesis_tx]) = h_MerkleRoot genesis_header
  /\ BlockHash_of genesis_header
     = "000000000019d6689c085ae165831e934ff763ae46a2a6c172b3f1b60a8ce26f".
Proof.
  repeat split; vm_compute; reflexivity.
Qed.

Lemma undo_header_259_bytes : all_bytes undo_header_259.
Proof.
  unfold all_bytes, is_byte. vm_compute.
  repeat (constructor; [split; [discriminate | reflexivity]|]). constructor.
Qed.

(** The genesis block against a rev file that holds one record, of 259
    payload bytes for a block of three transactions, and against a rev
    file that ends behind the 8 bytes of a record's header. *)
Lemma parseOneBlock_no_matching_undo_witness :
  read_block genesis_blk = Ok ((genesis_header, 1, [genesis_tx]), [])
  /\ computeMerkleRoot (map TxHash [genesis_tx]) = h_MerkleRoot genesis_header
  /\ ends_before_match (wrap64 (Z.of_nat (List.length [genesis_tx]) - 1))
       (undo_header_259 ++ undo_payload_259 ++ undo_hash_259) no_match
  /\ parseOneBlock genesis_blk
       (reader_at [] (undo_header_259 ++ undo_payload_259 ++ undo_hash_259))
     = Ok (failed_block
             "000000000019d6689c085ae165831e934ff763ae46a2a6c172b3f1b60a8ce26f"
             "INVALID_UNDO_DATA"
             "failed to parse undo data: parseUndoFile: no matching undo record found in rev file")
  /\ ends_before_match (wrap64 (Z.of_nat (List.length [genesis_tx]) - 1))
       (undo_header_259 ++ [])
       (Wrapf "parseUndoFile: failed to read tx undo count" io_EOF)
  /\ parseOneBlock genesis_blk (reader_at [] (undo_header_259 ++ []))
     = Ok (failed_block
             "000000000019d6689c085ae165831e934ff763ae46a2a6c172b3f1b60a8ce26f"
             "INVALID_UNDO_DATA"
             "failed to parse undo data: parseUndoFile: failed to read tx undo count: EOF").
Proof.
  pose proof genesis_read_block as (Hread & Hroot & _).
  assert (Hnm : ends_before_match (wrap64 (Z.of_nat (List.length [genesis_tx]) - 1))
                  (undo_header_259 ++ undo_payload_259 ++ undo_hash_259) no_match).
  { apply (@eb_skip _ undo_header_259 (undo_payload_259 ++ undo_hash_259) 2
             (skipn 1 (undo_payload_259 ++ undo_hash_259)) no_match).
    - reflexivity.
    - exact undo_header_259_bytes.
    - reflexivity.
    - vm_compute. discriminate.
    - apply eb_header. vm_compute. reflexivity. }
  assert (Hcut : ends_before_match (wrap64 (Z.of_nat (List.length [genesis_tx]) - 1))
                   (undo_header_259 ++ [])
                   (Wrapf "parseUndoFile: failed to read tx undo count" io_EOF)).
  { apply eb_count; [reflexivity | apply cut_empty]. }
  split; [exact Hread|]. split; [exact Hroot|]. split; [exact Hnm|].
  split.
  { etransitivity.
    - exact (proj2 (proj2 (proj1 (proj1 (parseOneBlock_no_matching_undo
                                           genesis_blk genesis_header 1 [genesis_tx] [])
                                    Hread Hroot) [] _ _ Hnm))).
    - vm_compute. reflexivity. }
  split; [exact Hcut|].
  etransitivity.
  - exact (proj2 (proj2 (proj1 (proj1 (parseOneBlock_no_matching_undo
                                         genesis_blk genesis_header 1 [genesis_tx] [])
                                  Hread Hroot) [] _ _ Hcut))).
  - vm_compute. reflexivity.
Defined.

(** C1 as stated fails on the genesis block paired with an empty rev
    file: the end of the file comes before any record, the undo decoder
    finds no matching record, and the block is reported under the code
    [INVALID_UNDO_DATA], not [UNDO_NOT_FOUND]. *)
Lemma genesis_without_undo_records :
  ends_before_match (wrap64 (Z.of_nat (List.length [genesis_tx]) - 1)) [] no_match
  /\ read_block genesis_blk = Ok ((genesis_header, 1, [genesis_tx]), [])
  /\ parseUndoFile {| buf := []; off := 0 |} [genesis_tx] = Err no_match
  /\ parseOneBlock genesis_blk {| buf := []; off := 0 |}
     = Ok (failed_block
             "000000000019d6689c085ae165831e934ff763ae46a2a6c172b3f1b60a8ce26f"
             "INVALID_UNDO_DATA"
             "failed to parse undo data: parseUndoFile: no matching undo record found in rev file")
  /\ option_map E_Code
       (B_Error (failed_block
                   "000000000019d6689c085ae165831e934ff763ae46a2a6c172b3f1b60a8ce26f"
                   "INVALID_UNDO_DATA"
                   "failed to parse undo data: parseUndoFile: no matching undo record found in rev file"))
     <> Some "UNDO_NOT_FOUND".
Proof.
  split; [apply eb_header; vm_compute; reflexivity|].
  split; [apply genesis_read_block|].
  split; [vm_compute; reflexivity|].
  split; [vm_compute; reflexivity|].
  discriminate.
Qed.

(** A rev file whose first record, of 259 payload bytes, belongs to a
    block of three transactions and whose second record is the one for a
    block of two transactions: the first is stepped over and the entry of
    the second is returned. *)
Lemma parseUndoFile_skips_mismatch_witness :
  mismatched_record (wrap64 (Z.of_nat (List.length [genesis_tx; spend_tx]) - 1))
    undo_header_259 undo_payload_259 undo_hash_259
  /\ record_size undo_header_259 = 259
  /\ undoSize_of undo_header_259 = 259
  /\ parseUndoFile_step (wrap64 (Z.of_nat (List.length [genesis_tx; spend_tx]) - 1))
       (reader_at []
          (undo_header_259 ++ undo_payload_259 ++ undo_hash_259 ++ undo_record_170))
     = Continue 299
  /\ parseUndoFile
       (reader_at []
          (undo_header_259 ++ undo_payload_259 ++ undo_hash_259 ++ undo_record_170))
       [genesis_tx; spend_tx]
     = Ok [[{| Txid := "";
               Vout := 0;
               P_ValueSats := 5000000000;
               P_ScriptPubkeyHex :=
                 "410411db93e1dcdb8a016b49840f8c53bc1eb68a382e97b1482ecad7b148a6909a5cb2e0eaddfb84ccf9744464f82e160bfa9b8b64f9d4c03f999b8643f656b412a3ac" |}]].
Proof.
  pose proof undo_header_259_bytes as Hb.
  assert (Hrec : mismatched_record
                   (wrap64 (Z.of_nat (List.length [genesis_tx; spend_tx]) - 1))
                   undo_header_259 undo_payload_259 undo_hash_259).
  { split; [reflexivity|]. split; [exact Hb|]. split; [reflexivity|].
    split; [reflexivity|].
    exists 2, (skipn 1 undo_payload_259).
    split; [reflexivity | vm_compute; discriminate]. }
  split; [exact Hrec|]. split; [reflexivity|]. split; [vm_compute; reflexivity|].
  split; [vm_compute; reflexivity|].
  assert (Hh : List.length undo_header_170 = 8%nat) by (vm_compute; reflexivity).
  assert (Hc : ReadCompactSize undo_body_170
               = Ok (wrap64 (Z.of_nat (List.length [genesis_tx; spend_tx]) - 1),
                     skipn 1 undo_body_170))
    by (vm_compute; reflexivity).
  assert (Ht : undo_record_170 = undo_header_170 ++ undo_body_170)
    by (unfold undo_record_170; reflexivity).
  pose proof (proj2 (proj2 (proj2
                (proj2 (proj2 (proj2 (proj2
                   (parseUndoFile_skips_mismatch [genesis_tx; spend_tx]))))
                   [] undo_header_259 undo_payload_259 undo_hash_259 undo_record_170
                   Hrec)))
                undo_header_170 undo_body_170 (skipn 1 undo_body_170)
                Ht Hh Hc) as E.
  rewrite E. vm_compute. reflexivity.
Defined.

(** The genesis block with a damaged Merkle root in its header: the
    record carries the hash of the damaged header. *)
Lemma parseOneBlock_invalid_merkle_root_witness :
  read_block damaged_blk = Ok ((damaged_header, 1, [genesis_tx]), [])
  /\ computeMerkleRoot (map TxHash [genesis_tx]) <> h_MerkleRoot damaged_header
  /\ Hex.EncodeToString (List.rev (DoubleHashH (firstn 80 (skipn 8 damaged_blk))))
     = "b71643ef2d9aa1599794a57ed05786b6cb264c827b5ea49a9cebdcbaef1b100b"
  /\ exists out,
       parseOneBlock damaged_blk {| buf := []; off := 0 |} = Ok out
       /\ out = failed_block
                  "b71643ef2d9aa1599794a57ed05786b6cb264c827b5ea49a9cebdcbaef1b100b"
                  "INVALID_MERKLE_ROOT"
                  "computed merkle root does not match header (block b71643ef2d9aa1599794a57ed05786b6cb264c827b5ea49a9cebdcbaef1b100b)"
       /\ B_OK out = false
       /\ option_map E_Code (B_Error out) = Some "INVALID_MERKLE_ROOT"
       /\ BlockHash (B_BlockHeader out)
          = "b71643ef2d9aa1599794a57ed05786b6cb264c827b5ea49a9cebdcbaef1b100b"
       /\ Transactions out = []
       /\ forall revReader', parseOneBlock damaged_blk revReader' = Ok out.
Proof.
  assert (Hread : read_block damaged_blk = Ok ((damaged_header, 1, [genesis_tx]), []))
    by (vm_compute; reflexivity).
  assert (Hroot : computeMerkleRoot (map TxHash [genesis_tx])
                  <> h_MerkleRoot damaged_header)
    by (vm_compute; discriminate).
  assert (Hhash : Hex.EncodeToString
                    (List.rev (DoubleHashH (firstn 80 (skipn 8 damaged_blk))))
                  = "b71643ef2d9aa1599794a57ed05786b6cb264c827b5ea49a9cebdcbaef1b100b")
    by (vm_compute; reflexivity).
  split; [exact Hread|]. split; [exact Hroot|]. split; [exact Hhash|].
  destruct (proj2 (proj2 (proj2 (proj2 (proj2 parseOneBlock_invalid_merkle_root))))
              damaged_blk {| buf := []; off := 0 |} damaged_header 1 [genesis_tx] []
              Hread Hroot)
    as (_ & out & Hout & Hshape & Hok & Hcode & Hbh & _ & Htx & Hall).
  exists out. split; [exact Hout|].
  split; [rewrite Hshape, Hhash; reflexivity|].
  split; [exact Hok|]. split; [exact Hcode|].
  split; [rewrite Hbh; exact Hhash|]. split; [exact Htx | exact Hall].
Defined.

(** A transaction with a dust output that signals replaceability. *)
Lemma ParseTransaction_warnings_witness :
  exists out,
    ParseTransaction spend_fixture = Ok out
    /\ Warnings out = [{| Code := "DUST_OUTPUT" |}; {| Code := "RBF_SIGNALING" |}]
    /\ (In {| Code := "RBF_SIGNALING" |} (Warnings out) <-> RbfSignaling out = true).
Proof.
  assert (E : exists out,
             ParseTransaction spend_fixture = Ok out
             /\ Warnings out
                = [{| Code := "DUST_OUTPUT" |}; {| Code := "RBF_SIGNALING" |}])
    by (vm_compute; eexists; split; reflexivity).
  destruct E as (out & E & Hw). exists out.
  split; [exact E|]. split; [exact Hw|].
  exact (proj1 (@ParseTransaction_warnings _ _ _ spend_fixture out E)).
Defined.

(** The coinbase transaction of the genesis block: 204 bytes with or
    without witness data, weight 816, 204 virtual bytes. *)
Lemma ParseTransaction_weight_witness :
  Hex.HexToBytes (RawTx genesis_fixture) = Ok (bytes_of_hex genesis_tx_hex)
  /\ MsgTx_Deserialize (bytes_of_hex genesis_tx_hex) = Ok (genesis_tx, [])
  /\ SerializeSizeStripped genesis_tx * 3 + SerializeSize genesis_tx + 3 < two63
  /\ exists out,
       ParseTransaction genesis_fixture = Ok out
       /\ Weight out = 816 /\ Vbytes out = 204
       /\ Vbytes out = ceil_div4 (Weight out).
Proof.
  assert (Hraw : Hex.HexToBytes (RawTx genesis_fixture)
                 = Ok (bytes_of_hex genesis_tx_hex)) by (vm_compute; reflexivity).
  assert (Htx : MsgTx_Deserialize (bytes_of_hex genesis_tx_hex) = Ok (genesis_tx, []))
    by (vm_compute; reflexivity).
  assert (Hb : SerializeSizeStripped genesis_tx * 3 + SerializeSize genesis_tx + 3
               < two63) by (vm_compute; reflexivity).
  assert (E : exists out,
             ParseTransaction genesis_fixture = Ok out
             /\ Weight out = 816 /\ Vbytes out = 204)
    by (vm_compute; eexists; repeat split; reflexivity).
  destruct E as (out & E & Hw & Hv).
  split; [exact Hraw|]. split; [exact Htx|]. split; [exact Hb|].
  exists out. split; [exact E|]. split; [exact Hw|]. split; [exact Hv|].
  exact (proj2 (proj2 (proj2 (proj2
           (@ParseTransaction_weight _ _ _ genesis_fixture _ genesis_tx [] out
              Hraw Htx E Hb))))).
Defined.

(** The P2WPKH program of the test vectors of BIP 173 under a tag that
    is neither [mainnet] nor [testnet]. *)
Lemma GetAddressFromScript_not_mainnet_witness :
  "regtest" <> "mainnet"
  /\ GetAddressFromScript
       (bytes_of_hex "0014751e76e8199196d454941c45d1b3a323f1433bd6") "regtest"
     = GetAddressFromScript
         (bytes_of_hex "0014751e76e8199196d454941c45d1b3a323f1433bd6") "testnet"
  /\ GetAddressFromScript
       (bytes_of_hex "0014751e76e8199196d454941c45d1b3a323f1433bd6") "regtest"
     = Some "tb1qw508d6qejxtdg4y5r3zarvary0c5xw7kxpjzsx".
Proof.
  assert (H : "regtest" <> "mainnet") by discriminate.
  split; [exact H|]. split.
  - exact (proj1 (proj2 (@GetAddressFromScript_not_mainnet _
                           (bytes_of_hex "0014751e76e8199196d454941c45d1b3a323f1433bd6")
                           "regtest" H))).
  - vm_compute. reflexivity.
Defined.

End Recorded.

(** * Properties of the remaining functions

    The functions of [utils], [analyzer] and [parser] beside those the
    sections above are about, and how they work together. *)

(** ** CompactSize integers *)

Section CompactSize.
Import Utils.

Lemma le_decode_encode (n : nat) :
  forall x, 0 <= x -> le_decode (le_encode n x) = x mod 256 ^ Z.of_nat n.
Proof.
  induction n as [|n IH]; intros x Hx.
  - simpl. rewrite Z.mod_1_r. reflexivity.
  - cbn [le_encode le_decode]. rewrite IH by (apply Z.div_pos; lia).
    rewrite Nat2Z.inj_succ, Z.pow_succ_r by lia.
    rewrite Z.rem_mul_r by lia. reflexivity.
Qed.

Lemma le_encode_length (n : nat) : forall x, List.length (le_encode n x) = n.
Proof. induction n as [|n IH]; intro x; simpl; [|rewrite IH]; reflexivity. Qed.

Lemma binary_Read_le_encode (n : nat) (x : Z) (rest : list byte) :
  0 <= x < 256 ^ Z.of_nat n ->
  binary_Read_le (Z.of_nat n) (le_encode n x ++ rest) = Ok (x, rest).
Proof.
  intro Hx.
  rewrite <- (le_encode_length n x) at 1.
  rewrite binary_Read_le_app, le_decode_encode by lia.
  rewrite Z.mod_small by exact Hx. reflexivity.
Qed.

(** X1. What [WriteCompactSize] writes for a [uint64], [ReadCompactSize]
    reads back, and it leaves the bytes that follow unread. *)
Theorem ReadCompactSize_WriteCompactSize (val : Z) (rest : list byte) :
  0 <= val < two64 ->
  ReadCompactSize (WriteCompactSize val ++ rest) = Ok (val, rest).
Proof.
  intros [H0 H64]. unfold two64 in H64. unfold WriteCompactSize.
  destruct (val <? 0xfd) eqn:E1.
  - apply Z.ltb_lt in E1. rewrite Z.mod_small by lia.
    unfold ReadCompactSize, bind, ReadByte. cbn [app].
    destruct (val =? 0xfd) eqn:A; [apply Z.eqb_eq in A; lia|].
    destruct (val =? 0xfe) eqn:B; [apply Z.eqb_eq in B; lia|].
    destruct (val =? 0xff) eqn:C; [apply Z.eqb_eq in C; lia|].
    reflexivity.
  - apply Z.ltb_ge in E1.
    destruct (val <=? 0xffff) eqn:E2; [|destruct (val <=? 0xffffffff) eqn:E3].
    + apply Z.leb_le in E2.
      unfold ReadCompactSize, bind, ReadByte. cbn [app]. cbn [Z.eqb Pos.eqb].
      apply (binary_Read_le_encode 2). change (256 ^ Z.of_nat 2) with 65536. lia.
    + apply Z.leb_le in E3.
      unfold ReadCompactSize, bind, ReadByte. cbn [app]. cbn [Z.eqb Pos.eqb].
      apply (binary_Read_le_encode 4).
      change (256 ^ Z.of_nat 4) with 4294967296. lia.
    + unfold ReadCompactSize, bind, ReadByte. cbn [app]. cbn [Z.eqb Pos.eqb].
      apply (binary_Read_le_encode 8).
      change (256 ^ Z.of_nat 8) with (2 ^ 64). lia.
Qed.

Lemma ReadCompactSize_WriteCompactSize_witness :
  ReadCompactSize (WriteCompactSize 70000 ++ [1; 2]) = Ok (70000, [1; 2]).
Proof. apply ReadCompactSize_WriteCompactSize. unfold two64. lia. Defined.

End CompactSize.

(** ** Hexadecimal text *)

Section HexText.
Import Hex.

Lemma fromHexChar_hexchar (n : Z) :
  0 <= n < 16 -> fromHexChar (hexchar n) = Some n.
Proof.
  intro H. rewrite <- (Z2Nat.id n) at 2 by lia. unfold hexchar.
  assert (Hk : (Z.to_nat n < 16)%nat) by lia.
  remember (Z.to_nat n) as k eqn:Heqk. clear Heqk H.
  do 16 (destruct k as [|k]; [reflexivity|]). lia.
Qed.

Lemma DecodeString_EncodeToString (bs : list byte) :
  all_bytes bs -> DecodeString (EncodeToString bs) = Ok bs.
Proof.
  induction 1 as [|b bs Hb _ IH]; [reflexivity|].
  unfold is_byte in Hb. cbn [EncodeToString DecodeString].
  rewrite !fromHexChar_hexchar, IH.
  - f_equal. f_equal. pose proof (Z.div_mod b 16). lia.
  - apply Z.mod_pos_bound. lia.
  - split; [apply Z.div_pos; lia | apply Z.div_lt_upper_bound; lia].
Qed.

Lemma EncodeToString_length (bs : list byte) :
  String.length (EncodeToString bs) = (List.length bs * 2)%nat.
Proof. induction bs as [|b bs IH]; simpl; [|rewrite IH]; reflexivity. Qed.

(** The encoding of bytes determines them. *)
Lemma EncodeToString_inj (a b : list byte) :
  all_bytes a -> all_bytes b -> EncodeToString a = EncodeToString b -> a = b.
Proof.
  intros Ha Hb E.
  apply DecodeString_EncodeToString in Ha, Hb. congruence.
Qed.

Lemma HexToBytes_encoded (bs : list byte) :
  all_bytes bs -> HexToBytes (EncodeToString bs) = Ok bs.
Proof.
  intro H. unfold HexToBytes.
  rewrite EncodeToString_length, Nat.Div0.mod_mul. cbn [Nat.eqb].
  apply DecodeString_EncodeToString. exact H.
Qed.

(** X2. [HexToBytes] accepts the text that [hex.EncodeToString] makes of
    any bytes and gives the bytes back; two byte strings with the same
    text are equal. *)
Theorem HexToBytes_EncodeToString (bs : list byte) :
  all_bytes bs ->
  HexToBytes (EncodeToString bs) = Ok bs
  /\ forall bs', all_bytes bs' -> EncodeToString bs' = EncodeToString bs -> bs' = bs.
Proof.
  intro H. split; [apply HexToBytes_encoded; exact H|].
  intros bs' H' E. apply EncodeToString_inj; assumption.
Qed.

Lemma HexToBytes_EncodeToString_witness :
  all_bytes [0x00; 0x7f; 0xff]
  /\ HexToBytes (EncodeToString [0x00; 0x7f; 0xff]) = Ok [0x00; 0x7f; 0xff].
Proof.
  assert (H : all_bytes [0x00; 0x7f; 0xff])
    by (repeat constructor; unfold is_byte; lia).
  split; [exact H | exact (proj1 (HexToBytes_EncodeToString _ H))].
Defined.

(** The errors of [hex.DecodeString]: the first character that is no
    hexadecimal digit is named, also when it is a last character left
    alone; a text of hexadecimal digits of odd length is reported as
    such. *)
Example DecodeString_errors :
  DecodeString "0g12" = Err (Errorf "encoding/hex: invalid byte: U+0067 'g'")
  /\ DecodeString "12 3" = Err (Errorf "encoding/hex: invalid byte: U+0020 ' '")
  /\ DecodeString "12g" = Err (Errorf "encoding/hex: invalid byte: U+0067 'g'")
  /\ DecodeString "123" = Err (Errorf "encoding/hex: odd length hex string")
  /\ DecodeString (String (ascii_of_nat 10) "0")
     = Err (Errorf "encoding/hex: invalid byte: U+000A").
Proof. repeat split; vm_compute; reflexivity. Qed.

End HexText.

(** A check of [all_bytes] by evaluation. *)
Lemma all_bytes_check (s : list byte) :
  forallb (fun b => (0 <=? b) && (b <? 256)) s = true -> all_bytes s.
Proof.
  intro H. apply Forall_forall. intros b Hb.
  rewrite forallb_forall in H. specialize (H b Hb).
  apply andb_prop in H. destruct H as [H1 H2].
  apply Z.leb_le in H1. apply Z.ltb_lt in H2. split; assumption.
Qed.

(** ** Transactions of a block *)

Section Reparse.
Context {FL : Float64} {BU : Btcutil} {BD : Btcd}.

(** X3. [analyzeTransaction] serializes the transaction and hands the
    text to [ParseTransaction]; when the codec reads back what it wrote,
    the result is the analysis of the transaction itself, under the
    network of the fixture, with the prevouts of the fixture or with
    none for a coinbase. *)
Theorem analyzeTransaction_analyze_tx (tx : MsgTx) (fixture : Fixture)
    (isCoinbase : bool) (rest : list byte) :
  all_bytes (MsgTx_Serialize tx) ->
  MsgTx_Deserialize (MsgTx_Serialize tx) = Ok (tx, rest) ->
  analyzeTransaction tx fixture isCoinbase
  = analyze_tx (Network fixture) (if isCoinbase then [] else Prevouts fixture) tx.
Proof.
  intros Hb Hrt. unfold analyzeTransaction, ParseTransaction. cbn [RawTx Network Prevouts].
  rewrite (HexToBytes_encoded _ Hb), Hrt. reflexivity.
Qed.

End Reparse.

Section ReparseRecorded.
Import Reference.

(** The coinbase transaction of the genesis block. *)
Lemma analyzeTransaction_analyze_tx_witness :
  all_bytes (MsgTx_Serialize genesis_tx)
  /\ MsgTx_Deserialize (MsgTx_Serialize genesis_tx) = Ok (genesis_tx, [])
  /\ analyzeTransaction genesis_tx genesis_fixture true
     = analyze_tx "mainnet" [] genesis_tx.
Proof.
  assert (Hb : all_bytes (MsgTx_Serialize genesis_tx))
    by (apply all_bytes_check; vm_compute; reflexivity).
  assert (Hrt : MsgTx_Deserialize (MsgTx_Serialize genesis_tx) = Ok (genesis_tx, []))
    by (vm_compute; reflexivity).
  split; [exact Hb|]. split; [exact Hrt|].
  exact (analyzeTransaction_analyze_tx genesis_tx genesis_fixture true [] Hb Hrt).
Defined.

End ReparseRecorded.

(** ** Byte order and text of package [utils] *)

Section SliceProps.
Import Utils Analyzer Slices.

Lemma ReverseBytes_rev (b : list byte) : ReverseBytes b = rev b.
Proof.
  unfold ReverseBytes.
  apply (nth_ext _ _ 0 0).
  - rewrite length_map, length_seq, length_rev. reflexivity.
  - intros i Hi. rewrite length_map, length_seq in Hi.
    rewrite rev_nth by exact Hi.
    rewrite (nth_indep _ 0 ((fun i => nth (List.length b - 1 - i) b 0) 0%nat))
      by (rewrite length_map, length_seq; exact Hi).
    rewrite (map_nth (fun i => nth (List.length b - 1 - i) b 0)).
    rewrite seq_nth by exact Hi.
    f_equal. lia.
Qed.

(** X4. [ReverseBytes] gives the bytes in the opposite order, so byte
    [i] of the result is byte [len - 1 - i] of the argument for every
    index, and reversing twice gives the slice back. *)
Theorem ReverseBytes_involutive (b : list byte) :
  ReverseBytes (ReverseBytes b) = b
  /\ List.length (ReverseBytes b) = List.length b
  /\ forall i, (i < List.length b)%nat ->
               nth i (ReverseBytes b) 0 = nth (List.length b - 1 - i) b 0.
Proof.
  rewrite !ReverseBytes_rev. split; [apply rev_involutive|].
  split; [apply length_rev|].
  intros i Hi. rewrite rev_nth by exact Hi. f_equal. lia.
Qed.

(** X5. [utils.IsValidUTF8] never reaches its test of the length: on
    empty data the index panics, and on other data the answer is whether
    the first byte differs from [0xef], whatever follows it. *)
Theorem IsValidUTF8_first_byte (data : list byte) :
  (data = [] -> exists msg, IsValidUTF8 data = Err (Panic msg))
  /\ (forall b rest, data = b :: rest ->
        IsValidUTF8 data = Ok (negb (b =? 0xef)))
  /\ (IsValidUTF8 data = Ok true <->
      exists b rest, data = b :: rest /\ b <> 0xef).
Proof.
  split; [intros ->; eexists; reflexivity|].
  assert (H : forall b rest, IsValidUTF8 (b :: rest) = Ok (negb (b =? 0xef))).
  { intros b rest. unfold IsValidUTF8, len.
    replace (Z.of_nat (List.length (b :: rest)) =? 0) with false.
    - rewrite orb_false_r. reflexivity.
    - symmetry. apply Z.eqb_neq. simpl List.length. lia. }
  split; [intros b rest ->; apply H|].
  destruct data as [|b rest].
  - split; [discriminate|]. intros (b & rest & E & _). discriminate E.
  - rewrite H. split.
    + intro E. exists b, rest. split; [reflexivity|].
      intros ->. discriminate E.
    + intros (b' & rest' & E & Hb). assert (b' = b) by congruence. subst b'.
      apply Z.eqb_neq in Hb. rewrite Hb. reflexivity.
Qed.

Lemma xor_from_nth (key data : list byte) :
  forall j i, (i < List.length data)%nat ->
    nth i (xor_from j data key) 0
    = Z.lxor (nth i data 0) (nth ((j + i) mod List.length key) key 0).
Proof.
  induction data as [|d rest IH]; intros j i Hi; [simpl in Hi; lia|].
  destruct i as [|i]; cbn [xor_from nth].
  - rewrite Nat.add_0_r. reflexivity.
  - rewrite IH by (simpl in Hi; lia).
    replace (S j + i)%nat with (j + S i)%nat by lia. reflexivity.
Qed.

Lemma allZero_nth (key : list byte) (k : nat) :
  allZero key = true -> nth k key 0 = 0.
Proof.
  unfold allZero. rewrite forallb_forall. intro H.
  destruct (Nat.lt_ge_cases k (List.length key)) as [Hk|Hk].
  - apply Z.eqb_eq. apply H. apply nth_In. exact Hk.
  - apply nth_overflow. exact Hk.
Qed.

(** X6. With a key that is not empty, byte [i] of the decoded data is
    byte [i] of the data xor byte [i mod len(key)] of the key; the
    all-zero key, for which the data are returned as they are, is no
    exception. *)
Theorem XORDecode_nth (data key : list byte) (i : nat) :
  key <> [] -> (i < List.length data)%nat ->
  nth i (XORDecode data key) 0
  = Z.lxor (nth i data 0) (nth (i mod List.length key) key 0).
Proof.
  intros Hk Hi. unfold XORDecode. destruct key as [|k key']; [congruence|].
  destruct (allZero (k :: key')) eqn:E.
  - rewrite (allZero_nth _ _ E), Z.lxor_0_r. reflexivity.
  - rewrite xor_from_nth by exact Hi. reflexivity.
Qed.

Lemma XORDecode_nth_witness :
  [0x0f; 0xf0] <> []
  /\ (2 < List.length [0x11; 0x22; 0x33])%nat
  /\ nth 2 (XORDecode [0x11; 0x22; 0x33] [0x0f; 0xf0]) 0 = Z.lxor 0x33 0x0f.
Proof.
  assert (Hk : [0x0f; 0xf0] <> ([] : list byte)) by discriminate.
  assert (Hi : (2 < List.length [0x11; 0x22; 0x33])%nat) by (simpl; lia).
  split; [exact Hk|]. split; [exact Hi|].
  exact (XORDecode_nth [0x11; 0x22; 0x33] [0x0f; 0xf0] 2 Hk Hi).
Defined.

End SliceProps.

(** ** Relative timelocks *)

Section TimelockProps.
Import Analyzer Timelock.

Lemma land_pow2 (a n : Z) :
  0 <= n -> Z.land a (2 ^ n) = if Z.testbit a n then 2 ^ n else 0.
Proof.
  intro Hn. apply Z.bits_inj'. intros m Hm.
  rewrite Z.land_spec, Z.pow2_bits_eqb by exact Hn.
  destruct (Z.eqb_spec n m) as [->|Hne].
  - destruct (Z.testbit a m); [|rewrite Z.bits_0; reflexivity].
    rewrite Z.pow2_bits_true by exact Hm. reflexivity.
  - rewrite andb_false_r.
    destruct (Z.testbit a n); [|rewrite Z.bits_0; reflexivity].
    rewrite Z.pow2_bits_false by exact Hne. reflexivity.
Qed.

Lemma testbit_top (a n : Z) :
  0 <= n -> 0 <= a < 2 ^ (n + 1) -> Z.testbit a n = (2 ^ n <=? a).
Proof.
  intros Hn Ha. rewrite Z.testbit_eqb by exact Hn.
  assert (Hp : 0 < 2 ^ n) by (apply Z.pow_pos_nonneg; lia).
  rewrite Z.pow_add_r, Z.pow_1_r in Ha by lia.
  destruct (Z.leb_spec (2 ^ n) a) as [Hle|Hlt].
  - assert (a / 2 ^ n = 1) by (symmetry; apply Z.div_unique with (a - 2 ^ n); lia).
    replace (a / 2 ^ n) with 1. reflexivity.
  - rewrite Z.div_small by lia. reflexivity.
Qed.

(** X7. For a [uint32] sequence number the relative timelock is enabled
    exactly when the number is below 2^31 (the later comparison with
    [0xfffffffe] decides nothing); bit 22 selects the unit, and the value
    is the low 16 bits, times 512 for the unit of time, which never
    leaves the range of [uint32]. *)
Theorem ParseRelativeTimelock_value (sequence : Z) :
  0 <= sequence < 2 ^ 32 ->
  ParseRelativeTimelock sequence
  = if sequence <? 2 ^ 31 then
      if Z.testbit sequence 22
      then (true, "time", 512 * (sequence mod 2 ^ 16))
      else (true, "blocks", sequence mod 2 ^ 16)
    else (false, "", 0).
Proof.
  intro H. unfold ParseRelativeTimelock.
  change (Z.shiftl 1 31) with (2 ^ 31). change (Z.shiftl 1 22) with (2 ^ 22).
  rewrite !land_pow2 by lia.
  rewrite (testbit_top sequence 31) by (change (2 ^ (31 + 1)) with (2 ^ 32); lia).
  change 0xffff with (Z.ones 16). rewrite Z.land_ones by lia.
  pose proof (Z.mod_pos_bound sequence (2 ^ 16) ltac:(lia)) as Hm.
  destruct (Z.leb_spec (2 ^ 31) sequence) as [Hle|Hlt].
  - change (2 ^ 31 =? 0) with false. cbn [negb].
    destruct (Z.ltb_spec sequence (2 ^ 31)); [lia|reflexivity].
  - change (0 =? 0) with true. cbn [negb].
    destruct (Z.ltb_spec sequence (2 ^ 31)); [|lia].
    destruct (sequence >=? 0xfffffffe) eqn:E; [apply Z.geb_le in E; lia|].
    destruct (Z.testbit sequence 22).
    + change (2 ^ 22 =? 0) with false. cbn [negb].
      unfold wrap32. rewrite Z.mod_small by lia. f_equal. lia.
    + reflexivity.
Qed.

Lemma ParseRelativeTimelock_value_witness :
  0 <= 0x00400010 < 2 ^ 32
  /\ ParseRelativeTimelock 0x00400010 = (true, "time", 8192).
Proof.
  assert (H : 0 <= 0x00400010 < 2 ^ 32) by lia.
  split; [exact H|]. exact (ParseRelativeTimelock_value 0x00400010 H).
Defined.

(** X8. An input whose relative timelock is enabled makes the
    transaction signal replaceability. *)
Theorem ParseRelativeTimelock_signals_rbf (sequences : list Z) (sequence : Z) :
  In sequence sequences ->
  fst (fst (ParseRelativeTimelock sequence)) = true ->
  IsRBFSignaling sequences = true.
Proof.
  intros Hin He. unfold IsRBFSignaling. apply existsb_exists.
  exists sequence. split; [exact Hin|].
  unfold ParseRelativeTimelock in He.
  destruct (negb (Z.land sequence (Z.shiftl 1 31) =? 0)); [discriminate|].
  destruct (sequence >=? 0xfffffffe) eqn:E; [discriminate|].
  apply Z.ltb_lt.
  destruct (Z.geb_spec sequence 0xfffffffe); [discriminate|lia].
Qed.

Lemma ParseRelativeTimelock_signals_rbf_witness :
  In 144 [0xffffffff; 144]
  /\ fst (fst (ParseRelativeTimelock 144)) = true
  /\ IsRBFSignaling [0xffffffff; 144] = true.
Proof.
  assert (Hin : In 144 [0xffffffff; 144]) by (right; left; reflexivity).
  assert (He : fst (fst (ParseRelativeTimelock 144)) = true) by reflexivity.
  split; [exact Hin|]. split; [exact He|].
  exact (ParseRelativeTimelock_signals_rbf _ _ Hin He).
Defined.

End TimelockProps.

(** ** Input scripts *)

Section InputScripts.
Import Analyzer Script.

Ltac split_and H :=
  repeat match type of H with
         | (_ && _) = true => let H' := fresh "T" in
                              apply andb_prop in H; destruct H as [H H']
         end.

Lemma len_0_nil (s : list byte) : (len s =? 0) = true -> s = [].
Proof.
  intro H. apply Z.eqb_eq in H. unfold len in H.
  destruct s; [reflexivity|simpl in H; lia].
Qed.

(** With a scriptSig the first four tests and the last one fail, and
    the previous output is looked at for [p2pkh] only. *)
Lemma ClassifyInputScript_scriptSig (scriptSig : list byte)
    (witness : list (list byte)) (prevoutScript : list byte) :
  (len scriptSig =? 0) = false ->
  ClassifyInputScript scriptSig witness prevoutScript
  = if (len scriptSig =? 23) && (idx scriptSig 0 =? 0x16)
       && (idx scriptSig 1 =? 0x00) && (idx scriptSig 2 =? 0x14)
       && (wlen witness =? 2)
    then "p2sh-p2wpkh"
    else if (len scriptSig =? 35) && (idx scriptSig 0 =? 0x22)
            && (idx scriptSig 1 =? 0x00) && (idx scriptSig 2 =? 0x20)
            && (wlen witness >? 0)
    then "p2sh-p2wsh"
    else if negb (wlen witness >? 0)
            && String.eqb (ClassifyOutputScript prevoutScript) "p2pkh"
    then "p2pkh"
    else "unknown".
Proof.
  intro E. unfold ClassifyInputScript. cbv zeta. rewrite E.
  cbn [andb negb]. reflexivity.
Qed.

(** Without a scriptSig no nested type is given. *)
Lemma ClassifyInputScript_empty_scriptSig (scriptSig : list byte)
    (witness : list (list byte)) (prevoutScript : list byte) :
  (len scriptSig =? 0) = true ->
  ClassifyInputScript scriptSig witness prevoutScript <> "p2sh-p2wpkh"
  /\ ClassifyInputScript scriptSig witness prevoutScript <> "p2sh-p2wsh".
Proof.
  intro E. unfold ClassifyInputScript. cbv zeta. rewrite E.
  assert (E23 : (len scriptSig =? 23) = false)
    by (apply Z.eqb_eq in E; apply Z.eqb_neq; lia).
  assert (E35 : (len scriptSig =? 35) = false)
    by (apply Z.eqb_eq in E; apply Z.eqb_neq; lia).
  rewrite E23, E35. cbn [andb negb].
  repeat match goal with
         | |- context [if ?c then _ else _] =>
             let C := fresh "C" in destruct c eqn:C
         end;
    try (split; discriminate).
  split_and C3. apply orb_prop in T.
  destruct T as [T|T]; apply String.eqb_eq in T; rewrite T; split; discriminate.
Qed.

(** X9. The type of an input names a type of previous output only
    when the previous output has it: the two taproot types are given to
    inputs with an empty scriptSig and a witness that spend a [p2tr]
    output, and [p2wpkh], [p2wsh], [p2pkh] and [p2sh] to inputs whose
    previous output is classified so.  The two nested types are given
    without a look at the previous output: an input that has one of
    them has it whatever the previous output is.  The result is always
    one of nine names. *)
Theorem ClassifyInputScript_prevout (scriptSig : list byte)
    (witness : list (list byte)) (prevoutScript : list byte) :
  let t := ClassifyInputScript scriptSig witness prevoutScript in
  (t = "p2tr_keypath" \/ t = "p2tr_scriptpath" ->
   ClassifyOutputScript prevoutScript = "p2tr" /\ scriptSig = [] /\ witness <> [])
  /\ (In t ["p2wpkh"; "p2wsh"; "p2pkh"; "p2sh"] ->
      ClassifyOutputScript prevoutScript = t)
  /\ (t = "p2sh-p2wpkh" \/ t = "p2sh-p2wsh" ->
      forall prevoutScript', ClassifyInputScript scriptSig witness prevoutScript' = t)
  /\ In t ["p2tr_keypath"; "p2tr_scriptpath"; "p2wpkh"; "p2wsh"; "p2sh-p2wpkh";
           "p2sh-p2wsh"; "p2pkh"; "p2sh"; "unknown"].
Proof.
  cbv zeta.
  assert (Hnested :
            ClassifyInputScript scriptSig witness prevoutScript = "p2sh-p2wpkh"
            \/ ClassifyInputScript scriptSig witness prevoutScript = "p2sh-p2wsh" ->
            forall prevoutScript',
              ClassifyInputScript scriptSig witness prevoutScript'
              = ClassifyInputScript scriptSig witness prevoutScript).
  { intros Ht p'. destruct (len scriptSig =? 0) eqn:E.
    - destruct (ClassifyInputScript_empty_scriptSig scriptSig witness prevoutScript E).
      destruct Ht; contradiction.
    - rewrite (ClassifyInputScript_scriptSig _ _ prevoutScript E) in Ht |- *.
      rewrite (ClassifyInputScript_scriptSig _ _ p' E).
      destruct (_ && (wlen witness =? 2)); [reflexivity|].
      destruct (_ && (wlen witness >? 0)); [reflexivity|].
      exfalso. destruct (_ && _); destruct Ht as [Ht|Ht]; discriminate Ht. }
  assert (Hrest :
            (ClassifyInputScript scriptSig witness prevoutScript = "p2tr_keypath"
             \/ ClassifyInputScript scriptSig witness prevoutScript = "p2tr_scriptpath" ->
             ClassifyOutputScript prevoutScript = "p2tr"
             /\ scriptSig = [] /\ witness <> [])
            /\ (In (ClassifyInputScript scriptSig witness prevoutScript)
                   ["p2wpkh"; "p2wsh"; "p2pkh"; "p2sh"] ->
                ClassifyOutputScript prevoutScript
                = ClassifyInputScript scriptSig witness prevoutScript)
            /\ In (ClassifyInputScript scriptSig witness prevoutScript)
                 ["p2tr_keypath"; "p2tr_scriptpath"; "p2wpkh"; "p2wsh"; "p2sh-p2wpkh";
                  "p2sh-p2wsh"; "p2pkh"; "p2sh"; "unknown"]);
    [|destruct Hrest as (H1 & H2 & H3);
     split; [exact H1|]; split; [exact H2|]; split; [exact Hnested|exact H3]].
  clear Hnested.
  unfold ClassifyInputScript. cbv zeta.
  assert (Hw1 : (wlen witness =? 1) = true -> witness <> []).
  { intros H ->. discriminate H. }
  assert (Hw2 : (wlen witness >? 1) = true -> witness <> []).
  { intros H ->. discriminate H. }
  set (pt := ClassifyOutputScript prevoutScript).
  match goal with |- context [if ?c then "p2tr_keypath" else _] => destruct c eqn:C end.
  { split_and C. apply String.eqb_eq in T. apply len_0_nil in C.
    split; [intros _; auto|]. split; [|cbn [In]; tauto].
    intros [H|[H|[H|[H|[]]]]]; discriminate H. }
  clear C.
  match goal with |- context [if ?c then "p2tr_scriptpath" else _] => destruct c eqn:C end.
  { split_and C. apply String.eqb_eq in T0. apply len_0_nil in C.
    split; [intros _; auto|]. split; [|cbn [In]; tauto].
    intros [H|[H|[H|[H|[]]]]]; discriminate H. }
  clear C.
  match goal with |- context [if ?c then "p2wpkh" else _] => destruct c eqn:C end.
  { split_and C. apply String.eqb_eq in T.
    split; [intros [H|H]; discriminate H|]. split; [|cbn [In]; tauto].
    intros _. exact T. }
  clear C.
  match goal with |- context [if ?c then "p2wsh" else _] => destruct c eqn:C end.
  { split_and C. apply String.eqb_eq in T.
    split; [intros [H|H]; discriminate H|]. split; [|cbn [In]; tauto].
    intros _. exact T. }
  clear C.
  match goal with |- context [if ?c then "p2sh-p2wpkh" else _] => destruct c eqn:C end.
  { split; [intros [H|H]; discriminate H|]. split; [|cbn [In]; tauto].
    intros [H|[H|[H|[H|[]]]]]; discriminate H. }
  clear C.
  match goal with |- context [if ?c then "p2sh-p2wsh" else _] => destruct c eqn:C end.
  { split; [intros [H|H]; discriminate H|]. split; [|cbn [In]; tauto].
    intros [H|[H|[H|[H|[]]]]]; discriminate H. }
  clear C.
  match goal with |- context [if ?c then "p2pkh" else _] => destruct c eqn:C end.
  { split_and C. apply String.eqb_eq in T.
    split; [intros [H|H]; discriminate H|]. split; [|cbn [In]; tauto].
    intros _. exact T. }
  clear C.
  match goal with |- context [if ?c then pt else _] => destruct c eqn:C end.
  { split_and C. apply orb_prop in T.
    destruct T as [T|T]; apply String.eqb_eq in T; rewrite T;
      (split; [intros [H|H]; discriminate H|]); (split; [|cbn [In]; tauto]);
      intros _; reflexivity. }
  split; [intros [H|H]; discriminate H|]. split; [|cbn [In]; tauto].
  intros [H|[H|[H|[H|[]]]]]; discriminate H.
Qed.

(** X10. An input with a scriptSig and no witness that spends a [p2sh]
    output, the form of every spend of a script hash that is not a
    nested witness program, is classified [unknown]. *)
Theorem ClassifyInputScript_legacy_p2sh (scriptSig prevoutScript : list byte) :
  scriptSig <> [] ->
  ClassifyOutputScript prevoutScript = "p2sh" ->
  ClassifyInputScript scriptSig [] prevoutScript = "unknown".
Proof.
  intros Hs Hp. unfold ClassifyInputScript. cbv zeta. rewrite Hp.
  assert (E : (len scriptSig =? 0) = false).
  { apply Z.eqb_neq. unfold len. destruct scriptSig; [congruence|simpl; lia]. }
  rewrite E. cbn [wlen List.length Z.of_nat Z.eqb Z.gtb Z.compare andb negb orb].
  rewrite !andb_false_r. reflexivity.
Qed.

Lemma ClassifyInputScript_legacy_p2sh_witness :
  [0x00; 0x51] <> []
  /\ ClassifyOutputScript ([0xa9; 0x14] ++ repeat 0x11 20 ++ [0x87]) = "p2sh"
  /\ ClassifyInputScript [0x00; 0x51] [] ([0xa9; 0x14] ++ repeat 0x11 20 ++ [0x87])
     = "unknown".
Proof.
  assert (Hs : [0x00; 0x51] <> ([] : list byte)) by discriminate.
  assert (Hp : ClassifyOutputScript ([0xa9; 0x14] ++ repeat 0x11 20 ++ [0x87]) = "p2sh")
    by reflexivity.
  split; [exact Hs|]. split; [exact Hp|].
  exact (ClassifyInputScript_legacy_p2sh _ _ Hs Hp).
Defined.

End InputScripts.

(** ** Disassembly *)

Section Disassembly.
Import Utils Analyzer Script.

Lemma disassemble_loop_nil (turns : nat) (parts : list string) :
  disassemble_loop turns [] parts = parts.
Proof. destruct turns; reflexivity. Qed.

(** As many turns as there are bytes left are enough: more turns change
    nothing. *)
Lemma disassemble_loop_enough (n : nat) :
  forall turns rest parts,
    (List.length rest <= n)%nat -> (n <= turns)%nat ->
    disassemble_loop turns rest parts = disassemble_loop n rest parts.
Proof.
  induction n as [|n IH]; intros turns rest parts Hlen Hn.
  - destruct rest; [|simpl in Hlen; lia].
    rewrite !disassemble_loop_nil. reflexivity.
  - destruct turns as [|turns]; [lia|].
    destruct rest as [|op rest]; [reflexivity|].
    simpl in Hlen. cbn [disassemble_loop]. cbv zeta.
    assert (Hskip : forall k (l : list byte),
               (List.length l <= n)%nat -> (List.length (skipn k l) <= n)%nat)
      by (intros k l Hl; rewrite length_skipn; lia).
    assert (Hrest : (List.length rest <= n)%nat) by lia.
    repeat match goal with
           | |- context [if ?c then _ else _] => destruct c
           | |- context [match ?l with [] => _ | _ :: _ => _ end] =>
               destruct l; simpl List.length in *
           end;
      apply IH; try lia; auto;
      try (simpl; lia);
      try (apply Hskip; try apply Hskip; simpl; lia).
Qed.

Lemma disassemble_loop_Op (turns : nat) (op : byte) (rest : list byte)
    (parts : list string) :
  well_formed_item (Op op) ->
  disassemble_loop (S turns) (op :: rest) parts
  = disassemble_loop turns rest (parts ++ [render (Op op)]).
Proof.
  intros [->|H]; [reflexivity|]. cbn [disassemble_loop render].
  destruct (Z.eqb_spec op 0x00); [lia|].
  destruct (Z.leb_spec op 0x4b); [lia|]. rewrite andb_false_r.
  destruct (Z.eqb_spec op 0x4c); [lia|].
  destruct (Z.eqb_spec op 0x4d); [lia|].
  destruct (Z.eqb_spec op 0x4e); [lia|].
  destruct (Z.eqb_spec op 0); [lia|]. reflexivity.
Qed.

Lemma direct_push_tests (n : Z) :
  1 <= n <= 75 -> (n =? 0x00) = false /\ (0x01 <=? n) && (n <=? 0x4b) = true.
Proof.
  intro H. split; [apply Z.eqb_neq; lia|].
  apply andb_true_intro. split; apply Z.leb_le; lia.
Qed.

Lemma disassemble_loop_Push (turns : nat) (data rest : list byte)
    (parts : list string) :
  well_formed_item (Push data) ->
  disassemble_loop (S turns) (len data :: data ++ rest) parts
  = disassemble_loop turns rest (parts ++ [render (Push data)]).
Proof.
  cbn [well_formed_item]. intro H. cbn [disassemble_loop render]. cbv zeta.
  destruct (direct_push_tests _ H) as [-> ->].
  assert (Hlen : (len data >? len (data ++ rest)) = false).
  { unfold len. rewrite length_app.
    destruct (Z.gtb_spec (Z.of_nat (List.length data))
                (Z.of_nat (List.length data + List.length rest))); [lia|reflexivity]. }
  rewrite Hlen.
  replace (Z.to_nat (len data)) with (List.length data) by (unfold len; lia).
  rewrite firstn_app, skipn_app, firstn_all, skipn_all, Nat.sub_diag.
  cbn [firstn skipn app]. rewrite app_nil_r. reflexivity.
Qed.

Lemma disassemble_loop_PushData1 (turns : nat) (data rest : list byte)
    (parts : list string) :
  disassemble_loop (S turns) (0x4c :: len data :: data ++ rest) parts
  = disassemble_loop turns rest (parts ++ [render (PushData1 data)]).
Proof.
  cbn [disassemble_loop render]. cbv zeta.
  assert (Hc : clamp (len data) (data ++ rest) = len data).
  { unfold clamp, len. rewrite length_app.
    match goal with |- (if ?a >? ?b then _ else _) = _ => destruct (Z.gtb_spec a b) end;
      [lia|reflexivity]. }
  rewrite Hc.
  replace (Z.to_nat (len data)) with (List.length data) by (unfold len; lia).
  rewrite firstn_app, skipn_app, firstn_all, skipn_all, Nat.sub_diag.
  cbn [firstn skipn app]. rewrite app_nil_r. reflexivity.
Qed.

Lemma assemble_cons (it : script_item) (items : list script_item) :
  assemble (it :: items) = assemble_item it ++ assemble items.
Proof. reflexivity. Qed.

Lemma disassemble_loop_items (items : list script_item) :
  Forall well_formed_item items ->
  forall turns rest parts,
    disassemble_loop (List.length items + turns) (assemble items ++ rest) parts
    = disassemble_loop turns rest (parts ++ map render items).
Proof.
  induction 1 as [|it items Hit _ IH]; intros turns rest parts.
  - rewrite app_nil_r. reflexivity.
  - rewrite assemble_cons, <- app_assoc. cbn [List.length Nat.add map].
    destruct it as [op|data|data]; cbn [assemble_item app].
    + rewrite disassemble_loop_Op by exact Hit.
      rewrite IH, <- app_assoc. reflexivity.
    + rewrite disassemble_loop_Push by exact Hit.
      rewrite IH, <- app_assoc. reflexivity.
    + rewrite disassemble_loop_PushData1.
      rewrite IH, <- app_assoc. reflexivity.
Qed.

Lemma assemble_length (items : list script_item) :
  (List.length items <= List.length (assemble items))%nat.
Proof.
  induction items as [|it items IH]; [simpl; lia|].
  rewrite assemble_cons, length_app. destruct it; simpl in *; lia.
Qed.

(** The loop on a script that opens with well-formed items. *)
Lemma disassemble_loop_prefix (items : list script_item) (rest : list byte) :
  Forall well_formed_item items ->
  disassemble_loop (List.length (assemble items ++ rest)) (assemble items ++ rest) []
  = disassemble_loop (List.length rest) rest (map render items).
Proof.
  intro H.
  set (L := List.length (assemble items ++ rest)).
  assert (HL : (List.length rest <= L)%nat)
    by (unfold L; rewrite length_app; lia).
  rewrite <- (disassemble_loop_enough L (List.length items + L)) by (unfold L; lia).
  rewrite disassemble_loop_items by exact H. cbn [app].
  apply disassemble_loop_enough; lia.
Qed.

Lemma DisassembleScript_loop (script : list byte) :
  DisassembleScript script
  = String.concat " " (disassemble_loop (List.length script) script []).
Proof.
  unfold DisassembleScript. destruct script; reflexivity.
Qed.

(** X11. A script made of opcodes that carry no data, of direct pushes
    of 1 to 75 bytes and of [OP_PUSHDATA1] pushes is disassembled item
    by item: the name of each opcode, [OP_PUSHBYTES_n] and the data in
    hexadecimal for each direct push, [OP_PUSHDATA1] and the data for
    the others, joined by single spaces. *)
Theorem DisassembleScript_assemble (items : list script_item) :
  Forall well_formed_item items ->
  DisassembleScript (assemble items) = String.concat " " (map render items).
Proof.
  intro H. rewrite DisassembleScript_loop.
  rewrite <- (app_nil_r (assemble items)).
  rewrite disassemble_loop_prefix by exact H. reflexivity.
Qed.

Lemma DisassembleScript_assemble_witness :
  Forall well_formed_item [Op 0x00; Push [0xab; 0xcd]; PushData1 [0xef]; Op 0xac]
  /\ DisassembleScript [0x00; 0x02; 0xab; 0xcd; 0x4c; 0x01; 0xef; 0xac]
     = "OP_0 OP_PUSHBYTES_2 abcd OP_PUSHDATA1 ef OP_CHECKSIG".
Proof.
  assert (H : Forall well_formed_item
                 [Op 0x00; Push [0xab; 0xcd]; PushData1 [0xef]; Op 0xac]).
  { repeat constructor; cbn; lia. }
  split; [exact H|]. exact (DisassembleScript_assemble _ H).
Defined.

(** X12. A direct push that announces more bytes than the script still
    has ends the disassembly: its opcode is rendered as [OP_PUSHBYTES_n]
    and the bytes that are there are left out. *)
Theorem DisassembleScript_truncated_push (items : list script_item) (n : Z)
    (data : list byte) :
  Forall well_formed_item items ->
  1 <= n <= 75 -> len data < n ->
  DisassembleScript (assemble items ++ n :: data)
  = String.concat " " (map render items ++ [("OP_PUSHBYTES_" ++ Sprintf_d n)%string]).
Proof.
  intros H Hn Hd. rewrite DisassembleScript_loop.
  rewrite disassemble_loop_prefix by exact H.
  cbn [List.length disassemble_loop]. cbv zeta.
  destruct (direct_push_tests _ Hn) as [-> ->].
  destruct (Z.gtb_spec n (len data)); [|lia].
  rewrite disassemble_loop_nil. reflexivity.
Qed.

Lemma DisassembleScript_truncated_push_witness :
  Forall well_formed_item [Op 0x6a]
  /\ 1 <= 0x20 <= 75 /\ len [0x01; 0x02] < 0x20
  /\ DisassembleScript [0x6a; 0x20; 0x01; 0x02] = "OP_RETURN OP_PUSHBYTES_32".
Proof.
  assert (H : Forall well_formed_item [Op 0x6a]) by (repeat constructor; cbn; lia).
  assert (Hn : 1 <= 0x20 <= 75) by lia.
  assert (Hd : len [0x01; 0x02] < 0x20) by (cbn; lia).
  split; [exact H|]. split; [exact Hn|]. split; [exact Hd|].
  exact (DisassembleScript_truncated_push [Op 0x6a] 0x20 [0x01; 0x02] H Hn Hd).
Defined.

End Disassembly.

(** ** Disassembly of the standard outputs *)

Section StandardOutputs.
Import Utils Analyzer Script.

(** The template behind each address-bearing type. *)
Lemma ClassifyOutputScript_template (s : list byte) :
  (ClassifyOutputScript s = "p2pkh" -> p2pkh_template s)
  /\ (ClassifyOutputScript s = "p2sh" -> p2sh_template s)
  /\ (ClassifyOutputScript s = "p2wpkh" -> p2wpkh_template s)
  /\ (ClassifyOutputScript s = "p2wsh" -> p2wsh_template s)
  /\ (ClassifyOutputScript s = "p2tr" -> p2tr_template s).
Proof.
  rewrite ClassifyOutputScript_tests.
  rewrite <- p2pkh_test_spec, <- p2sh_test_spec, <- p2wpkh_test_spec,
    <- p2wsh_test_spec, <- p2tr_test_spec.
  destruct (len s =? 0); [repeat split; discriminate|].
  destruct (p2pkh_test s); [repeat split; (discriminate || reflexivity)|].
  destruct (p2sh_test s); [repeat split; (discriminate || reflexivity)|].
  destruct (p2wpkh_test s); [repeat split; (discriminate || reflexivity)|].
  destruct (p2wsh_test s); [repeat split; (discriminate || reflexivity)|].
  destruct (p2tr_test s); [repeat split; (discriminate || reflexivity)|].
  destruct (op_return_test s); repeat split; discriminate.
Qed.

Lemma slice_payload (s pre h post : list byte) (lo hi : nat) :
  s = pre ++ h ++ post ->
  List.length pre = lo -> (lo + List.length h = hi)%nat ->
  slice s lo hi = h.
Proof.
  intros -> Hpre Hh. unfold slice.
  rewrite skipn_app, Hpre, Nat.sub_diag, <- Hpre, skipn_all. cbn [skipn app].
  rewrite firstn_app.
  replace (hi - List.length pre)%nat with (List.length h) by lia.
  rewrite firstn_all, Nat.sub_diag. cbn [firstn]. apply app_nil_r.
Qed.

Ltac payload pre h post :=
  match goal with
  | Hh : List.length h = _ |- context [slice ?x ?lo ?hi] =>
      replace (slice x lo hi) with h
        by (symmetry; apply (slice_payload x pre h post lo hi);
            [rewrite ?app_nil_r; reflexivity | reflexivity
            | unfold byte in *; rewrite Hh; reflexivity])
  end.

(** The disassembly of a script given as items, with the length byte of
    each push written out. *)
Ltac by_items items n :=
  match goal with
  | Hh : List.length ?h = n |- _ =>
      let Hw := fresh in
      let H := fresh in
      assert (Hw : Forall well_formed_item items)
        by (repeat constructor; cbn [well_formed_item]; unfold len, byte in *; lia);
      assert (H : DisassembleScript (assemble items)
                  = String.concat " " (map render items))
        by (rewrite DisassembleScript_loop, <- (app_nil_r (assemble items)),
              disassemble_loop_prefix by exact Hw; reflexivity);
      unfold assemble in H; cbn [map assemble_item List.concat app] in H;
      unfold len, byte in H; rewrite Hh in H; cbn [map render] in H;
      unfold len, byte in H; rewrite Hh in H;
      rewrite app_nil_r in H || idtac;
      exact H
  end.

(** X13. The scripts of the five address-bearing types disassemble to
    the standard forms, with the hash, the witness program or the output
    key in hexadecimal. *)
Theorem DisassembleScript_standard (s : list byte) :
  (ClassifyOutputScript s = "p2pkh" ->
   DisassembleScript s
   = ("OP_DUP OP_HASH160 OP_PUSHBYTES_20 " ++ Hex.EncodeToString (slice s 3 23)
      ++ " OP_EQUALVERIFY OP_CHECKSIG")%string)
  /\ (ClassifyOutputScript s = "p2sh" ->
      DisassembleScript s
      = ("OP_HASH160 OP_PUSHBYTES_20 " ++ Hex.EncodeToString (slice s 2 22)
         ++ " OP_EQUAL")%string)
  /\ (ClassifyOutputScript s = "p2wpkh" ->
      DisassembleScript s
      = ("OP_0 OP_PUSHBYTES_20 " ++ Hex.EncodeToString (slice s 2 22))%string)
  /\ (ClassifyOutputScript s = "p2wsh" ->
      DisassembleScript s
      = ("OP_0 OP_PUSHBYTES_32 " ++ Hex.EncodeToString (slice s 2 34))%string)
  /\ (ClassifyOutputScript s = "p2tr" ->
      DisassembleScript s
      = ("OP_1 OP_PUSHBYTES_32 " ++ Hex.EncodeToString (slice s 2 34))%string).
Proof.
  pose proof (ClassifyOutputScript_template s) as (T1 & T2 & T3 & T4 & T5).
  repeat match goal with |- _ /\ _ => split end; intro E.
  - destruct (T1 E) as (h & Hh & ->).
    payload [0x76; 0xa9; 0x14] h [0x88; 0xac].
    by_items [Op 0x76; Op 0xa9; Push h; Op 0x88; Op 0xac] 20%nat.
  - destruct (T2 E) as (h & Hh & ->).
    payload [0xa9; 0x14] h [0x87].
    by_items [Op 0xa9; Push h; Op 0x87] 20%nat.
  - destruct (T3 E) as (h & Hh & ->).
    payload [0x00; 0x14] h (@nil byte).
    by_items [Op 0x00; Push h] 20%nat.
  - destruct (T4 E) as (h & Hh & ->).
    payload [0x00; 0x20] h (@nil byte).
    by_items [Op 0x00; Push h] 32%nat.
  - destruct (T5 E) as (h & Hh & ->).
    payload [0x51; 0x20] h (@nil byte).
    by_items [Op 0x51; Push h] 32%nat.
Qed.

End StandardOutputs.

(** ** OP_RETURN payloads *)

Section OpReturn.
Import Utils Analyzer Script.

Lemma isValidUTF8_loop_nil (turns : nat) : isValidUTF8_loop turns [] = true.
Proof. destruct turns; reflexivity. Qed.

(** A rune takes at least one byte. *)
Lemma decodeRune_width (b : byte) (t : list byte) :
  (1 <= snd (decodeRune (b :: t)))%nat.
Proof.
  cbn [decodeRune].
  repeat match goal with
         | |- context [if ?c then _ else _] => destruct c
         | |- context [match ?l with [] => _ | _ :: _ => _ end] => destruct l
         end; cbn [snd]; lia.
Qed.

(** As many turns as there are bytes are enough for the loop of
    [isValidUTF8]: more turns change nothing. *)
Lemma isValidUTF8_loop_enough (n : nat) :
  forall turns s,
    (List.length s <= n)%nat -> (n <= turns)%nat ->
    isValidUTF8_loop turns s = isValidUTF8_loop n s.
Proof.
  induction n as [|n IH]; intros turns s Hlen Hn.
  - destruct s; [|simpl in Hlen; lia]. rewrite !isValidUTF8_loop_nil. reflexivity.
  - destruct turns as [|turns]; [lia|].
    destruct s as [|b t]; [reflexivity|].
    cbn [isValidUTF8_loop]. pose proof (decodeRune_width b t) as Hw.
    destruct (decodeRune (b :: t)) as [r w]. cbn [snd] in Hw.
    destruct (r =? RuneError); [reflexivity|].
    apply IH; [|lia]. rewrite length_skipn. cbn [List.length] in *. lia.
Qed.

(** A byte of seven bits is a rune of one byte. *)
Lemma isValidUTF8_loop_ascii (pre : list byte) :
  is_ascii pre ->
  forall turns rest,
    isValidUTF8_loop (List.length pre + turns) (pre ++ rest)
    = isValidUTF8_loop turns rest.
Proof.
  induction 1 as [|b pre Hb _ IH]; intros turns rest; [reflexivity|].
  cbn [List.length Nat.add app isValidUTF8_loop decodeRune].
  destruct (Z.ltb_spec b 0x80); [|lia].
  destruct (Z.eqb_spec b RuneError); [unfold RuneError in *; lia|].
  apply IH.
Qed.

Lemma isValidUTF8_loop_error (turns : nat) (s : list byte) :
  s <> [] -> fst (decodeRune s) = RuneError ->
  isValidUTF8_loop (S turns) s = false.
Proof.
  intros Hs Hr. destruct s as [|b t]; [congruence|].
  cbn [isValidUTF8_loop]. destruct (decodeRune (b :: t)) as [r w].
  cbn [fst] in Hr. subst r. reflexivity.
Qed.

(** The text ahead of the first byte that is not of seven bits decides
    nothing. *)
Lemma isValidUTF8_after_ascii (pre s : list byte) :
  is_ascii pre -> s <> [] -> fst (decodeRune s) = RuneError ->
  isValidUTF8 (pre ++ s) = false.
Proof.
  intros Hpre Hs Hr. unfold isValidUTF8. rewrite length_app.
  rewrite isValidUTF8_loop_ascii by exact Hpre.
  destruct s as [|b t]; [congruence|].
  cbn [List.length]. apply isValidUTF8_loop_error; assumption.
Qed.

Lemma isValidUTF8_seven_bits (s : list byte) : is_ascii s -> isValidUTF8 s = true.
Proof.
  intro H. unfold isValidUTF8. rewrite <- (app_nil_r s) at 2.
  rewrite <- (Nat.add_0_r (List.length s)).
  rewrite isValidUTF8_loop_ascii by exact H. reflexivity.
Qed.

Lemma between_ef (lo hi : Z) : hi <= 0xBF -> between 0xef lo hi = false.
Proof.
  intro H. unfold between. destruct (Z.leb_spec 0xef hi); [lia|].
  apply andb_false_r.
Qed.

Ltac rune_error :=
  left;
  repeat match goal with
         | |- context [match ?l with [] => _ | _ :: _ => _ end] => destruct l
         end;
  reflexivity.

(** A rune that is decoded ahead of the byte [ef] ends before it: [ef]
    continues no sequence. *)
Lemma decodeRune_before_ef (b : byte) (t tail : list byte) :
  fst (decodeRune ((b :: t) ++ 0xef :: tail)) = RuneError
  \/ le (snd (decodeRune ((b :: t) ++ 0xef :: tail))) (List.length (b :: t)).
Proof.
  cbn [app decodeRune].
  destruct (b <? 0x80); [right; cbn [snd List.length]; lia|].
  destruct (b <? 0xC2); [rune_error|].
  destruct (b <? 0xE0).
  { destruct t as [|b1 t]; cbn [app].
    - rune_error.
    - destruct (between b1 0x80 0xBF);
        [right; cbn [snd List.length]; lia | rune_error]. }
  destruct (b <? 0xF0).
  { cbv zeta.
    assert (Hhi : (if b =? 0xED then 0x9F else 0xBF) <= 0xBF)
      by (destruct (b =? 0xED); lia).
    destruct t as [|b1 [|b2 t]]; cbn [app].
    - rewrite (between_ef _ _ Hhi). rune_error.
    - rewrite (between_ef 0x80 0xBF) by lia. rewrite andb_false_r.
      rune_error.
    - destruct (_ && _); [right; cbn [snd List.length]; lia | rune_error]. }
  destruct (b <? 0xF5); [|rune_error].
  cbv zeta.
  assert (Hhi : (if b =? 0xF4 then 0x8F else 0xBF) <= 0xBF)
    by (destruct (b =? 0xF4); lia).
  destruct t as [|b1 [|b2 [|b3 t]]]; cbn [app].
  - rewrite (between_ef _ _ Hhi). rune_error.
  - rewrite (between_ef 0x80 0xBF) by lia. rewrite andb_false_r.
    rune_error.
  - rewrite (between_ef 0x80 0xBF) by lia. rewrite andb_false_r.
    rune_error.
  - destruct (_ && _); [right; cbn [snd List.length]; lia | rune_error].
Qed.

(** Whatever stands ahead of the bytes [ef bf bd], the loop comes to a
    rune that is [RuneError]: in the text ahead, or at these bytes. *)
Lemma isValidUTF8_loop_fffd (n : nat) (post : list byte) :
  forall text turns,
    (List.length text <= n)%nat ->
    (List.length text < turns)%nat ->
    isValidUTF8_loop turns (text ++ [0xef; 0xbf; 0xbd] ++ post) = false.
Proof.
  induction n as [|n IH]; intros text turns Hn Ht.
  - destruct text; [|simpl in Hn; lia].
    destruct turns as [|turns]; [simpl in Ht; lia|]. reflexivity.
  - destruct text as [|b t].
    { destruct turns as [|turns]; [simpl in Ht; lia|]. reflexivity. }
    destruct turns as [|turns]; [lia|].
    pose proof (decodeRune_before_ef b t ([0xbf; 0xbd] ++ post)) as Hd.
    pose proof (decodeRune_width b (t ++ 0xef :: [0xbf; 0xbd] ++ post)) as Hw.
    cbn [app isValidUTF8_loop] in *. unfold byte in *.
    destruct (decodeRune (b :: t ++ 0xef :: 0xbf :: 0xbd :: post)) as [r w].
    cbn [fst snd] in Hd, Hw.
    destruct (Z.eqb_spec r RuneError) as [|Hr]; [reflexivity|].
    destruct Hd as [Hd|Hd]; [exfalso; exact (Hr Hd)|].
    change (b :: t ++ 0xef :: 0xbf :: 0xbd :: post)
      with ((b :: t) ++ [0xef; 0xbf; 0xbd] ++ post).
    rewrite skipn_app.
    replace (w - List.length (b :: t))%nat with 0%nat
      by (cbn [List.length] in *; lia).
    rewrite skipn_O.
    apply IH.
    + rewrite length_skipn. cbn [List.length] in *. lia.
    + rewrite length_skipn. cbn [List.length] in *. lia.
Qed.

Lemma isValidUTF8_fffd (text post : list byte) :
  isValidUTF8 (text ++ [0xef; 0xbf; 0xbd] ++ post) = false.
Proof.
  unfold isValidUTF8.
  apply (isValidUTF8_loop_fffd (List.length text) post text); [apply Nat.le_refl|].
  unfold byte in *. rewrite length_app. cbn [List.length app]. lia.
Qed.

(** X14. [isValidUTF8] accepts every text of seven-bit bytes.  It
    rejects a text in which such bytes are followed by a byte that can
    start no UTF-8 sequence (a continuation byte, [c0], [c1], or [f5]
    and above).  And it rejects every text that holds the bytes
    [ef bf bd], the well-formed encoding of U+FFFD, whatever stands
    ahead of them and behind them. *)
Theorem isValidUTF8_ascii (pre post : list byte) (b : byte) :
  is_ascii pre ->
  isValidUTF8 pre = true
  /\ (0x80 <= b < 0xC2 \/ 0xF5 <= b -> isValidUTF8 (pre ++ b :: post) = false)
  /\ isValidUTF8 (pre ++ [0xef; 0xbf; 0xbd] ++ post) = false
  /\ forall text : list byte,
       isValidUTF8 (text ++ [0xef; 0xbf; 0xbd] ++ post) = false.
Proof.
  intro Hpre. split; [|split; [|split]].
  - apply isValidUTF8_seven_bits. exact Hpre.
  - intro Hb. apply isValidUTF8_after_ascii; [exact Hpre|discriminate|].
    cbn [decodeRune].
    destruct (Z.ltb_spec b 0x80); [lia|].
    destruct (Z.ltb_spec b 0xC2); [reflexivity|].
    destruct (Z.ltb_spec b 0xE0); [lia|].
    destruct (Z.ltb_spec b 0xF0); [lia|].
    destruct (Z.ltb_spec b 0xF5); [lia|]. reflexivity.
  - apply isValidUTF8_fffd.
  - intro text. apply isValidUTF8_fffd.
Qed.

(** The text [ok], and the letter [e] with an acute accent ahead of
    U+FFFD: the letter alone is accepted. *)
Lemma isValidUTF8_ascii_witness :
  is_ascii [0x6f; 0x6b]
  /\ isValidUTF8 [0x6f; 0x6b] = true
  /\ isValidUTF8 [0x6f; 0x6b; 0xef; 0xbf; 0xbd] = false
  /\ isValidUTF8 [0xc3; 0xa9] = true
  /\ isValidUTF8 [0xc3; 0xa9; 0xef; 0xbf; 0xbd] = false.
Proof.
  assert (H : is_ascii [0x6f; 0x6b]) by (repeat constructor; lia).
  split; [exact H|].
  split; [exact (proj1 (isValidUTF8_ascii [0x6f; 0x6b] [] 0 H))|].
  split; [exact (proj1 (proj2 (proj2 (isValidUTF8_ascii [0x6f; 0x6b] [] 0 H))))|].
  split; [reflexivity|].
  exact (proj2 (proj2 (proj2 (isValidUTF8_ascii [0x6f; 0x6b] [] 0 H))) [0xc3; 0xa9]).
Defined.

Lemma collect_pushes_leaves (turns : nat) (tail allData : list byte) :
  leaves tail -> collect_pushes turns tail allData = allData.
Proof.
  intro H. destruct turns as [|turns]; [reflexivity|].
  destruct tail as [|op rest]; [reflexivity|].
  cbn [leaves] in H. cbn [collect_pushes]. unfold push_header.
  destruct H as [->|[H|[H1 H2]]].
  - reflexivity.
  - destruct (Z.leb_spec op 0x4b); [lia|]. rewrite andb_false_r.
    destruct (Z.eqb_spec op 0x4c); [lia|].
    destruct (Z.eqb_spec op 0x4d); [lia|].
    destruct (Z.eqb_spec op 0x4e); [lia|]. reflexivity.
  - destruct (direct_push_tests op H1) as [_ ->].
    destruct (Z.gtb_spec op (len rest)); [reflexivity|lia].
Qed.

Lemma push_header_rest (opcode : byte) (rest : list byte) (n : Z)
    (rest' : list byte) :
  push_header opcode rest = Some (n, rest') ->
  (List.length rest' <= List.length rest)%nat.
Proof.
  unfold push_header.
  destruct (_ && _); [intro H; injection H as _ <-; lia|].
  destruct (opcode =? 0x4c).
  { destruct rest as [|n0 r]; [discriminate|].
    intro H. injection H as _ <-. cbn [List.length]. lia. }
  destruct (opcode =? 0x4d).
  { destruct (len rest <=? 1); [discriminate|].
    intro H. assert (Hr : rest' = skipn 2 rest) by congruence.
    subst rest'. rewrite length_skipn. lia. }
  destruct (opcode =? 0x4e); [|discriminate].
  destruct (len rest <=? 3); [discriminate|].
  intro H. assert (Hr : rest' = skipn 4 rest) by congruence.
  subst rest'. rewrite length_skipn. lia.
Qed.

(** As many turns as the script has bytes are enough for the loop of
    [ParseOpReturn]. *)
Lemma collect_pushes_enough (n : nat) :
  forall turns rest allData,
    (List.length rest <= n)%nat -> (n <= turns)%nat ->
    collect_pushes turns rest allData = collect_pushes n rest allData.
Proof.
  induction n as [|n IH]; intros turns rest allData Hlen Hn.
  - destruct rest; [|simpl in Hlen; lia]. destruct turns; reflexivity.
  - destruct turns as [|turns]; [lia|].
    destruct rest as [|opcode rest]; [reflexivity|].
    cbn [collect_pushes].
    destruct (push_header opcode rest) as [[pushLen rest']|] eqn:E; [|reflexivity].
    apply push_header_rest in E.
    destruct (pushLen >? len rest'); [reflexivity|].
    apply IH; [|lia]. rewrite length_skipn. cbn [List.length] in *. lia.
Qed.

Lemma collect_pushes_data (turns : nat) (opcode : byte) (hdr data rest allData : list byte) :
  push_header opcode (hdr ++ data ++ rest) = Some (len data, data ++ rest) ->
  collect_pushes (S turns) (opcode :: hdr ++ data ++ rest) allData
  = collect_pushes turns rest (allData ++ data).
Proof.
  intro H. cbn [collect_pushes]. rewrite H.
  assert (Hlen : (len data >? len (data ++ rest)) = false).
  { unfold len. rewrite length_app.
    match goal with |- (?a >? ?b) = false => destruct (Z.gtb_spec a b) end;
      [lia|reflexivity]. }
  rewrite Hlen.
  replace (Z.to_nat (len data)) with (List.length data) by (unfold len; lia).
  rewrite firstn_app, skipn_app, firstn_all, skipn_all, Nat.sub_diag.
  cbn [firstn skipn app]. rewrite app_nil_r. reflexivity.
Qed.

Lemma collect_pushes_items (items : list script_item) (tail : list byte) :
  Forall well_formed_item items -> Forall is_push items -> leaves tail ->
  forall turns allData,
    (List.length items <= turns)%nat ->
    collect_pushes turns (assemble items ++ tail) allData
    = allData ++ List.concat (map payload items).
Proof.
  intros Hwf Hpush Htail.
  induction items as [|it items IH]; intros turns allData Ht.
  - cbn [map assemble List.concat app]. rewrite app_nil_r.
    apply collect_pushes_leaves. exact Htail.
  - inversion Hwf as [|? ? Hit Hwf']. inversion Hpush as [|? ? Hp Hpush']. subst.
    destruct turns as [|turns]; [simpl in Ht; lia|].
    rewrite assemble_cons, <- app_assoc. cbn [map List.concat].
    destruct it as [op|data|data]; [contradiction|..];
      cbn [assemble_item payload app].
    + pose proof (collect_pushes_data turns (len data) [] data
                    (assemble items ++ tail) allData) as E.
      cbn [app] in E. rewrite E.
      * rewrite IH by (try assumption; simpl in Ht; lia).
        rewrite app_assoc. reflexivity.
      * unfold push_header.
        destruct (direct_push_tests _ Hit) as [_ ->]. reflexivity.
    + pose proof (collect_pushes_data turns 0x4c [len data] data
                    (assemble items ++ tail) allData) as E.
      cbn [app] in E. rewrite E.
      * rewrite IH by (try assumption; simpl in Ht; lia).
        rewrite app_assoc. reflexivity.
      * reflexivity.
Qed.

(** The data that [ParseOpReturn] collects from pushes. *)
Lemma ParseOpReturn_allData (script : list byte) (items : list script_item)
    (tail : list byte) :
  script = 0x6a :: assemble items ++ tail ->
  Forall well_formed_item items -> Forall is_push items -> leaves tail ->
  collect_pushes (List.length script) (skipn 1 script) []
  = List.concat (map payload items).
Proof.
  intros -> Hwf Hpush Htail. cbn [skipn].
  rewrite collect_pushes_items; [reflexivity|assumption..|].
  cbn [List.length]. rewrite length_app.
  pose proof (assemble_length items) as Hl. lia.
Qed.

(** X15. After [OP_RETURN] the data of the pushes, direct or by
    [OP_PUSHDATA1], are joined in order; the collection ends without a
    failure at the end of the script, at the first opcode that is no
    push, or at a direct push longer than what is left, and nothing
    behind that point is looked at.  The hexadecimal field is the text
    of the joined data; the text field is the data themselves when they
    are seven-bit bytes, and absent when there are none; the protocol
    is [omni] exactly for data that start with the bytes [6f 6d 6e 69]
    and [opentimestamps] exactly for data that start with
    [01 09 f9 11 02]. *)
Theorem ParseOpReturn_pushes (items : list script_item) (tail : list byte) :
  Forall well_formed_item items -> Forall is_push items -> leaves tail ->
  let data := List.concat (map payload items) in
  let r := ParseOpReturn (0x6a :: assemble items ++ tail) in
  fst (fst r) = Hex.EncodeToString data
  /\ (is_ascii data -> data <> [] -> snd (fst r) = Some data)
  /\ (data = [] -> r = ("", None, "unknown"))
  /\ (snd r = "omni" <-> firstn 4 data = [0x6f; 0x6d; 0x6e; 0x69])
  /\ (snd r = "opentimestamps" <-> firstn 5 data = [0x01; 0x09; 0xf9; 0x11; 0x02]).
Proof.
  intros Hwf Hpush Htail. cbv zeta.
  unfold ParseOpReturn.
  change (len (0x6a :: assemble items ++ tail) =? 0) with false.
  cbn [idx nth Z.eqb Pos.eqb negb orb]. cbv zeta.
  match goal with
  | |- context [collect_pushes ?n ?s ?a] =>
      replace (collect_pushes n s a) with (List.concat (map payload items))
        by (symmetry; apply (ParseOpReturn_allData _ items tail eq_refl);
            assumption)
  end.
  set (data := List.concat (map payload items)).
  cbn [fst snd].
  split; [reflexivity|]. split; [|split; [|split]].
  - intros Ha Hne.
    rewrite (isValidUTF8_seven_bits data Ha).
    assert (Hpos : (len data >? 0) = true).
    { apply Z.gtb_lt. unfold len. destruct data; [congruence|simpl; lia]. }
    rewrite Hpos. reflexivity.
  - intros ->. reflexivity.
  - destruct (len data >=? 4) eqn:E4; cbn [andb].
    + destruct (Parser.list_eqb (firstn 4 data) [0x6f; 0x6d; 0x6e; 0x69]) eqn:Eo.
      * apply list_eqb_spec in Eo. split; [intros _; exact Eo|reflexivity].
      * split.
        { destruct (_ && _); discriminate. }
        { intro H. apply list_eqb_spec in H. congruence. }
    + split.
      * destruct (_ && _); discriminate.
      * intro H. exfalso.
        assert (Hl : List.length (firstn 4 data) = 4%nat) by (rewrite H; reflexivity).
        rewrite length_firstn in Hl.
        destruct (Z.geb_spec (len data) 4); [discriminate|]. unfold len in *. lia.
  - destruct ((len data >=? 4)
              && Parser.list_eqb (firstn 4 data) [0x6f; 0x6d; 0x6e; 0x69]) eqn:Eo.
    + apply andb_prop in Eo. destruct Eo as [_ Eo]. apply list_eqb_spec in Eo.
      split; [discriminate|].
      intro H. exfalso.
      assert (H4 : firstn 4 (firstn 5 data) = firstn 4 data)
        by (rewrite firstn_firstn; reflexivity).
      rewrite H, Eo in H4. discriminate H4.
    + destruct (len data >=? 5) eqn:E5; cbn [andb].
      * destruct (Parser.list_eqb (firstn 5 data) [0x01; 0x09; 0xf9; 0x11; 0x02]) eqn:Et.
        { apply list_eqb_spec in Et. split; [intros _; exact Et|reflexivity]. }
        { split; [discriminate|]. intro H. apply list_eqb_spec in H. congruence. }
      * split; [discriminate|].
        intro H. exfalso.
        assert (Hl : List.length (firstn 5 data) = 5%nat) by (rewrite H; reflexivity).
        rewrite length_firstn in Hl.
        destruct (Z.geb_spec (len data) 5); [discriminate|]. unfold len in *. lia.
Qed.

(** An Omni payload in a direct push, a byte by [OP_PUSHDATA1], and an
    [OP_1] with more bytes behind it. *)
Lemma ParseOpReturn_pushes_witness :
  Forall well_formed_item [Push [0x6f; 0x6d; 0x6e; 0x69]; PushData1 [0x21]]
  /\ Forall is_push [Push [0x6f; 0x6d; 0x6e; 0x69]; PushData1 [0x21]]
  /\ leaves [0x51; 0x01; 0x42]
  /\ ParseOpReturn
       [0x6a; 0x04; 0x6f; 0x6d; 0x6e; 0x69; 0x4c; 0x01; 0x21; 0x51; 0x01; 0x42]
     = ("6f6d6e6921", Some [0x6f; 0x6d; 0x6e; 0x69; 0x21], "omni")
  /\ fst (fst (ParseOpReturn
                 [0x6a; 0x04; 0x6f; 0x6d; 0x6e; 0x69; 0x4c; 0x01; 0x21; 0x51; 0x01; 0x42]))
     = Hex.EncodeToString [0x6f; 0x6d; 0x6e; 0x69; 0x21].
Proof.
  assert (Hwf : Forall well_formed_item
                  [Push [0x6f; 0x6d; 0x6e; 0x69]; PushData1 [0x21]])
    by (repeat constructor; cbn; lia).
  assert (Hp : Forall is_push [Push [0x6f; 0x6d; 0x6e; 0x69]; PushData1 [0x21]])
    by (repeat constructor).
  assert (Htail : leaves [0x51; 0x01; 0x42]) by (cbn; lia).
  split; [exact Hwf|]. split; [exact Hp|]. split; [exact Htail|].
  split; [reflexivity|].
  exact (proj1 (ParseOpReturn_pushes _ _ Hwf Hp Htail)).
Defined.

End OpReturn.

(** ** The height in a coinbase script *)

Section Bip34.
Import Utils Analyzer Parser.

Lemma to_int64_high (x : Z) : two63 <= x < two64 -> to_int64 x = x - two64.
Proof.
  intro H. unfold to_int64. rewrite Z.mod_small by (unfold two63 in H; lia).
  destruct (Z.ltb_spec x two63); [lia|reflexivity].
Qed.

Lemma le_decode_range (bs : list byte) :
  all_bytes bs -> 0 <= le_decode bs < 256 ^ Z.of_nat (List.length bs).
Proof.
  induction 1 as [|b bs Hb _ IH]; [cbn; lia|].
  unfold is_byte in Hb. cbn [le_decode List.length].
  rewrite Nat2Z.inj_succ, Z.pow_succ_r by lia. lia.
Qed.

(** The loop of [extractBIP34Height] from byte [i] on, with the bytes
    before it gathered in [h]. *)
Lemma height_loop (bs : list byte) :
  all_bytes bs ->
  forall i h,
    0 <= i <= 7 -> i + Z.of_nat (List.length bs) <= 8 -> 0 <= h < 2 ^ (8 * i) ->
    snd (fold_left
           (fun '(i, height) b =>
              (i + 1, Z.lor height (to_int64 (Z.shiftl b (8 * i)))))
           bs (i, h))
    = to_int64 (h + 2 ^ (8 * i) * le_decode bs).
Proof.
  induction 1 as [|b bs Hb Hbs IH]; intros i h Hi Hlen Hh.
  - cbn [fold_left snd le_decode]. rewrite Z.mul_0_r, Z.add_0_r.
    symmetry. apply to_int64_small. split; [lia|].
    apply Z.lt_le_trans with (2 ^ (8 * i)); [lia|].
    unfold two63. apply Z.pow_le_mono_r; simpl List.length in Hlen; lia.
  - unfold is_byte in Hb. cbn [fold_left le_decode].
    cbn [List.length] in Hlen. rewrite Nat2Z.inj_succ in Hlen.
    rewrite Z.shiftl_mul_pow2 by lia.
    assert (Hp : 0 < 2 ^ (8 * i)) by (apply Z.pow_pos_nonneg; lia).
    assert (Hp8 : 2 ^ (8 * (i + 1)) = 256 * 2 ^ (8 * i)).
    { replace (8 * (i + 1)) with (8 + 8 * i) by lia.
      rewrite Z.pow_add_r by lia. reflexivity. }
    destruct (Z.eq_dec i 7) as [->|Hi7].
    + assert (bs = []) by (destruct bs; [reflexivity|cbn [List.length] in Hlen; lia]).
      subst bs. cbn [fold_left snd le_decode]. rewrite Z.mul_0_r, Z.add_0_r.
      change (8 * 7) with 56 in *.
      destruct (Z.lt_ge_cases (b * 2 ^ 56) two63) as [Hlt|Hge]; unfold two63 in *.
      * rewrite (@to_int64_small (b * 2 ^ 56)) by (unfold two63; lia).
        rewrite lor_shifted by lia.
        rewrite to_int64_small by (unfold two63; lia). lia.
      * rewrite (to_int64_high (b * 2 ^ 56)) by (unfold two63, two64; lia).
        unfold two64.
        replace (b * 2 ^ 56 - 2 ^ 64) with ((b - 256) * 2 ^ 56) by lia.
        rewrite lor_shifted by lia.
        rewrite to_int64_high by (unfold two63, two64; lia).
        unfold two64. lia.
    + assert (Hle : 2 ^ (8 * i) <= 2 ^ 48) by (apply Z.pow_le_mono_r; lia).
      rewrite to_int64_small by (unfold two63; nia).
      rewrite lor_shifted by lia.
      rewrite IH by (try lia; rewrite Hp8; nia).
      f_equal. rewrite Hp8. lia.
Qed.

(** X16. A coinbase script that starts with a push of 1 to 8 bytes gives
    the little-endian value of the pushed bytes, read as an [int64]:
    it is that value itself unless the push has 8 bytes and the last
    one is [0x80] or above. *)
Theorem extractBIP34Height_push (heightBytes rest : list byte) :
  all_bytes heightBytes ->
  1 <= len heightBytes <= 8 ->
  extractBIP34Height (len heightBytes :: heightBytes ++ rest)
  = to_int64 (le_decode heightBytes)
  /\ (le_decode heightBytes < two63 ->
      extractBIP34Height (len heightBytes :: heightBytes ++ rest)
      = le_decode heightBytes).
Proof.
  intros Hb Hl.
  assert (E : extractBIP34Height (len heightBytes :: heightBytes ++ rest)
              = to_int64 (le_decode heightBytes)).
  { unfold extractBIP34Height. cbv zeta. cbn [idx nth].
    assert (Hlen : len (len heightBytes :: heightBytes ++ rest)
                   = 1 + len heightBytes + len rest).
    { unfold len. cbn [List.length]. rewrite length_app. lia. }
    rewrite Hlen.
    assert (0 <= len rest) by (unfold len; lia).
    destruct (Z.ltb_spec (1 + len heightBytes + len rest) 2); [lia|].
    destruct (Z.ltb_spec (len heightBytes) 1); [lia|].
    destruct (Z.gtb_spec (len heightBytes) 8); [lia|].
    destruct (Z.gtb_spec (1 + len heightBytes) (1 + len heightBytes + len rest));
      [lia|].
    cbn [orb skipn].
    replace (Z.to_nat (len heightBytes)) with (List.length heightBytes)
      by (unfold len; lia).
    rewrite firstn_app, firstn_all, Nat.sub_diag. cbn [firstn]. rewrite app_nil_r.
    rewrite height_loop; [|exact Hb|lia|unfold len in Hl; lia|cbn; lia].
    f_equal. change (2 ^ (8 * 0)) with 1. lia. }
  split; [exact E|].
  intro Hlt. rewrite E. apply to_int64_small.
  pose proof (le_decode_range heightBytes Hb). lia.
Qed.

(** The coinbase script of block 227,836, the first of version 2. *)
Lemma extractBIP34Height_push_witness :
  all_bytes [0xfc; 0x79; 0x03]
  /\ 1 <= len [0xfc; 0x79; 0x03] <= 8
  /\ extractBIP34Height [0x03; 0xfc; 0x79; 0x03; 0x06; 0x2f; 0x50] = 227836.
Proof.
  assert (Hb : all_bytes [0xfc; 0x79; 0x03])
    by (repeat constructor; unfold is_byte; lia).
  assert (Hl : 1 <= len [0xfc; 0x79; 0x03] <= 8) by (cbn; lia).
  split; [exact Hb|]. split; [exact Hl|].
  exact (proj1 (extractBIP34Height_push [0xfc; 0x79; 0x03] [0x06; 0x2f; 0x50] Hb Hl)).
Defined.

End Bip34.

(** ** The Merkle root of a list with its last hash repeated *)

Section MerkleDuplicate.
Context {BD : Btcd}.
Import Parser.

Lemma merkle_level_repeat_last (k : nat) :
  forall (hs : list Hash) (a : Hash),
    List.length hs = (2 * k)%nat ->
    merkle_level (hs ++ [a; a]) = merkle_level (hs ++ [a]).
Proof.
  induction k as [|k IH]; intros hs a Hlen.
  - destruct hs; [reflexivity|discriminate Hlen].
  - destruct hs as [|x [|y hs]]; try (simpl in Hlen; lia).
    cbn [app]. rewrite !merkle_level_pairs. f_equal.
    apply IH. simpl in Hlen. lia.
Qed.

(** X17. A list of an odd number of hashes, three or more, and the list
    with its last hash repeated have the same Merkle root: the loop
    pairs an odd last node with itself. *)
Theorem computeMerkleRoot_repeat_last (hs : list Hash) (a : Hash) :
  hs <> [] -> Nat.Even (List.length hs) ->
  computeMerkleRoot (hs ++ [a; a]) = computeMerkleRoot (hs ++ [a]).
Proof.
  intros Hne [k Hk].
  destruct hs as [|x [|y hs]]; [congruence|simpl in Hk; lia|].
  cbn [app]. rewrite !computeMerkleRoot_equation_3.
  change (x :: y :: hs ++ [a; a]) with ((x :: y :: hs) ++ [a; a]).
  change (x :: y :: hs ++ [a]) with ((x :: y :: hs) ++ [a]).
  rewrite (merkle_level_repeat_last k) by exact Hk. reflexivity.
Qed.

End MerkleDuplicate.

Section MerkleDuplicateRecorded.
Import Parser Reference.

Lemma computeMerkleRoot_repeat_last_witness :
  [[0x01]; [0x02]] <> []
  /\ Nat.Even (List.length [[0x01]; [0x02]])
  /\ computeMerkleRoot [[0x01]; [0x02]; [0x03]; [0x03]]
     = computeMerkleRoot [[0x01]; [0x02]; [0x03]].
Proof.
  assert (Hne : [[0x01]; [0x02]] <> ([] : list Hash)) by discriminate.
  assert (Hev : Nat.Even (List.length [[0x01]; [0x02]])) by (exists 1%nat; reflexivity).
  split; [exact Hne|]. split; [exact Hev|].
  exact (computeMerkleRoot_repeat_last [[0x01]; [0x02]] [0x03] Hne Hev).
Defined.

End MerkleDuplicateRecorded.

(** ** The prevouts of a fixture *)

Section Prevouts.
Context {FL : Float64} {BU : Btcutil} {BD : Btcd}.

Lemma pkey_eqb_spec (a b : pkey) : pkey_eqb a b = true <-> a = b.
Proof.
  unfold pkey_eqb. destruct a as [s n], b as [s' n']. cbn [fst snd].
  rewrite andb_true_iff, String.eqb_eq, Z.eqb_eq.
  split; [intros [-> ->]; reflexivity|intro H; injection H; auto].
Qed.

Lemma map_lookup_None (k : pkey) (m : prevoutMap) :
  map_lookup k m = None <-> ~ In k (map fst m).
Proof.
  induction m as [|[k' p] m IH]; cbn [map_lookup map fst In]; [tauto|].
  destruct (pkey_eqb k k') eqn:E.
  - apply pkey_eqb_spec in E. subst k'. split; [discriminate|tauto].
  - assert (k' <> k).
    { intros ->. rewrite (proj2 (pkey_eqb_spec k k) eq_refl) in E. discriminate. }
    tauto.
Qed.

Lemma map_lookup_In (k : pkey) (p : PrevoutInput) (m : prevoutMap) :
  NoDup (map fst m) -> In (k, p) m -> map_lookup k m = Some p.
Proof.
  induction m as [|[k' p'] m IH]; cbn [map_lookup map fst In]; [tauto|].
  intros Hnd [E|Hin].
  - injection E as -> ->. rewrite (proj2 (pkey_eqb_spec k k) eq_refl). reflexivity.
  - inversion Hnd as [|? ? Hk' Hnd']. subst.
    destruct (pkey_eqb k k') eqn:E.
    + apply pkey_eqb_spec in E. subst k'. exfalso. apply Hk'.
      apply (in_map fst) in Hin. exact Hin.
    + apply IH; assumption.
Qed.

Lemma map_lookup_Some (k : pkey) (p : PrevoutInput) (m : prevoutMap) :
  map_lookup k m = Some p -> In (k, p) m.
Proof.
  induction m as [|[k' p'] m IH]; cbn [map_lookup In]; [discriminate|].
  destruct (pkey_eqb k k') eqn:E.
  - apply pkey_eqb_spec in E. subst k'. intro H. injection H as ->. left. reflexivity.
  - intro H. right. apply IH. exact H.
Qed.

Lemma NoDup_middle (k : pkey) (l1 l2 : list pkey) :
  NoDup (k :: l1 ++ l2) <-> NoDup (l1 ++ k :: l2).
Proof.
  rewrite NoDup_cons_iff, (NoDup_Add (Add_app k l1 l2)). tauto.
Qed.

(** The map that the loop over the prevouts builds on top of [m]: it
    fails exactly when an outpoint comes twice. *)
Lemma build_prevoutMap_Ok (ps : list PrevoutInput) :
  forall m,
    NoDup (map outpoint_of ps ++ map fst m) ->
    build_prevoutMap ps m = Ok (rev (map (fun p => (outpoint_of p, p)) ps) ++ m).
Proof.
  induction ps as [|p ps IH]; intros m Hnd; [reflexivity|].
  cbn [build_prevoutMap map app] in *.
  inversion Hnd as [|? ? Hp Hnd']. subst.
  assert (Hl : map_lookup (Txid p, Vout p) m = None).
  { apply map_lookup_None. intro Hin. apply Hp. apply in_or_app. right. exact Hin. }
  rewrite Hl. rewrite IH.
  - cbn [rev]. rewrite <- app_assoc. reflexivity.
  - cbn [map fst]. apply NoDup_middle. exact Hnd.
Qed.

Lemma build_prevoutMap_Err (ps : list PrevoutInput) :
  forall m,
    NoDup (map fst m) ->
    ~ NoDup (map outpoint_of ps ++ map fst m) ->
    build_prevoutMap ps m = Err (Errorf "duplicate prevout").
Proof.
  induction ps as [|p ps IH]; intros m Hm Hnd; [cbn in Hnd; tauto|].
  cbn [build_prevoutMap map app] in *.
  destruct (map_lookup (Txid p, Vout p) m) eqn:Hl; [reflexivity|].
  apply map_lookup_None in Hl.
  apply IH.
  - cbn [map fst]. constructor; assumption.
  - intro Hnd'. apply Hnd. apply NoDup_middle. exact Hnd'.
Qed.

Lemma NoDup_dec_pkey (l : list pkey) : NoDup l \/ ~ NoDup l.
Proof.
  assert (Hdec : forall a b : pkey, {a = b} + {a <> b}).
  { intros a b. destruct (pkey_eqb a b) eqn:E.
    - left. apply pkey_eqb_spec. exact E.
    - right. intro H. apply pkey_eqb_spec in H. congruence. }
  induction l as [|a l [IH|IH]].
  - left. constructor.
  - destruct (in_dec Hdec a l) as [Hin|Hin].
    + right. intro H. inversion H. contradiction.
    + left. constructor; assumption.
  - right. intro H. inversion H. contradiction.
Qed.

Lemma existsb_outpoint (k : pkey) (ps : list PrevoutInput) :
  existsb (fun p => pkey_eqb k (outpoint_of p)) ps = true
  <-> In k (map outpoint_of ps).
Proof.
  rewrite existsb_exists, in_map_iff. split.
  - intros (p & Hin & E). apply pkey_eqb_spec in E. exists p. auto.
  - intros (p & E & Hin). exists p. split; [exact Hin|].
    apply pkey_eqb_spec. auto.
Qed.

Lemma prevout_keys (ps : list PrevoutInput) :
  map fst (rev (map (fun p => (outpoint_of p, p)) ps)) = rev (map outpoint_of ps).
Proof. rewrite <- map_rev, <- !map_rev, map_map. reflexivity. Qed.

(** The loop over the inputs fails at the first input that lacks a
    prevout, and passes when there is none. *)
Lemma check_prevouts_find (prevouts : list PrevoutInput) (ins : list TxIn) :
  let m := rev (map (fun p => (outpoint_of p, p)) prevouts) in
  check_prevouts ins m
  = match find (lacks_prevout prevouts) ins with
    | Some txIn =>
        Err (Errorf ("missing prevout for input " ++ fst (key_of txIn)
                     ++ ":" ++ Sprintf_d (snd (key_of txIn))))
    | None => Ok tt
    end.
Proof.
  cbv zeta. induction ins as [|txIn ins IH]; [reflexivity|].
  cbn [check_prevouts find]. unfold lacks_prevout at 1.
  destruct (isCoinbaseInput txIn); cbn [negb andb]; [exact IH|].
  destruct (existsb _ prevouts) eqn:Ex; cbn [negb].
  - apply existsb_outpoint in Ex.
    destruct (map_lookup (key_of txIn) _) eqn:Hl; [exact IH|].
    apply map_lookup_None in Hl. exfalso. apply Hl.
    rewrite prevout_keys. apply -> in_rev. exact Ex.
  - destruct (map_lookup (key_of txIn) _) eqn:Hl; [|reflexivity].
    apply map_lookup_Some in Hl. apply (in_map fst) in Hl. cbn [fst] in Hl.
    rewrite prevout_keys in Hl. apply in_rev in Hl.
    apply existsb_outpoint in Hl. congruence.
Qed.

(** The analysis of a decoded transaction, by cases on the prevouts. *)
Lemma analyze_tx_cases (network : string) (prevouts : list PrevoutInput)
    (tx : MsgTx) :
  (~ NoDup (map outpoint_of prevouts) ->
   analyze_tx network prevouts tx = Err (Errorf "duplicate prevout"))
  /\ (NoDup (map outpoint_of prevouts) ->
      match find (lacks_prevout prevouts) (tx_TxIn tx) with
      | Some txIn =>
          analyze_tx network prevouts tx
          = Err (Errorf ("missing prevout for input "
                         ++ Hash_String (op_Hash (PreviousOutPoint txIn)) ++ ":"
                         ++ Sprintf_d (op_Index (PreviousOutPoint txIn))))
      | None =>
          exists m,
            analyze_tx network prevouts tx = Ok (tx_report network m tx)
            /\ forall txIn p,
                 In p prevouts -> outpoint_of p = key_of txIn ->
                 isCoinbaseInput txIn = false ->
                 prevout_of m txIn = p
      end).
Proof.
  unfold analyze_tx. split; intro Hnd.
  - rewrite build_prevoutMap_Err;
      [reflexivity | constructor | cbn [map]; rewrite app_nil_r; exact Hnd].
  - rewrite build_prevoutMap_Ok by (cbn [map]; rewrite app_nil_r; exact Hnd).
    rewrite app_nil_r.
    rewrite (check_prevouts_find prevouts (tx_TxIn tx)).
    destruct (find _ _) as [txIn|]; [reflexivity|].
    eexists. split; [reflexivity|].
    intros txIn p Hin Hkey Hcb. unfold prevout_of. rewrite Hcb.
    rewrite (map_lookup_In (key_of txIn) p); [reflexivity| |].
    + rewrite prevout_keys. apply NoDup_rev. exact Hnd.
    + apply -> in_rev. rewrite <- Hkey.
      apply (in_map (fun p => (outpoint_of p, p))). exact Hin.
Qed.

Lemma ParseTransaction_analyze_tx (fixture : Fixture) (raw : list byte)
    (tx : MsgTx) (rest : list byte) :
  Hex.HexToBytes (RawTx fixture) = Ok raw ->
  MsgTx_Deserialize raw = Ok (tx, rest) ->
  ParseTransaction fixture = analyze_tx (Network fixture) (Prevouts fixture) tx.
Proof. intros Hraw Htx. unfold ParseTransaction. rewrite Hraw, Htx. reflexivity. Qed.

(** X18. Once the raw transaction is decoded, [ParseTransaction] fails
    with [duplicate prevout] exactly when two prevouts of the fixture
    name the same outpoint, whether or not the transaction spends it. *)
Theorem ParseTransaction_duplicate_prevout (fixture : Fixture) (raw : list byte)
    (tx : MsgTx) (rest : list byte) :
  Hex.HexToBytes (RawTx fixture) = Ok raw ->
  MsgTx_Deserialize raw = Ok (tx, rest) ->
  (ParseTransaction fixture = Err (Errorf "duplicate prevout")
   <-> ~ NoDup (map outpoint_of (Prevouts fixture))).
Proof.
  intros Hraw Htx. rewrite (ParseTransaction_analyze_tx _ _ _ _ Hraw Htx).
  destruct (analyze_tx_cases (Network fixture) (Prevouts fixture) tx) as [Hd Hn].
  destruct (NoDup_dec_pkey (map outpoint_of (Prevouts fixture))) as [Hnd|Hnd].
  - split; [|tauto]. specialize (Hn Hnd).
    destruct (find _ _).
    + rewrite Hn. discriminate.
    + destruct Hn as (m & -> & _). discriminate.
  - rewrite (Hd Hnd). tauto.
Qed.

(** X19. With the raw transaction decoded and no outpoint given twice,
    [ParseTransaction] fails at the first input that is no coinbase
    input and has no prevout in the fixture, with an error that names
    its outpoint.  When there is no such input it succeeds, and the
    prevout used for an input is the one the fixture gives for its
    outpoint. *)
Theorem ParseTransaction_missing_prevout (fixture : Fixture) (raw : list byte)
    (tx : MsgTx) (rest : list byte) :
  Hex.HexToBytes (RawTx fixture) = Ok raw ->
  MsgTx_Deserialize raw = Ok (tx, rest) ->
  NoDup (map outpoint_of (Prevouts fixture)) ->
  match find (lacks_prevout (Prevouts fixture)) (tx_TxIn tx) with
  | Some txIn =>
      ParseTransaction fixture
      = Err (Errorf ("missing prevout for input "
                     ++ Hash_String (op_Hash (PreviousOutPoint txIn)) ++ ":"
                     ++ Sprintf_d (op_Index (PreviousOutPoint txIn))))
  | None =>
      exists m,
        ParseTransaction fixture = Ok (tx_report (Network fixture) m tx)
        /\ forall txIn p,
             In p (Prevouts fixture) -> outpoint_of p = key_of txIn ->
             isCoinbaseInput txIn = false ->
             prevout_of m txIn = p
  end.
Proof.
  intros Hraw Htx Hnd. rewrite (ParseTransaction_analyze_tx _ _ _ _ Hraw Htx).
  exact (proj2 (analyze_tx_cases (Network fixture) (Prevouts fixture) tx) Hnd).
Qed.

End Prevouts.

Section PrevoutsRecorded.
Import Reference Samples.

Lemma ParseTransaction_duplicate_prevout_witness :
  Hex.HexToBytes (RawTx spend_fixture_twice) = Ok (MsgTx_Serialize spend_tx)
  /\ MsgTx_Deserialize (MsgTx_Serialize spend_tx) = Ok (spend_tx, [])
  /\ ParseTransaction spend_fixture_twice = Err (Errorf "duplicate prevout")
  /\ ~ NoDup (map outpoint_of (Prevouts spend_fixture_twice)).
Proof.
  assert (Hraw : Hex.HexToBytes (RawTx spend_fixture_twice)
                 = Ok (MsgTx_Serialize spend_tx)) by (vm_compute; reflexivity).
  assert (Htx : MsgTx_Deserialize (MsgTx_Serialize spend_tx) = Ok (spend_tx, []))
    by (vm_compute; reflexivity).
  assert (Hdup : ParseTransaction spend_fixture_twice
                 = Err (Errorf "duplicate prevout")) by (vm_compute; reflexivity).
  split; [exact Hraw|]. split; [exact Htx|]. split; [exact Hdup|].
  exact (proj1 (ParseTransaction_duplicate_prevout spend_fixture_twice
                  _ spend_tx [] Hraw Htx) Hdup).
Defined.

Lemma ParseTransaction_missing_prevout_witness :
  Hex.HexToBytes (RawTx spend_fixture_bare) = Ok (MsgTx_Serialize spend_tx)
  /\ MsgTx_Deserialize (MsgTx_Serialize spend_tx) = Ok (spend_tx, [])
  /\ NoDup (map outpoint_of (Prevouts spend_fixture_bare))
  /\ ParseTransaction spend_fixture_bare
     = Err (Errorf "missing prevout for input 4a5e1e4baab89f3a32518a88c31bc87f618f76673e2cc77ab2127b7afdeda33b:0").
Proof.
  assert (Hraw : Hex.HexToBytes (RawTx spend_fixture_bare)
                 = Ok (MsgTx_Serialize spend_tx)) by (vm_compute; reflexivity).
  assert (Htx : MsgTx_Deserialize (MsgTx_Serialize spend_tx) = Ok (spend_tx, []))
    by (vm_compute; reflexivity).
  assert (Hnd : NoDup (map outpoint_of (Prevouts spend_fixture_bare)))
    by constructor.
  split; [exact Hraw|]. split; [exact Htx|]. split; [exact Hnd|].
  exact (ParseTransaction_missing_prevout spend_fixture_bare
           _ spend_tx [] Hraw Htx Hnd).
Defined.

End PrevoutsRecorded.

(** ** The report of a transaction *)

Section Report.
Context {FL : Float64} {BU : Btcutil} {BD : Btcd}.
Import Analyzer.

Lemma make_outputs_nth (network : string) (outs : list TxOut) :
  forall start i out,
    nth_error (make_outputs network start outs) i = Some out ->
    exists txOut,
      nth_error outs i = Some txOut
      /\ out = make_output network (start + Z.of_nat i) txOut.
Proof.
  induction outs as [|txOut outs IH]; intros start i out H.
  - destruct i; discriminate H.
  - destruct i as [|i]; cbn [make_outputs nth_error] in *.
    + injection H as <-. exists txOut. split; [reflexivity|].
      f_equal. lia.
    + destruct (IH _ _ _ H) as (t & Ht & ->). exists t. split; [exact Ht|].
      f_equal. lia.
Qed.

Lemma make_outputs_length (network : string) (outs : list TxOut) :
  forall start, List.length (make_outputs network start outs) = List.length outs.
Proof.
  induction outs as [|txOut outs IH]; intro start; simpl; [|rewrite IH]; reflexivity.
Qed.

(** No address for a script of no address-bearing type. *)
Lemma GetAddressFromScript_none (s : list byte) (network : string) :
  ClassifyOutputScript s = "op_return" \/ ClassifyOutputScript s = "unknown" ->
  GetAddressFromScript s network = None.
Proof.
  intro H. rewrite GetAddressFromScript_address_with. unfold address_with. cbv zeta.
  destruct H as [-> | ->]; reflexivity.
Qed.

(** X20. In a report the outputs come in the order of the transaction
    and are numbered from 0: entry [i] of [vout] has [n = i], the value
    and the script type of output [i], its type is entry [i] of
    [vout_script_types], and it has no address when its type is
    [op_return] or [unknown]; [vin_count] and [vout_count] are the
    numbers of inputs and outputs. *)
Theorem ParseTransaction_outputs (fixture : Fixture) (raw : list byte) (tx : MsgTx)
    (rest : list byte) (out : TransactionOutput) :
  Hex.HexToBytes (RawTx fixture) = Ok raw ->
  MsgTx_Deserialize raw = Ok (tx, rest) ->
  ParseTransaction fixture = Ok out ->
  VinCount out = Z.of_nat (List.length (tx_TxIn tx))
  /\ VoutCount out = Z.of_nat (List.length (tx_TxOut tx))
  /\ List.length (T_Vout out) = List.length (tx_TxOut tx)
  /\ forall i o,
       nth_error (T_Vout out) i = Some o ->
       N o = Z.of_nat i
       /\ nth_error (VoutScriptTypes out) i = Some (ScriptType o)
       /\ (ScriptType o = "op_return" \/ ScriptType o = "unknown" ->
           Address o = None)
       /\ exists txOut,
            nth_error (tx_TxOut tx) i = Some txOut
            /\ ValueSats o = Value txOut
            /\ ScriptType o = ClassifyOutputScript (PkScript txOut)
            /\ ScriptPubkeyHex o = Hex.EncodeToString (PkScript txOut).
Proof.
  intros Hraw Htx E.
  destruct (@ParseTransaction_inv _ _ _ fixture out E) as (raw' & tx' & rest' & m & H1 & H2 & _ & _ & ->).
  assert (raw' = raw) by congruence. subst raw'.
  assert (tx' = tx) by congruence. subst tx'.
  cbn [VinCount VoutCount T_Vout VoutScriptTypes tx_report].
  rewrite length_map, make_outputs_length.
  repeat match goal with |- _ /\ _ => split end; try reflexivity.
  intros i o Ho.
  assert (Hty : nth_error (map ScriptType (make_outputs (Network fixture) 0 (tx_TxOut tx))) i
                = Some (ScriptType o)) by (rewrite nth_error_map, Ho; reflexivity).
  destruct (make_outputs_nth _ _ _ _ _ Ho) as (txOut & Ht & ->).
  cbn [N ScriptType Address ValueSats ScriptPubkeyHex make_output] in *.
  split; [lia|]. split; [exact Hty|]. split.
  - apply GetAddressFromScript_none.
  - exists txOut. repeat split. exact Ht.
Qed.

Lemma fold_int_add (vs : list Z) :
  Forall (fun v => 0 <= v) vs ->
  forall acc,
    0 <= acc -> acc + total vs < two63 ->
    fold_left (fun a v => int_add a v) vs acc = acc + total vs.
Proof.
  induction 1 as [|v vs Hv Hvs IH]; intros acc Hacc Hsum; cbn [fold_left total fold_right] in *.
  - lia.
  - assert (Ht : 0 <= total vs).
    { clear - Hvs. induction Hvs; cbn [total fold_right]; [lia|]. unfold total in *. lia. }
    unfold total in *.
    unfold int_add at 2. rewrite to_int64_small by lia.
    rewrite IH by lia. lia.
Qed.

Lemma fold_left_map_int_add {A} (g : A -> Z) (l : list A) (acc : Z) :
  fold_left (fun a x => int_add a (g x)) l acc
  = fold_left (fun a v => int_add a v) (map g l) acc.
Proof.
  revert acc. induction l as [|x l IH]; intro acc; [reflexivity|].
  cbn [fold_left map]. apply IH.
Qed.

(** X21. When the amounts listed in a report are not negative and each
    of the two sums is below 2^63, [total_input_sats] is the sum of the
    prevout values of [vin], [total_output_sats] the sum of the values
    of [vout], and [fee_sats] their difference, with no wrap-around. *)
Theorem ParseTransaction_totals (fixture : Fixture) (out : TransactionOutput) :
  ParseTransaction fixture = Ok out ->
  Forall (fun v => 0 <= v) (map In_PrevoutValueSats (Vin out)) ->
  Forall (fun v => 0 <= v) (map ValueSats (T_Vout out)) ->
  total (map In_PrevoutValueSats (Vin out)) < two63 ->
  total (map ValueSats (T_Vout out)) < two63 ->
  TotalInputSats out = total (map In_PrevoutValueSats (Vin out))
  /\ TotalOutputSats out = total (map ValueSats (T_Vout out))
  /\ FeeSats out = TotalInputSats out - TotalOutputSats out.
Proof.
  intros E.
  destruct (@ParseTransaction_inv _ _ _ fixture out E) as (raw & tx & rest & m & _ & _ & _ & _ & ->).
  cbn [Vin T_Vout TotalInputSats TotalOutputSats FeeSats tx_report].
  assert (Hin : map In_PrevoutValueSats (map (make_input m) (tx_TxIn tx))
                = map (fun txIn => P_ValueSats (prevout_of m txIn)) (tx_TxIn tx)).
  { rewrite map_map. reflexivity. }
  assert (Hout : forall start,
             map ValueSats (make_outputs (Network fixture) start (tx_TxOut tx))
             = map Value (tx_TxOut tx)).
  { induction (tx_TxOut tx) as [|o os IH]; intro start; [reflexivity|].
    cbn [make_outputs map make_output ValueSats]. rewrite IH. reflexivity. }
  rewrite Hin, Hout. intros P1 P2 S1 S2.
  assert (T1 : 0 <= total (map (fun txIn => P_ValueSats (prevout_of m txIn)) (tx_TxIn tx))).
  { clear - P1. induction P1; cbn [total fold_right]; [lia|]. unfold total in *. lia. }
  assert (T2 : 0 <= total (map Value (tx_TxOut tx))).
  { clear - P2. induction P2; cbn [total fold_right]; [lia|]. unfold total in *. lia. }
  unfold sum_inputs, sum_outputs.
  rewrite (fold_left_map_int_add (fun txIn => P_ValueSats (prevout_of m txIn))).
  rewrite (fold_left_map_int_add Value).
  rewrite !fold_int_add by (assumption || lia).
  rewrite !Z.add_0_l.
  split; [reflexivity|]. split; [reflexivity|].
  unfold int_sub, to_int64.
  assert (Hlt : two63 < two64) by reflexivity.
  assert (H64 : two64 = 2 * two63) by reflexivity.
  set (a := total (map (fun txIn => P_ValueSats (prevout_of m txIn)) (tx_TxIn tx))) in *.
  set (b := total (map Value (tx_TxOut tx))) in *.
  destruct (Z.le_gt_cases 0 (a - b)) as [Hpos|Hneg].
  - rewrite Z.mod_small by lia.
    destruct (Z.ltb_spec (a - b) two63); lia.
  - assert (Hm : (a - b) mod two64 = a - b + two64).
    { symmetry. apply Z.mod_unique with (-1); lia. }
    rewrite Hm. destruct (Z.ltb_spec (a - b + two64) two63); lia.
Qed.


End Report.

Section ReportRecorded.
Import Reference.

Lemma ParseTransaction_outputs_witness :
  Hex.HexToBytes (RawTx spend_fixture) = Ok (MsgTx_Serialize spend_tx)
  /\ MsgTx_Deserialize (MsgTx_Serialize spend_tx) = Ok (spend_tx, [])
  /\ exists out,
       ParseTransaction spend_fixture = Ok out
       /\ VoutCount out = 1
       /\ List.length (T_Vout out) = 1%nat.
Proof.
  assert (Hraw : Hex.HexToBytes (RawTx spend_fixture) = Ok (MsgTx_Serialize spend_tx))
    by (vm_compute; reflexivity).
  assert (Htx : MsgTx_Deserialize (MsgTx_Serialize spend_tx) = Ok (spend_tx, []))
    by (vm_compute; reflexivity).
  assert (E : exists out, ParseTransaction spend_fixture = Ok out)
    by (vm_compute; eexists; reflexivity).
  destruct E as (out & E).
  split; [exact Hraw|]. split; [exact Htx|]. exists out. split; [exact E|].
  destruct (ParseTransaction_outputs spend_fixture _ spend_tx [] out Hraw Htx E)
    as (_ & Hc & Hl & _).
  split; [exact Hc|exact Hl].
Defined.

(** The recorded spend: 3000 satoshis in, 500 out, a fee of 2500. *)
Lemma ParseTransaction_totals_witness :
  exists out,
    ParseTransaction spend_fixture = Ok out
    /\ Forall (fun v => 0 <= v) (map In_PrevoutValueSats (Vin out))
    /\ Forall (fun v => 0 <= v) (map ValueSats (T_Vout out))
    /\ total (map In_PrevoutValueSats (Vin out)) < two63
    /\ total (map ValueSats (T_Vout out)) < two63
    /\ FeeSats out = TotalInputSats out - TotalOutputSats out
    /\ FeeSats out = 2500.
Proof.
  assert (E : exists out,
             ParseTransaction spend_fixture = Ok out
             /\ map In_PrevoutValueSats (Vin out) = [3000]
             /\ map ValueSats (T_Vout out) = [500]
             /\ FeeSats out = 2500)
    by (vm_compute; eexists; repeat split; reflexivity).
  destruct E as (out & E & Hi & Ho & Hf).
  assert (P1 : Forall (fun v => 0 <= v) (map In_PrevoutValueSats (Vin out)))
    by (rewrite Hi; repeat constructor; lia).
  assert (P2 : Forall (fun v => 0 <= v) (map ValueSats (T_Vout out)))
    by (rewrite Ho; repeat constructor; lia).
  assert (S1 : total (map In_PrevoutValueSats (Vin out)) < two63)
    by (rewrite Hi; vm_compute; reflexivity).
  assert (S2 : total (map ValueSats (T_Vout out)) < two63)
    by (rewrite Ho; vm_compute; reflexivity).
  exists out. split; [exact E|]. split; [exact P1|]. split; [exact P2|].
  split; [exact S1|]. split; [exact S2|]. split; [|exact Hf].
  exact (proj2 (proj2 (ParseTransaction_totals spend_fixture out E P1 P2 S1 S2))).
Defined.


End ReportRecorded.

(** ** Coinbase inputs *)

Section CoinbaseInput.

Lemma all_bytes_rev (s : list byte) : all_bytes s -> all_bytes (rev s).
Proof. unfold all_bytes. apply Forall_rev. Qed.

(** X23. The comparison of the printed outpoint with 64 zeros and
    [0xFFFFFFFF] holds exactly for the null outpoint: a hash of 32 zero
    bytes and the index [0xFFFFFFFF]. *)
Theorem isCoinbaseInput_null_outpoint (txIn : TxIn) :
  all_bytes (op_Hash (PreviousOutPoint txIn)) ->
  (isCoinbaseInput txIn = true
   <-> op_Hash (PreviousOutPoint txIn) = repeat 0 32
       /\ op_Index (PreviousOutPoint txIn) = 0xFFFFFFFF).
Proof.
  intro Hb. unfold isCoinbaseInput.
  rewrite andb_true_iff, String.eqb_eq, Z.eqb_eq.
  assert (Hz : coinbaseNullHash = Hash_String (repeat 0 32)) by reflexivity.
  split; intros [H1 H2]; split; try exact H2.
  - rewrite Hz in H1. unfold Hash_String in H1.
    apply EncodeToString_inj in H1.
    + apply (f_equal (@rev byte)) in H1. rewrite !rev_involutive in H1. exact H1.
    + apply all_bytes_rev. exact Hb.
    + apply all_bytes_check. reflexivity.
  - rewrite H1. reflexivity.
Qed.

Lemma isCoinbaseInput_null_outpoint_witness :
  all_bytes (op_Hash (PreviousOutPoint
                        {| PreviousOutPoint := {| op_Hash := repeat 0 32;
                                                  op_Index := 0xFFFFFFFF |};
                           SignatureScript := [0x51];
                           Witness := [];
                           Sequence := 0xFFFFFFFF |}))
  /\ isCoinbaseInput {| PreviousOutPoint := {| op_Hash := repeat 0 32;
                                               op_Index := 0xFFFFFFFF |};
                        SignatureScript := [0x51];
                        Witness := [];
                        Sequence := 0xFFFFFFFF |} = true.
Proof.
  assert (Hb : all_bytes (op_Hash (PreviousOutPoint
                        {| PreviousOutPoint := {| op_Hash := repeat 0 32;
                                                  op_Index := 0xFFFFFFFF |};
                           SignatureScript := [0x51];
                           Witness := [];
                           Sequence := 0xFFFFFFFF |})))
    by (apply all_bytes_check; reflexivity).
  split; [exact Hb|].
  apply (proj2 (isCoinbaseInput_null_outpoint _ Hb)). split; reflexivity.
Defined.

End CoinbaseInput.

(** ** Block files *)

Section BlockFiles.
Context {FL : Float64} {BU : Btcutil} {BD : Btcd} {RT : Runtime}.
Import Utils Analyzer Parser.

(** The errors of the reading of a block: the bare end of the stream
    when the four bytes of the magic are not there, a message
    otherwise. *)
Lemma read_block_errors (blk : list byte) (e : error) :
  read_block blk = Err e ->
  (len blk < 4 /\ (e = io_EOF \/ e = io_ErrUnexpectedEOF))
  \/ (4 <= len blk /\ wrapped e).
Proof.
  unfold read_block, bind.
  destruct (ReadFull 4 blk) as [[magic s1]|e1] eqn:E1.
  - assert (Hlen : 4 <= len blk).
    { unfold ReadFull in E1. change (4 <=? 0) with false in E1. cbv iota in E1.
      destruct blk as [|b blk']; [discriminate|].
      destruct (Z.ltb_spec (Z.of_nat (List.length (b :: blk'))) 4); [discriminate|].
      exact H. }
    intro H. right. split; [exact Hlen|].
    destruct (wrap_err "failed to read block size" (ReadFull 4) s1)
      as [[sz s2]|e2] eqn:E2; [|injection H as <-; exact (wrap_err_wrapped _ _ _ _ E2)].
    destruct (wrap_err "failed to parse block header" BlockHeader_Deserialize s2)
      as [[hd s3]|e3] eqn:E3; [|injection H as <-; exact (wrap_err_wrapped _ _ _ _ E3)].
    destruct (wrap_err "failed to read tx count" ReadCompactSize s3)
      as [[cnt s4]|e4] eqn:E4; [|injection H as <-; exact (wrap_err_wrapped _ _ _ _ E4)].
    destruct (repeat_rd_from 0 (Z.to_nat cnt) _ s4) as [[txs s5]|e5] eqn:E5;
      [discriminate|].
    injection H as <-.
    apply (repeat_rd_from_wrapped _ _
             (fun i s e => wrap_err_wrapped _ _ s e) _ _ _ E5).
  - intro H. injection H as <-. left.
    unfold ReadFull in E1. change (4 <=? 0) with false in E1. cbv iota in E1.
    destruct blk as [|b blk'].
    + injection E1 as <-. split; [cbn; lia|left; reflexivity].
    + destruct (Z.ltb_spec (Z.of_nat (List.length (b :: blk'))) 4); [|discriminate].
      injection E1 as <-. split; [exact H|right; reflexivity].
Qed.

Lemma collect_prevouts_errors (prevouts : list (list PrevoutInput)) (i : nat)
    (ins : list TxIn) :
  forall j e, collect_prevouts prevouts i j ins = Err e -> wrapped e.
Proof.
  induction ins as [|txIn ins IH]; intros j e; cbn [collect_prevouts].
  - discriminate.
  - destruct (nth_error prevouts (i - 1)) as [undo|];
      [|intro H; injection H as <-; exact I].
    destruct (nth_error undo j) as [p|]; [|intro H; injection H as <-; exact I].
    destruct (collect_prevouts prevouts i (S j) ins) eqn:E; [discriminate|].
    intro H. injection H as <-. apply (IH _ _ E).
Qed.

Lemma analyze_all_errors (prevouts : list (list PrevoutInput)) (txs : list MsgTx) :
  forall i acc e, analyze_all prevouts i txs acc = Err e -> wrapped e.
Proof.
  induction txs as [|tx txs IH]; intros i acc e; cbn [analyze_all].
  - discriminate.
  - destruct (if Nat.ltb 0 i then collect_prevouts prevouts i 0 (tx_TxIn tx) else Ok [])
      as [ps|e1] eqn:E1.
    + destruct (analyzeTransaction tx _ (Nat.eqb i 0)) as [o|e2].
      * apply IH.
      * intro H. injection H as <-. exact I.
    + intro H. injection H as <-.
      destruct (Nat.ltb 0 i); [|discriminate].
      apply (collect_prevouts_errors _ _ _ _ _ E1).
Qed.

Lemma check_block_errors (header : WireBlockHeader) (txCount : Z)
    (txs : list MsgTx) (rev : Reader) (e : error) :
  check_block header txCount txs rev = Err e -> wrapped e.
Proof.
  unfold check_block. cbv zeta.
  destruct (negb _); [discriminate|].
  destruct (parseUndoFile rev txs) as [prevouts|e0];
    [|destruct e0; try discriminate; intro H; injection H as <-; exact I].
  destruct txs as [|cb txs']; [intro H; injection H as <-; exact I|].
  destruct (tx_TxIn cb) as [|cbIn ins]; [intro H; injection H as <-; exact I|].
  destruct (analyze_all prevouts 0 (cb :: txs') _) as [acc|e1] eqn:E1; [discriminate|].
  intro H. injection H as <-. apply (analyze_all_errors _ _ _ _ _ E1).
Qed.

Lemma XORDecode_length (data key : list byte) :
  List.length (XORDecode data key) = List.length data.
Proof.
  unfold XORDecode. destruct key as [|k key']; [reflexivity|].
  destruct (allZero (k :: key')); [reflexivity|apply xor_from_length].
Qed.

(** X24. [ParseBlock] reports that the block file is empty or truncated
    exactly when the file has fewer than the four bytes of the magic;
    a file that ends anywhere later gives another error or a block. *)
Theorem ParseBlock_truncated (blkData revData xorKey : list byte) :
  ParseBlock blkData revData xorKey
  = Err (Errorf "block file is empty or truncated")
  <-> len blkData < 4.
Proof.
  unfold ParseBlock. cbv zeta. unfold parseOneBlock.
  assert (Hl : len (XORDecode blkData xorKey) = len blkData)
    by (unfold len; rewrite XORDecode_length; reflexivity).
  destruct (read_block (XORDecode blkData xorKey)) as [[[[hd cnt] txs] s]|e] eqn:E.
  - assert (Hlen : 4 <= len blkData).
    { rewrite <- Hl. unfold read_block, bind in E.
      destruct (ReadFull 4 (XORDecode blkData xorKey)) as [[magic s1]|] eqn:E1;
        [|discriminate].
      unfold ReadFull in E1. change (4 <=? 0) with false in E1. cbv iota in E1.
      destruct (XORDecode blkData xorKey) as [|b blk']; [discriminate|].
      destruct (Z.ltb_spec (Z.of_nat (List.length (b :: blk'))) 4); [discriminate|].
      assumption. }
    split; [|lia].
    destruct (check_block hd cnt txs _) as [block|e] eqn:Ec; [discriminate|].
    apply check_block_errors in Ec. destruct e; try contradiction; discriminate.
  - apply read_block_errors in E. rewrite Hl in E.
    destruct E as [[Hlen [-> | ->]]|[Hlen Hw]].
    + tauto.
    + tauto.
    + split; [|lia]. destruct e; try contradiction; discriminate.
Qed.

Lemma XORDecode_twice (data key : list byte) :
  XORDecode (XORDecode data key) key = data.
Proof.
  unfold XORDecode. destruct key as [|k key']; [reflexivity|].
  destruct (allZero (k :: key')); [reflexivity|apply xor_from_twice].
Qed.

(** X25. The analysis of files obfuscated with a key is the analysis of
    the plain files: [ParseBlock] on the block and undo data xored with
    the key, given the key, returns what it returns on the data
    themselves with an empty key. *)
Theorem ParseBlock_obfuscated (blkData revData xorKey : list byte) :
  ParseBlock (XORDecode blkData xorKey) (XORDecode revData xorKey) xorKey
  = ParseBlock blkData revData [].
Proof.
  unfold ParseBlock. cbv zeta. rewrite !XORDecode_twice. reflexivity.
Qed.





End BlockFiles.

(** ** The report of a block *)

Section BlockReport.
Context {FL : Float64} {BU : Btcutil} {BD : Btcd} {RT : Runtime}.
Import Utils Analyzer Parser.

Lemma repeat_rd_from_length {A} (m : Z -> Rd A) (n : nat) :
  forall i s l s', repeat_rd_from i n m s = Ok (l, s') -> List.length l = n.
Proof.
  induction n as [|n IH]; intros i s l s'; cbn [repeat_rd_from].
  - unfold ret. intro H. injection H as <- _. reflexivity.
  - unfold bind, ret. destruct (m i s) as [[a s1]|]; [|discriminate].
    destruct (repeat_rd_from (i + 1) n m s1) as [[r s2]|] eqn:E; [|discriminate].
    intro H. injection H as <- _. cbn [List.length]. f_equal. apply (IH _ _ _ _ E).
Qed.

Lemma parseUndoFile_step_Ok (want : Z) (r : Reader)
    (prevouts : list (list PrevoutInput)) :
  parseUndoFile_step want r = Return (Ok prevouts) ->
  List.length prevouts = Z.to_nat want.
Proof.
  unfold parseUndoFile_step.
  destruct (rs_read (ReadFull 8) r) as [[header r1]|e];
    [|destruct e; discriminate].
  destruct (rs_read ReadCompactSize r1) as [[c r2]|]; [|discriminate].
  destruct (Z.eqb_spec c want) as [->|]; cbn [negb].
  - unfold rs_read.
    destruct (read_block_undo want (remaining r2)) as [[a s3]|] eqn:E; [|discriminate].
    intro H. injection H as <-.
    apply (repeat_rd_from_length _ _ _ _ _ _ E).
  - cbv zeta. destruct (_ <? 0); discriminate.
Qed.

Lemma parseUndoFile_loop_count (want : Z) (n : nat) :
  forall r prevouts,
    (Z.to_nat (len (buf r) - off r) <= n)%nat ->
    parseUndoFile_loop want r = Ok prevouts ->
    List.length prevouts = Z.to_nat want.
Proof.
  induction n as [|n IH]; intros r prevouts Hn; rewrite parseUndoFile_loop_eq;
    destruct (parseUndoFile_step want r) as [res|next] eqn:E.
  - intros ->. apply (parseUndoFile_step_Ok _ _ _ E).
  - apply parseUndoFile_step_Continue in E. unfold len in Hn. lia.
  - intros ->. apply (parseUndoFile_step_Ok _ _ _ E).
  - apply parseUndoFile_step_Continue in E. destruct E as (H1 & _ & H2).
    apply IH. cbn [buf off]. unfold len in *. lia.
Qed.

(** X27. The undo decoder stops at the first record whose count is the
    number of transactions less one, so what it returns on success has
    one list of prevouts for each transaction after the coinbase: the
    index [i-1] into it is in range for every transaction [i] of the
    block but the first. *)
Theorem parseUndoFile_count (r : Reader) (transactions : list MsgTx)
    (prevouts : list (list PrevoutInput)) :
  parseUndoFile r transactions = Ok prevouts ->
  List.length prevouts
  = Z.to_nat (wrap64 (Z.of_nat (List.length transactions) - 1))
  /\ (transactions <> [] -> Z.of_nat (List.length transactions) <= two64 ->
      List.length prevouts = (List.length transactions - 1)%nat
      /\ forall i, (1 <= i < List.length transactions)%nat ->
                   nth_error prevouts (i - 1) <> None).
Proof.
  unfold parseUndoFile. cbv zeta. intro H.
  apply (parseUndoFile_loop_count _ _ _ _ (Nat.le_refl _)) in H.
  split; [exact H|]. intros Hne Hmax.
  assert (Hpos : (0 < List.length transactions)%nat)
    by (destruct transactions; [congruence|simpl; lia]).
  rewrite wrap64_small in H by lia.
  split; [lia|]. intros i Hi. apply nth_error_Some. lia.
Qed.

Lemma analyze_all_acc (prevouts : list (list PrevoutInput)) (txs : list MsgTx) :
  forall i acc acc',
    analyze_all prevouts i txs acc = Ok acc' ->
    exists outs,
      txOutputs acc' = txOutputs acc ++ outs
      /\ List.length outs = List.length txs
      /\ totalWeight acc'
         = fold_left int_add (map Weight outs) (totalWeight acc)
      /\ totalFees acc'
         = fold_left int_add
             (map FeeSats (if Nat.eqb i 0 then tl outs else outs))
             (totalFees acc)
      /\ scriptTypeCounts acc'
         = fold_left (fun m out => count_incr (ScriptType out) m)
             (List.concat (map T_Vout outs)) (scriptTypeCounts acc).
Proof.
  induction txs as [|tx txs IH]; intros i acc acc'; cbn [analyze_all].
  - intro H. injection H as <-. exists []. rewrite app_nil_r.
    repeat split; destruct (Nat.eqb i 0); reflexivity.
  - destruct (if Nat.ltb 0 i then collect_prevouts prevouts i 0 (tx_TxIn tx) else Ok [])
      as [ps|]; [|discriminate].
    destruct (analyzeTransaction tx _ (Nat.eqb i 0)) as [o|]; [|discriminate].
    intro H. destruct (IH _ _ _ H) as (outs & H1 & H2 & H3 & H4 & H5).
    cbn [txOutputs totalFees totalWeight scriptTypeCounts] in *.
    exists (o :: outs).
    split; [rewrite H1, <- app_assoc; reflexivity|].
    split; [cbn [List.length]; rewrite H2; reflexivity|].
    split; [exact H3|].
    split.
    + rewrite H4. cbn [Nat.eqb]. destruct i; reflexivity.
    + rewrite H5. cbn [map List.concat]. rewrite fold_left_app. reflexivity.
Qed.


Lemma counter_count_incr (t t' : string) (m : list (string * Z)) :
  counter t (count_incr t' m)
  = if String.eqb t' t then int_add (counter t m) 1 else counter t m.
Proof.
  unfold counter. induction m as [|[k n] m IH]; cbn [count_incr find fst].
  - destruct (String.eqb t' t); reflexivity.
  - destruct (String.eqb_spec k t') as [->|Hk]; cbn [find fst].
    + destruct (String.eqb t' t); reflexivity.
    + destruct (String.eqb_spec k t) as [->|Hkt].
      * destruct (String.eqb_spec t' t); [congruence|reflexivity].
      * exact IH.
Qed.

Lemma counter_fold (t : string) (outs : list Output) :
  forall m,
    0 <= counter t m ->
    counter t m + Z.of_nat (List.length outs) < two63 ->
    counter t (fold_left (fun m out => count_incr (ScriptType out) m) outs m)
    = counter t m + count_if (fun out => String.eqb (ScriptType out) t) outs.
Proof.
  unfold count_if.
  induction outs as [|o outs IH]; intros m H0 Hlt; cbn [fold_left filter List.length].
  - lia.
  - cbn [List.length] in Hlt.
    pose proof (counter_count_incr t (ScriptType o) m) as Hc.
    rewrite IH.
    + rewrite Hc. destruct (String.eqb (ScriptType o) t); cbn [List.length]; [|lia].
      unfold int_add. rewrite to_int64_small by lia. lia.
    + rewrite Hc. destruct (String.eqb (ScriptType o) t); [|lia].
      unfold int_add. rewrite to_int64_small by lia. lia.
    + rewrite Hc. destruct (String.eqb (ScriptType o) t); [|lia].
      unfold int_add. rewrite to_int64_small by lia. lia.
Qed.

(** X29. In the report of a block the summary of script types counts
    the outputs: for every type its entry is the number of outputs of
    that type over all transactions of the block, as long as the block
    has fewer than 2^63 outputs. *)
Theorem parseOneBlock_script_types (blk : list byte) (rev : Reader)
    (out : BlockOutput) (t : string) :
  parseOneBlock blk rev = Ok out ->
  B_OK out = true ->
  Z.of_nat (List.length (List.concat (map T_Vout (Transactions out)))) < two63 ->
  counter t (ScriptTypeSummary (B_BlockStats out))
  = count_if (fun o => String.eqb (ScriptType o) t)
      (List.concat (map T_Vout (Transactions out))).
Proof.
  unfold parseOneBlock.
  destruct (read_block blk) as [[[[header txCount] txs] rest]|]; [|discriminate].
  unfold check_block. cbv zeta.
  destruct (negb _); [intro H; injection H as <-; discriminate|].
  destruct (parseUndoFile rev txs) as [prevouts|e];
    [|destruct e; try discriminate; intro H; injection H as <-; discriminate].
  destruct txs as [|cb txs']; [discriminate|].
  destruct (tx_TxIn cb) as [|cbIn ins]; [discriminate|].
  destruct (analyze_all prevouts 0 (cb :: txs') _) as [acc|] eqn:Ea; [|discriminate].
  intro H. injection H as <-. intros _.
  destruct (analyze_all_acc _ _ _ _ _ Ea) as (outs & H1 & _ & _ & _ & H5).
  cbn [txOutputs scriptTypeCounts app] in *.
  cbn [Transactions B_BlockStats ScriptTypeSummary]. rewrite H1, H5.
  intro Hlt. change (counter t []) with 0 in *.
  rewrite counter_fold; change (counter t []) with 0; [reflexivity|lia|lia].
Qed.

End BlockReport.

Section BlockReportRecorded.
Import Utils Analyzer Parser Reference Samples.

(** The genesis block against a rev file with a record for it. *)
Lemma genesis_block_report :
  exists out,
    parseOneBlock genesis_blk genesis_rev = Ok out
    /\ B_OK out = true
    /\ List.length (Transactions out) = 1%nat
    /\ ScriptTypeSummary (B_BlockStats out) = [("unknown", 1)]
    /\ List.length (List.concat (map T_Vout (Transactions out))) = 1%nat.
Proof. vm_compute. eexists. repeat split. Qed.

Lemma parseUndoFile_count_witness :
  parseUndoFile genesis_rev [genesis_tx] = Ok []
  /\ List.length (@nil (list PrevoutInput))
     = Z.to_nat (wrap64 (Z.of_nat (List.length [genesis_tx]) - 1)).
Proof.
  assert (H : parseUndoFile genesis_rev [genesis_tx] = Ok [])
    by (vm_compute; reflexivity).
  split; [exact H|].
  exact (proj1 (parseUndoFile_count genesis_rev [genesis_tx] [] H)).
Defined.


Lemma parseOneBlock_script_types_witness :
  exists out,
    parseOneBlock genesis_blk genesis_rev = Ok out
    /\ B_OK out = true
    /\ Z.of_nat (List.length (List.concat (map T_Vout (Transactions out)))) < two63
    /\ counter "unknown" (ScriptTypeSummary (B_BlockStats out))
       = count_if (fun o => String.eqb (ScriptType o) "unknown")
           (List.concat (map T_Vout (Transactions out)))
    /\ counter "unknown" (ScriptTypeSummary (B_BlockStats out)) = 1.
Proof.
  destruct genesis_block_report as (out & E & Hok & _ & Hs & Hl).
  assert (Hlt : Z.of_nat (List.length (List.concat (map T_Vout (Transactions out))))
                < two63) by (rewrite Hl; reflexivity).
  exists out. split; [exact E|]. split; [exact Hok|]. split; [exact Hlt|].
  split.
  - exact (parseOneBlock_script_types genesis_blk genesis_rev out "unknown"
             E Hok Hlt).
  - rewrite Hs. reflexivity.
Defined.


End BlockReportRecorded.

(** ** Undo entries of hashed scripts *)

Section UndoEntries.
Context {BD : Btcd} {RT : Runtime}.
Import Utils Analyzer Parser.

Lemma ReadBitcoinVarInt_app (cs : list byte) (t : byte) (rest : list byte) :
  is_varint cs t ->
  ReadBitcoinVarInt (cs ++ t :: rest) = Ok (varint_value cs t, rest).
Proof.
  intros [Hcs Ht]. unfold ReadBitcoinVarInt, varint_value.
  apply ReadBitcoinVarInt_loop_app; assumption.
Qed.

Lemma wrap_err_Ok {A} (msg : string) (m : Rd A) (s : list byte) (r : A * list byte) :
  m s = Ok r -> wrap_err msg m s = Ok r.
Proof. intro H. unfold wrap_err. rewrite H. reflexivity. Qed.

(** X30. An undo entry whose size field is 0 or 1 carries a 20-byte
    hash: the entry decodes to the decompressed amount and to the
    pay-to-pubkey-hash script (size 0) or the pay-to-script-hash script
    (size 1) around that hash, which [ClassifyOutputScript] names
    [p2pkh] and [p2sh], and the bytes after the hash are left unread.
    The code and the amount are CVarInts of any length, and a dummy
    CVarInt stands between them when the height in the code is
    positive. *)
Theorem readUndoPrevout_hashed (ccs : list byte) (ct : byte) (dummy acs : list byte)
    (at_ : byte) (hash rest : list byte) :
  is_varint ccs ct -> dummy_for (varint_value ccs ct) dummy -> is_varint acs at_ ->
  List.length hash = 20%nat ->
  let amount := DecompressAmount (varint_value acs at_) in
  let p2pkh := [0x76; 0xa9; 0x14] ++ hash ++ [0x88; 0xac] in
  let p2sh := [0xa9; 0x14] ++ hash ++ [0x87] in
  readUndoPrevout (ccs ++ ct :: dummy ++ acs ++ at_ :: 0 :: hash ++ rest)
  = Ok ({| Txid := ""; Vout := 0; P_ValueSats := amount;
           P_ScriptPubkeyHex := Hex.EncodeToString p2pkh |}, rest)
  /\ readUndoPrevout (ccs ++ ct :: dummy ++ acs ++ at_ :: 1 :: hash ++ rest)
     = Ok ({| Txid := ""; Vout := 0; P_ValueSats := amount;
              P_ScriptPubkeyHex := Hex.EncodeToString p2sh |}, rest)
  /\ ClassifyOutputScript p2pkh = "p2pkh"
  /\ ClassifyOutputScript p2sh = "p2sh".
Proof.
  intros Hc Hd Ha Hh. cbv zeta.
  assert (H1 : forall tail,
             wrap_err "readUndoPrevout nCode" ReadBitcoinVarInt (ccs ++ ct :: tail)
             = Ok (varint_value ccs ct, tail))
    by (intro tail; apply wrap_err_Ok, ReadBitcoinVarInt_app; exact Hc).
  assert (H2 : forall tail,
             exists d,
               (if Z.shiftr (varint_value ccs ct) 1 >? 0
                then wrap_err "readUndoPrevout nVersionDummy" ReadBitcoinVarInt
                else ret 0) (dummy ++ tail) = Ok (d, tail)).
  { intro tail. unfold dummy_for in Hd.
    destruct (Z.shiftr (varint_value ccs ct) 1 >? 0).
    - destruct Hd as (dcs & dt & Hdv & ->). rewrite <- app_assoc. cbn [app].
      eexists. apply wrap_err_Ok, ReadBitcoinVarInt_app. exact Hdv.
    - subst dummy. eexists. reflexivity. }
  assert (H3 : forall tail,
             wrap_err "readUndoPrevout amount" ReadBitcoinVarInt (acs ++ at_ :: tail)
             = Ok (varint_value acs at_, tail))
    by (intro tail; apply wrap_err_Ok, ReadBitcoinVarInt_app; exact Ha).
  assert (H4 : forall n tail,
             0 <= n < 0x80 ->
             wrap_err "readUndoPrevout nSize" ReadBitcoinVarInt (n :: tail)
             = Ok (n, tail)).
  { intros n tail Hn. apply wrap_err_Ok.
    change (n :: tail) with ([] ++ n :: tail).
    rewrite (ReadBitcoinVarInt_app [] n).
    - unfold varint_value, varint_take. cbn [fold_left].
      change (Z.shiftl 0 7) with 0. change (wrap64 0) with 0.
      rewrite Z.lor_0_l.
      change 0x7f with (Z.ones 7). rewrite Z.land_ones by lia.
      rewrite Z.mod_small by (change (2 ^ 7) with 128; lia). reflexivity.
    - split; [constructor|].
      change 0x80 with (2 ^ 7). rewrite land_pow2 by lia.
      rewrite (testbit_top n 7) by (change (2 ^ (7 + 1)) with 256; lia).
      destruct (Z.leb_spec (2 ^ 7) n); [change (2 ^ 7) with 128 in *; lia|].
      reflexivity. }
  assert (H5 : forall msg,
             wrap_err msg (ReadFull 20) (hash ++ rest) = Ok (hash, rest)).
  { intro msg. apply wrap_err_Ok.
    rewrite <- (ReadFull_app hash rest). rewrite Hh. reflexivity. }
  split; [|split; [|split]].
  - unfold readUndoPrevout, bind. rewrite H1. cbv zeta.
    destruct (H2 (acs ++ at_ :: 0 :: hash ++ rest)) as [d ->].
    rewrite H3, H4 by lia. cbn [Z.eqb]. rewrite H5. reflexivity.
  - unfold readUndoPrevout, bind. rewrite H1. cbv zeta.
    destruct (H2 (acs ++ at_ :: 1 :: hash ++ rest)) as [d ->].
    rewrite H3, H4 by lia. cbn [Z.eqb Pos.eqb]. rewrite H5. reflexivity.
  - rewrite ClassifyOutputScript_tests.
    assert (Ht : p2pkh_test ([0x76; 0xa9; 0x14] ++ hash ++ [0x88; 0xac]) = true)
      by (apply p2pkh_test_spec; exists hash; split; [exact Hh|reflexivity]).
    rewrite Ht. reflexivity.
  - rewrite ClassifyOutputScript_tests.
    assert (Ht : p2sh_test ([0xa9; 0x14] ++ hash ++ [0x87]) = true)
      by (apply p2sh_test_spec; exists hash; split; [exact Hh|reflexivity]).
    rewrite Ht.
    destruct (p2pkh_test ([0xa9; 0x14] ++ hash ++ [0x87])) eqn:E; [|reflexivity].
    apply p2pkh_test_spec in E. destruct E as (h & _ & E). discriminate E.
Qed.

End UndoEntries.

Section UndoEntriesRecorded.
Import Utils Analyzer Parser Reference.

(** An entry for an output of 50 bitcoins created by the coinbase of
    block 9 and paying to the key hash of the genesis address. *)
Lemma readUndoPrevout_hashed_witness :
  is_varint [] 0x13
  /\ dummy_for (varint_value [] 0x13) [0x00]
  /\ is_varint [] 0x32
  /\ List.length (bytes_of_hex "62e907b15cbf27d5425399ebf6f0fb50ebb88f18") = 20%nat
  /\ readUndoPrevout
       (bytes_of_hex "1300320062e907b15cbf27d5425399ebf6f0fb50ebb88f18ff")
     = Ok ({| Txid := ""; Vout := 0; P_ValueSats := 5000000000;
              P_ScriptPubkeyHex :=
                "76a91462e907b15cbf27d5425399ebf6f0fb50ebb88f1888ac" |}, [0xff]).
Proof.
  assert (Hc : is_varint [] 0x13) by (split; [constructor|reflexivity]).
  assert (Hd : dummy_for (varint_value [] 0x13) [0x00]).
  { unfold dummy_for. change (Z.shiftr (varint_value [] 0x13) 1 >? 0) with true.
    exists [], 0x00. split; [split; [constructor|reflexivity]|reflexivity]. }
  assert (Ha : is_varint [] 0x32) by (split; [constructor|reflexivity]).
  assert (Hh : List.length (bytes_of_hex "62e907b15cbf27d5425399ebf6f0fb50ebb88f18")
               = 20%nat) by reflexivity.
  split; [exact Hc|]. split; [exact Hd|]. split; [exact Ha|]. split; [exact Hh|].
  exact (proj1 (readUndoPrevout_hashed [] 0x13 [0x00] [] 0x32
                  (bytes_of_hex "62e907b15cbf27d5425399ebf6f0fb50ebb88f18") [0xff]
                  Hc Hd Ha Hh)).
Defined.

End UndoEntriesRecorded.
